(** * CAPIbara: route matching, template resolution and request dispatch

    A shallow embedding of the CAPIbara gateway (src/utils.js,
    src/template-engine.js, src/router.js) and the properties of its
    route-matching and template-resolution core.

    JavaScript strings are modelled by [string]: a sequence of code units
    below 256.  On this alphabet the line terminators are LF and CR, and the
    white space of [\s] and [String.prototype.trim] is TAB, LF, VT, FF, CR,
    SPACE and NBSP.  JavaScript numbers are an interface ([JsNumber]): the
    program converts them to and from strings and never computes with them.
    What a call throws is a value of its result type.  The loggers are
    sinks: their calls do not show in any result and are left out.

    The modules follow the source files; the facts and the properties of
    the specification come after the definitions. *)

From Stdlib Require Import Bool Arith ZArith List Ascii String Lia DecimalString.
From Stdlib Require Import Sorting.Sorted Sorting.Permutation.
Import ListNotations.
Open Scope string_scope.
Open Scope list_scope.

(* ================================================================== *)
(** ** JavaScript string primitives *)

Module JsString.

Definition LF : ascii := "010"%char.
Definition CR : ascii := "013"%char.

(** A line terminator: what [.] refuses to match without the [s] flag. *)
Definition isLineTerminator (c : ascii) : bool :=
  (c =? LF)%char || (c =? CR)%char.

(** White space: the class [\s], also what [trim] strips. *)
Definition isWhiteSpace (c : ascii) : bool :=
  (c =? "009")%char || (c =? LF)%char || (c =? "011")%char ||
  (c =? "012")%char || (c =? CR)%char || (c =? " ")%char ||
  (c =? "160")%char.

(** The class [\d]. *)
Definition isDigit (c : ascii) : bool :=
  let n := nat_of_ascii c in (48 <=? n)%nat && (n <=? 57)%nat.

(** [s.includes(c)] for a one-character needle. *)
Fixpoint includesChar (c : ascii) (s : string) : bool :=
  match s with
  | EmptyString => false
  | String a s' => (a =? c)%char || includesChar c s'
  end.

(** [s.startsWith(p)]. *)
Fixpoint startsWith (p s : string) : bool :=
  match p, s with
  | EmptyString, _ => true
  | String a p', String b s' => (a =? b)%char && startsWith p' s'
  | String _ _, EmptyString => false
  end.

(** [s.includes(needle)]: the needle starts at some position of [s]. *)
Fixpoint includes (needle s : string) : bool :=
  startsWith needle s ||
  match s with
  | EmptyString => false
  | String _ s' => includes needle s'
  end.

(** Every character of [s] satisfies [f]. *)
Fixpoint allChars (f : ascii -> bool) (s : string) : bool :=
  match s with
  | EmptyString => true
  | String a s' => f a && allChars f s'
  end.

Fixpoint dropWhile (f : ascii -> bool) (s : string) : string :=
  match s with
  | EmptyString => EmptyString
  | String a s' => if f a then dropWhile f s' else s
  end.

Fixpoint takeWhile (f : ascii -> bool) (s : string) : string :=
  match s with
  | EmptyString => EmptyString
  | String a s' => if f a then String a (takeWhile f s') else EmptyString
  end.

Definition trimStart (s : string) : string := dropWhile isWhiteSpace s.

Fixpoint trimEnd (s : string) : string :=
  match s with
  | EmptyString => EmptyString
  | String a s' =>
      match trimEnd s' with
      | EmptyString => if isWhiteSpace a then EmptyString else String a EmptyString
      | t => String a t
      end
  end.

(** [s.trim()]. *)
Definition trim (s : string) : string := trimEnd (trimStart s).

(** The last character of [s], when there is one. *)
Fixpoint lastChar (s : string) : option ascii :=
  match s with
  | EmptyString => None
  | String a EmptyString => Some a
  | String _ s' => lastChar s'
  end.

(** [s] without its last character. *)
Fixpoint dropLast (s : string) : string :=
  match s with
  | EmptyString => EmptyString
  | String _ EmptyString => EmptyString
  | String a s' => String a (dropLast s')
  end.

(** [s.startsWith(q) && s.endsWith(q)] for a one-character [q]. *)
Definition delimitedBy (q : ascii) (s : string) : bool :=
  match s, lastChar s with
  | String a _, Some b => (a =? q)%char && (b =? q)%char
  | _, _ => false
  end.

(** [s.slice(1, -1)]. *)
Definition slice1m1 (s : string) : string :=
  match s with
  | EmptyString => EmptyString
  | String _ s' => dropLast s'
  end.

(** [s.split(sep)] for a one-character separator: never empty. *)
Fixpoint split (sep : ascii) (s : string) : list string :=
  match s with
  | EmptyString => [EmptyString]
  | String a s' =>
      if (a =? sep)%char then EmptyString :: split sep s'
      else match split sep s' with
           | [] => [String a EmptyString]
           | p :: ps => String a p :: ps
           end
  end.

(** [parts.join(sep)]. *)
Fixpoint join (sep : string) (parts : list string) : string :=
  match parts with
  | [] => EmptyString
  | [p] => p
  | p :: ps => p ++ sep ++ join sep ps
  end.

(** [parseInt(s, 10)] on a string of digits. *)
Definition parseDigits (s : string) : nat :=
  (fix go (acc : nat) (s : string) : nat :=
     match s with
     | EmptyString => acc
     | String a s' => go (10 * acc + (nat_of_ascii a - 48)) s'
     end) 0 s.

End JsString.

(* ================================================================== *)
(** ** The fragment of regular expressions that [matchesWildcard] builds *)

Module RegExp.
Import JsString.

Inductive atom : Type :=
| AChar (c : ascii)   (* a literal character, escaped or not *)
| ADot.               (* [.]: any character but a line terminator *)

Inductive quant : Type :=
| QOne                (* no quantifier *)
| QOpt                (* [?] or [??] *)
| QStar.              (* [*] or [*?] *)

Inductive term : Type :=
| TBegin              (* [^] *)
| TEnd                (* [$] *)
| TAtom (a : atom) (q : quant).

(** What [new RegExp(source)] does with [source]. *)
Inductive compiled : Type :=
| Regex (ts : list term)
| SyntaxError         (* the constructor throws *)
| Unmodelled.         (* a construct outside the fragment: groups, classes,
                         alternation, [+], braces, class escapes *)

Inductive charClass : Type :=
| CBackslash | CCaret | CDollar | CDot | CStar | CQuestion
| COtherSyntax        (* + ( ) [ ] { } | *)
| CLiteral.

Definition classify (c : ascii) : charClass :=
  if (c =? "\")%char then CBackslash
  else if (c =? "^")%char then CCaret
  else if (c =? "$")%char then CDollar
  else if (c =? ".")%char then CDot
  else if (c =? "*")%char then CStar
  else if (c =? "?")%char then CQuestion
  else if (c =? "+")%char || (c =? "(")%char || (c =? ")")%char ||
          (c =? "[")%char || (c =? "]")%char || (c =? "{")%char ||
          (c =? "}")%char || (c =? "|")%char then COtherSyntax
  else CLiteral.

(** Where the parser stands with respect to quantifiers. *)
Inductive pstate : Type :=
| PStart    (* nothing to repeat: start, after an assertion, after [x*?] *)
| PAtom     (* the last term is an atom without quantifier *)
| PQuant    (* the last term carries a quantifier; [?] makes it lazy *)
| PEscape.  (* a backslash was read *)

(** The last term receives quantifier [q]. *)
Definition quantify (q : quant) (acc : list term) : list term :=
  match acc with
  | TAtom a _ :: acc' => TAtom a q :: acc'
  | _ => acc
  end.

(** The parser reads one character at a time; [acc] holds the terms read
    so far, last first.  Laziness does not change whether an anchored
    pattern matches, so [x*?] and [x??] are kept as [x*] and [x?]. *)
Fixpoint parse (st : pstate) (acc : list term) (s : string) : compiled :=
  match s with
  | EmptyString =>
      match st with
      | PEscape => SyntaxError          (* \ at end of pattern *)
      | _ => Regex (rev acc)
      end
  | String c s' =>
      match st with
      | PEscape =>
          match classify c with
          | CLiteral => Unmodelled      (* \d, \s, \b, \1, ... *)
          | _ => parse PAtom (TAtom (AChar c) QOne :: acc) s'
          end
      | _ =>
          match classify c with
          | CBackslash => parse PEscape acc s'
          | CCaret => parse PStart (TBegin :: acc) s'
          | CDollar => parse PStart (TEnd :: acc) s'
          | CDot => parse PAtom (TAtom ADot QOne :: acc) s'
          | CStar =>
              match st with
              | PAtom => parse PQuant (quantify QStar acc) s'
              | _ => SyntaxError        (* nothing to repeat *)
              end
          | CQuestion =>
              match st with
              | PAtom => parse PQuant (quantify QOpt acc) s'
              | PQuant => parse PStart acc s'
              | _ => SyntaxError        (* nothing to repeat *)
              end
          | COtherSyntax => Unmodelled
          | CLiteral => parse PAtom (TAtom (AChar c) QOne :: acc) s'
          end
      end
  end.

(** [new RegExp(source)]. *)
Definition compile (source : string) : compiled := parse PStart [] source.

Definition atomMatches (a : atom) (c : ascii) : bool :=
  match a with
  | AChar x => (c =? x)%char
  | ADot => negb (isLineTerminator c)
  end.

(** [matchHere ts atStart v]: the terms match a prefix of [v]; [atStart]
    says that [v] is the whole input. *)
Fixpoint matchHere (ts : list term) : bool -> string -> bool :=
  match ts with
  | [] => fun _ _ => true
  | TBegin :: ts' => fun atStart v => atStart && matchHere ts' atStart v
  | TEnd :: ts' =>
      fun atStart v =>
        match v with
        | EmptyString => matchHere ts' atStart v
        | String _ _ => false
        end
  | TAtom a QOne :: ts' =>
      fun _ v =>
        match v with
        | EmptyString => false
        | String c v' => atomMatches a c && matchHere ts' false v'
        end
  | TAtom a QOpt :: ts' =>
      fun atStart v =>
        match v with
        | EmptyString => matchHere ts' atStart v
        | String c v' =>
            (atomMatches a c && matchHere ts' false v') ||
            matchHere ts' atStart v
        end
  | TAtom a QStar :: ts' =>
      fix star (atStart : bool) (v : string) : bool :=
        match v with
        | EmptyString => matchHere ts' atStart v
        | String c v' =>
            (atomMatches a c && star false v') || matchHere ts' atStart v
        end
  end.

(** A match starting after the first character of the input. *)
Fixpoint matchLater (ts : list term) (v : string) : bool :=
  match v with
  | EmptyString => false
  | String _ v' => matchHere ts false v' || matchLater ts v'
  end.

(** [regex.test(value)]: a match starting anywhere in [value]. *)
Definition test (ts : list term) (value : string) : bool :=
  matchHere ts true value || matchLater ts value.

End RegExp.

(* ================================================================== *)
(** ** JSON values and JavaScript numbers *)

Module Json.
Import JsString.

(** What the program asks of JavaScript numbers (IEEE doubles). *)
Class JsNumber (number : Type) : Type := {
  numberToString : number -> string;  (* [String(n)] *)
  parseFloat : string -> number;      (* [parseFloat(s)] *)
  numberOfNat : nat -> number         (* an array length, a clock reading *)
}.

(** A JSON document; an object lists its own properties in property
    order.  Members inherited from [Object.prototype] and
    [Array.prototype] are not JSON data and stay outside the model. *)
#[warnings="-register-all"]
Inductive value (number : Type) : Type :=
| VNull
| VBool (b : bool)
| VNum (n : number)
| VStr (s : string)
| VArr (items : list (value number))
| VObj (fields : list (string * value number)).

Arguments VNull {number}.
Arguments VBool {number} b.
Arguments VNum {number} n.
Arguments VStr {number} s.
Arguments VArr {number} items.
Arguments VObj {number} fields.

(** The decimal numeral of a natural number. *)
Definition decimal (n : nat) : string :=
  NilZero.string_of_uint (Nat.to_uint n).

Section Values.
Context {number : Type} {NumberOps : JsNumber number}.

(** [obj[key]] on the own properties of a plain object. *)
Fixpoint lookup (key : string) (fields : list (string * value number))
    : option (value number) :=
  match fields with
  | [] => None
  | (k, v) :: rest => if (k =? key)%string then Some v else lookup key rest
  end.

(** The own property [key] defined or redefined in place. *)
Fixpoint setField (key : string) (v : value number)
    (fields : list (string * value number)) : list (string * value number) :=
  match fields with
  | [] => [(key, v)]
  | (k, old) :: rest =>
      if (k =? key)%string then (k, v) :: rest
      else (k, old) :: setField key v rest
  end.

(** [result[key] = v] on a plain object: the key [__proto__] reaches the
    setter of [Object.prototype] and creates no own property. *)
Definition assign (key : string) (v : value number)
    (fields : list (string * value number)) : list (string * value number) :=
  if (key =? "__proto__")%string then fields else setField key v fields.

(** The own properties that [{...v}] copies. *)
Definition spread (v : value number) : list (string * value number) :=
  match v with
  | VObj fields => fields
  | VArr items =>
      combine (map decimal (seq 0 (List.length items))) items
  | VStr s =>
      combine (map decimal (seq 0 (String.length s)))
              (map (fun c => VStr (String c EmptyString))
                   (list_ascii_of_string s))
  | _ => []
  end.

(** [String(v)]. *)
Fixpoint toString (v : value number) : string :=
  match v with
  | VNull => "null"
  | VBool true => "true"
  | VBool false => "false"
  | VNum n => numberToString n
  | VStr s => s
  | VArr items =>
      join ","
        (map (fun x => match x with VNull => EmptyString | _ => toString x end)
             items)
  | VObj _ => "[object Object]"
  end.

End Values.

(** Numbers carried by their canonical decimal rendering.  The instance
    agrees with IEEE doubles on decimal literals of at most 15 significant
    digits whose magnitude lies between 1e-6 and 1e21. *)
Module DecimalNumbers.

Definition isZero (c : ascii) : bool := (c =? "0")%char.

Fixpoint stripTrailingZeros (s : string) : string :=
  match s with
  | EmptyString => EmptyString
  | String a s' =>
      match stripTrailingZeros s' with
      | EmptyString => if isZero a then EmptyString else String a EmptyString
      | t => String a t
      end
  end.

Definition magnitude (body : string) : string :=
  let int := takeWhile isDigit body in
  let frac :=
    match dropWhile isDigit body with
    | String "." f => stripTrailingZeros (takeWhile isDigit f)
    | _ => EmptyString
    end in
  let int' :=
    match dropWhile isZero int with
    | EmptyString => "0"
    | t => t
    end in
  match int, frac with
  | EmptyString, _ => "NaN"
  | _, EmptyString => int'
  | _, _ => int' ++ "." ++ frac
  end.

Definition parse (s : string) : string :=
  match s with
  | String "-" body =>
      let m := magnitude body in
      if (m =? "0")%string || (m =? "NaN")%string then m else "-" ++ m
  | _ => magnitude s
  end.

#[export] Instance canonicalNumber : JsNumber string := {
  numberToString := fun n => n;
  parseFloat := parse;
  numberOfNat := decimal
}.

End DecimalNumbers.

End Json.

(* ================================================================== *)
(** ** Routes and requests (routes.json, the Express request) *)

Module Config.
Import Json.

(** The [auth] block of a route. *)
Record AuthConfig : Type := {
  auth_type : option string;
  origins : option (list string);
  key : option string;
  allowed_ips : option (list string)
}.

(** One entry of [routes.json]; [None] is an absent field. *)
Record Route : Type := {
  name : option string;
  event_match : string;
  target_url : string;
  methods : option (list string);
  template : option string;
  auth : option AuthConfig;
  priority : option Z;
  multi : option bool;
  fallback : option bool;
  headers : list (string * string)
}.

(** Truthiness of an optional boolean field. *)
Definition flag (f : option bool) : bool :=
  match f with
  | Some true => true
  | _ => false
  end.

(** Truthiness of an optional string field. *)
Definition nonEmpty (s : option string) : bool :=
  match s with
  | Some (String _ _) => true
  | _ => false
  end.

(** The part of the Express request that the gateway reads. *)
Record Request (number : Type) : Type := {
  method : string;
  req_headers : list (string * string);   (* names in lower case *)
  body : value number;                    (* the parsed JSON body *)
  query : list (string * string);         (* the parsed query string *)
  connectionAddress : option string;      (* [req.connection.remoteAddress] *)
  socketAddress : option string           (* [req.socket.remoteAddress] *)
}.

Arguments method {number} r.
Arguments req_headers {number} r.
Arguments body {number} r.
Arguments query {number} r.
Arguments connectionAddress {number} r.
Arguments socketAddress {number} r.

(** [req.headers[name]]. *)
Fixpoint header (name : string) (hs : list (string * string)) : option string :=
  match hs with
  | [] => None
  | (k, v) :: rest => if (k =? name)%string then Some v else header name rest
  end.

End Config.

(* ================================================================== *)
(** ** src/utils.js *)

Module Utils.
Import JsString RegExp Json Config.

(** The class [[.+^${}()|[\]\\]] of the first [replace]. *)
Definition isEscaped (c : ascii) : bool :=
  (c =? ".")%char || (c =? "+")%char || (c =? "^")%char ||
  (c =? "$")%char || (c =? "{")%char || (c =? "}")%char ||
  (c =? "(")%char || (c =? ")")%char || (c =? "|")%char ||
  (c =? "[")%char || (c =? "]")%char || (c =? "\")%char.

(** [.replace(/[.+^${}()|[\]\\]/g, '\\$&')]: a backslash before every
    character of the class. *)
Fixpoint escapeSpecials (s : string) : string :=
  match s with
  | EmptyString => EmptyString
  | String c s' =>
      if isEscaped c then String "\" (String c (escapeSpecials s'))
      else String c (escapeSpecials s')
  end.

(** [.replace(/\*/g, '.*')]. *)
Fixpoint expandStars (s : string) : string :=
  match s with
  | EmptyString => EmptyString
  | String c s' =>
      if (c =? "*")%char then String "." (String "*" (expandStars s'))
      else String c (expandStars s')
  end.

(** The source text handed to [new RegExp]. *)
Definition regexSource (pattern : string) : string :=
  "^" ++ expandStars (escapeSpecials pattern) ++ "$".

(** [matchesWildcard(pattern, value)]; [None] when [new RegExp] throws. *)
Definition matchesWildcard (pattern value : string) : option bool :=
  if (pattern =? "*")%string then Some true
  else if negb (includesChar "*" pattern) then Some (pattern =? value)%string
  else match compile (regexSource pattern) with
       | Regex ts => Some (test ts value)
       | _ => None
       end.

(** Anchored glob matching: [*] stands for zero or more characters that
    satisfy [any], every other character stands for itself. *)
Fixpoint globMatch (any : ascii -> bool) (p : string) : string -> bool :=
  match p with
  | EmptyString =>
      fun v => match v with EmptyString => true | String _ _ => false end
  | String c p' =>
      if (c =? "*")%char then
        fix star (v : string) : bool :=
          match v with
          | EmptyString => globMatch any p' v
          | String a v' => (any a && star v') || globMatch any p' v
          end
      else
        fun v =>
          match v with
          | EmptyString => false
          | String a v' => (a =? c)%char && globMatch any p' v'
          end
  end.

(** The matcher as section 4.3 of the specification words it: every
    metacharacter but [*] escaped, [*] for zero or more of any character,
    the whole pattern anchored. *)
Definition specMatches (pattern value : string) : bool :=
  if (pattern =? "*")%string then true
  else if negb (includesChar "*" pattern) then (pattern =? value)%string
  else globMatch (fun _ => true) pattern value.

(** What the code does on a pattern without [?]: [*] stops at line
    terminators. *)
Definition codeMatches (pattern value : string) : bool :=
  if (pattern =? "*")%string then true
  else if negb (includesChar "*" pattern) then (pattern =? value)%string
  else globMatch (fun c => negb (isLineTerminator c)) pattern value.

(** *** sortRoutesByPriority *)

(** The values a comparator returns: integers and what [Infinity] makes
    of them. *)
Inductive num : Type :=
| NegInfinity
| Finite (z : Z)
| Infinity
| NaN.

(** [a !== b] negated. *)
Definition numEqb (a b : num) : bool :=
  match a, b with
  | Finite x, Finite y => (x =? y)%Z
  | Infinity, Infinity => true
  | NegInfinity, NegInfinity => true
  | _, _ => false
  end.

(** [a - b]. *)
Definition numSub (a b : num) : num :=
  match a, b with
  | NaN, _ | _, NaN => NaN
  | Finite x, Finite y => Finite (x - y)
  | Infinity, Infinity => NaN
  | NegInfinity, NegInfinity => NaN
  | Infinity, _ => Infinity
  | NegInfinity, _ => NegInfinity
  | Finite _, Infinity => NegInfinity
  | Finite _, NegInfinity => Infinity
  end.

(** [n > 0]. *)
Definition positive (n : num) : bool :=
  match n with
  | Finite z => (0 <? z)%Z
  | Infinity => true
  | _ => false
  end.

Section Sort.
Variable A : Type.
Variable compareFn : A -> A -> num.

(** [x] goes behind every [y] with [compareFn x y > 0]. *)
Fixpoint insertSorted (x : A) (l : list A) : list A :=
  match l with
  | [] => [x]
  | y :: l' =>
      if positive (compareFn x y) then y :: insertSorted x l'
      else x :: y :: l'
  end.

(** [Array.prototype.sort(compareFn)], a stable sort, as insertion sort.
    The comparator of [sortRoutesByPriority] leaves no two elements
    tied, so any sorting algorithm returns the same array. *)
Fixpoint sortBy (l : list A) : list A :=
  match l with
  | [] => []
  | x :: l' => insertSorted x (sortBy l')
  end.

End Sort.

Arguments insertSorted {A} compareFn x l.
Arguments sortBy {A} compareFn l.

(** [{ ...route, _originalIndex: index }]. *)
Record IndexedRoute : Type := {
  entry : Route;
  originalIndex : nat
}.

(** [routes.map((route, index) => ...)]. *)
Definition withIndex (routes : list Route) : list IndexedRoute :=
  map (fun ir => {| entry := snd ir; originalIndex := fst ir |})
      (combine (seq 0 (List.length routes)) routes).

(** [priority !== undefined ? priority : Infinity]. *)
Definition priorityOrInfinity (r : Route) : num :=
  match priority r with
  | Some p => Finite p
  | None => Infinity
  end.

(** The comparator of [sortRoutesByPriority]. *)
Definition compareRoutes (a b : IndexedRoute) : num :=
  let priorityA := priorityOrInfinity (entry a) in
  let priorityB := priorityOrInfinity (entry b) in
  if negb (numEqb priorityA priorityB) then numSub priorityA priorityB
  else Finite (Z.of_nat (originalIndex a) - Z.of_nat (originalIndex b)).

Definition sortRoutesByPriority (routes : list Route) : list Route :=
  map entry (sortBy compareRoutes (withIndex routes)).

(** *** Payloads and request metadata *)

Section Payloads.
Context {number : Type} {NumberOps : JsNumber number}.

(** [isValidGA4Payload(payload)]: an object whose [events] is a non-empty
    array, whose first element has a string [name].  Only an object has
    own properties [events] and [name]. *)
Definition isValidGA4Payload (payload : value number) : bool :=
  match payload with
  | VObj fields =>
      match lookup "events" fields with
      | Some (VArr (VObj first :: _)) =>
          match lookup "name" first with
          | Some (VStr _) => true
          | _ => false
          end
      | _ => false
      end
  | _ => false
  end.

(** [getEventName(payload)]; [None] is [null]. *)
Definition getEventName (payload : value number) : option string :=
  if isValidGA4Payload payload then
    match payload with
    | VObj fields =>
        match lookup "events" fields with
        | Some (VArr (VObj first :: _)) =>
            match lookup "name" first with
            | Some (VStr n) => Some n
            | _ => None
            end
        | _ => None
        end
    | _ => None
    end
  else None.

(** [a || b] on optional strings. *)
Definition orElse (a : option string) (b : string) : string :=
  match a with
  | Some (String c s) => String c s
  | _ => b
  end.

Definition getClientIP (req : Request number) : string :=
  match header "x-forwarded-for" (req_headers req) with
  | Some (String c s) =>
      match split "," (String c s) with
      | first :: _ => trim first
      | [] => EmptyString
      end
  | _ =>
      orElse (connectionAddress req) (orElse (socketAddress req) "unknown")
  end.

(** [createRequestMeta(req)]; [now] is the clock reading in seconds. *)
Definition createRequestMeta (req : Request number) (now : number)
  : value number :=
  VObj [ ("ip", VStr (getClientIP req));
         ("user_agent", VStr (orElse (header "user-agent" (req_headers req)) "unknown"));
         ("timestamp", VNum now) ].

(** [deepClone(obj)]. *)
Fixpoint deepClone (obj : value number) : value number :=
  match obj with
  | VArr items => VArr (map deepClone items)
  | VObj fields =>
      VObj ((fix copy (fs acc : list (string * value number)) :=
               match fs with
               | [] => acc
               | (k, v) :: rest => copy rest (assign k (deepClone v) acc)
               end) fields [])
  | _ => obj
  end.

End Payloads.

End Utils.

(* ================================================================== *)
(** ** src/auth.js *)

Module Auth.
Import JsString Json Config Utils.

Record AuthResult : Type := {
  auth_success : bool;
  auth_error : option string
}.

Definition granted : AuthResult :=
  {| auth_success := true; auth_error := None |}.

Definition denied (message : string) : AuthResult :=
  {| auth_success := false; auth_error := Some message |}.

(** [list.includes(s)]. *)
Definition includesString (s : string) (l : list string) : bool :=
  existsb (fun x => (x =? s)%string) l.

Section Strategies.
Context {number : Type} {NumberOps : JsNumber number}.

Definition authenticateOriginWhitelist (req : Request number)
    (authConfig : AuthConfig) : AuthResult :=
  match header "origin" (req_headers req) with
  | Some (String c o) =>
      let origin := String c o in
      match origins authConfig with
      | None => denied "Invalid origins configuration for whitelist authentication"
      | Some allowed =>
          if includesString origin allowed then granted
          else denied ("Origin " ++ origin ++ " not in whitelist")%string
      end
  | _ => denied "Missing Origin header for whitelist authentication"
  end.

Definition authenticateApiKey (req : Request number)
    (authConfig : AuthConfig) : AuthResult :=
  match header "x-api-key" (req_headers req) with
  | Some (String c k) =>
      let providedKey := String c k in
      match key authConfig with
      | Some (String c' k') =>
          if (providedKey =? String c' k')%string then granted
          else denied "Invalid API key"
      | _ => denied "Invalid key configuration for API key authentication"
      end
  | _ => denied "Missing x-api-key header for API key authentication"
  end.

Definition authenticateIPWhitelist (req : Request number)
    (authConfig : AuthConfig) : AuthResult :=
  let clientIP := getClientIP req in
  match allowed_ips authConfig with
  | None =>
      denied "Invalid allowed_ips configuration for IP whitelist authentication"
  | Some allowed =>
      if includesString clientIP allowed then granted
      else denied ("IP address " ++ clientIP ++ " not in whitelist")%string
  end.

(** [authenticate(req, authConfig)]: a result, never an exception. *)
Definition authenticate (req : Request number)
    (authConfig : option AuthConfig) : AuthResult :=
  match authConfig with
  | None => denied "Missing authentication configuration"
  | Some cfg =>
      match auth_type cfg with
      | Some (String c t) =>
          let type := String c t in
          if (type =? "whitelist")%string then
            authenticateOriginWhitelist req cfg
          else if (type =? "apikey")%string then
            authenticateApiKey req cfg
          else if (type =? "ip_whitelist")%string then
            authenticateIPWhitelist req cfg
          else denied ("Unknown authentication type: " ++ type)%string
      | _ => denied "Missing authentication configuration"
      end
  end.

End Strategies.

End Auth.

(* ================================================================== *)
(** ** src/template-engine.js *)

Module TemplateEngine.
Import JsString Json.

(** What a call leaves behind: a value, or an exception with its message. *)
Inductive outcome (A : Type) : Type :=
| Returned (a : A)
| Thrown (message : string).

Arguments Returned {A} a.
Arguments Thrown {A} message.

(** The marker that [resolveTokenExpression] returns for a missing value. *)
Definition MISSING_VALUE : string := "__MISSING_VALUE__".

(** *** The token pattern [/\{\{([^}]+)\}\}/g] *)

Definition notClosingBrace (c : ascii) : bool := negb (c =? "}")%char.

(** The pattern tried at the start of [s]: two opening braces, the longest
    run of characters other than a closing brace, which must not be empty,
    and two closing braces.  The result is the captured group. *)
Definition matchToken (s : string) : option string :=
  match s with
  | String "{" (String "{" rest) =>
      match takeWhile notClosingBrace rest with
      | EmptyString => None
      | inner =>
          if startsWith "}}" (dropWhile notClosingBrace rest) then Some inner
          else None
      end
  | _ => None
  end.

(** A string cut by the global pattern: the matches, and the characters
    between them. *)
Inductive segment : Type :=
| Lit (c : ascii)
| Token (expression : string).

(** The scan of [String.prototype.replace], left to right; [skip] counts the
    characters of the last match that are still to be passed over. *)
Fixpoint segmentsFrom (skip : nat) (s : string) : list segment :=
  match s with
  | EmptyString => []
  | String c s' =>
      match skip with
      | S k => segmentsFrom k s'
      | O =>
          match matchToken s with
          | Some inner => Token inner :: segmentsFrom (String.length inner + 3) s'
          | None => Lit c :: segmentsFrom 0 s'
          end
      end
  end.

Definition segments (s : string) : list segment := segmentsFrom 0 s.

(** [str.replace(tokenRegex, fn)]: what a replacer function returns is
    inserted as it is. *)
Fixpoint substitute (fn : string -> string) (segs : list segment) : string :=
  match segs with
  | [] => EmptyString
  | Lit c :: rest => String c (substitute fn rest)
  | Token e :: rest => (fn e ++ substitute fn rest)%string
  end.

Fixpoint hasToken (segs : list segment) : bool :=
  match segs with
  | [] => false
  | Lit _ :: rest => hasToken rest
  | Token _ :: _ => true
  end.

(** *** The fallback pattern [/^(.+?)\s*\|\|\s*(.+)$/] *)

Definition notLineTerminator (c : ascii) : bool := negb (isLineTerminator c).

Definition dropTwo (s : string) : string :=
  match s with
  | String _ (String _ rest) => rest
  | _ => EmptyString
  end.

(** [\s*\|\|\s*(.+)$] at the start of [rest]; the result is the second
    group.  The first [\s*] must stop at the bars.  The second takes all the
    white space, and gives one character back only when nothing follows it;
    the group takes the remainder, which [.] forbids to hold a line
    terminator. *)
Definition matchFallbackTail (rest : string) : option string :=
  let r1 := dropWhile isWhiteSpace rest in
  if startsWith "||" r1 then
    let r2 := dropTwo r1 in
    match dropWhile isWhiteSpace r2 with
    | EmptyString =>
        match lastChar r2 with
        | Some c => if isLineTerminator c then None
                    else Some (String c EmptyString)
        | None => None
        end
    | r3 => if allChars notLineTerminator r3 then Some r3 else None
    end
  else None.

(** The lazy first group grows one character at a time, until the tail
    matches; [main] is the group so far. *)
Fixpoint fallbackFrom (main rest : string) : option (string * string) :=
  match rest with
  | EmptyString => None
  | String c rest' =>
      if isLineTerminator c then None
      else
        let main' := (main ++ String c EmptyString)%string in
        match matchFallbackTail rest' with
        | Some fallbackValue => Some (main', fallbackValue)
        | None => fallbackFrom main' rest'
        end
  end.

(** [expression.match(/^(.+?)\s*\|\|\s*(.+)$/)]: the two groups. *)
Definition fallbackMatch (expression : string) : option (string * string) :=
  fallbackFrom EmptyString expression.

(** [/^\d+$/.test(s)]. *)
Definition isIndex (s : string) : bool :=
  match s with
  | EmptyString => false
  | _ => allChars isDigit s
  end.

(** [/^-?\d+(\.\d+)?$/.test(s)]. *)
Definition isNumericLiteral (s : string) : bool :=
  let unsigned := match s with String "-" t => t | _ => s end in
  let int := takeWhile isDigit unsigned in
  match int, dropWhile isDigit unsigned with
  | EmptyString, _ => false
  | _, EmptyString => true
  | _, String "." frac => isIndex frac
  | _, _ => false
  end.

Section Engine.
Context {number : Type} {NumberOps : JsNumber number}.

(** *** getValueByPath *)

(** [current[part]] on an array, for a [part] that is not all digits: the
    own property [length]. *)
Definition arrayProperty (items : list (value number)) (part : string)
  : option (value number) :=
  if (part =? "length")%string then
    Some (VNum (numberOfNat (List.length items)))
  else None.

(** The loop of [getValueByPath]; [None] is [undefined]. *)
Fixpoint walk (parts : list string) (current : option (value number))
  : option (value number) :=
  match parts with
  | [] => current
  | part :: rest =>
      match current with
      | None => None
      | Some VNull => None
      | Some (VArr items) =>
          if isIndex part then walk rest (nth_error items (parseDigits part))
          else walk rest (arrayProperty items part)
      | Some (VObj fields) => walk rest (lookup part fields)
      | Some _ => None
      end
  end.

Definition getValueByPath (path : string) (context : value number)
  : option (value number) :=
  walk (split "." path) (Some context).

(** *** processFallbackValue *)

Definition processFallbackValue (fallbackValue : string)
    (context : value number) : option (value number) :=
  if delimitedBy "'" fallbackValue || delimitedBy "034" fallbackValue then
    Some (VStr (slice1m1 fallbackValue))
  else if (fallbackValue =? "null")%string then Some VNull
  else if (fallbackValue =? "true")%string then Some (VBool true)
  else if (fallbackValue =? "false")%string then Some (VBool false)
  else if isNumericLiteral fallbackValue then
    Some (VNum (parseFloat fallbackValue))
  else getValueByPath fallbackValue context.

(** *** resolveTokenExpression *)

Definition resolveTokenExpression (expression : string)
    (context : value number) : string :=
  match fallbackMatch expression with
  | Some (mainPath, fallbackValue) =>
      match getValueByPath (trim mainPath) context with
      | Some mainValue => toString mainValue
      | None =>
          match processFallbackValue (trim fallbackValue) context with
          | Some fallback => toString fallback
          | None => MISSING_VALUE
          end
      end
  | None =>
      match getValueByPath expression context with
      | Some v => toString v
      | None => MISSING_VALUE
      end
  end.

(** *** resolveStringTokens *)

(** The string after the [replace]. *)
Definition resolvedString (str : string) (context : value number) : string :=
  substitute (fun e => resolveTokenExpression (trim e) context) (segments str).

(** [None] is [undefined]. *)
Definition resolveStringTokens (str : string) (context : value number)
  : option string :=
  if negb (hasToken (segments str)) then Some str
  else if includes MISSING_VALUE (resolvedString str context) then None
  else Some (resolvedString str context).

(** *** resolveTokens *)

Section Containers.
Variable resolve : value number -> option (value number).

(** The loop over an array: what resolves to [undefined] is not pushed. *)
Fixpoint resolveItems (items : list (value number)) : list (value number) :=
  match items with
  | [] => []
  | item :: rest =>
      match resolve item with
      | Some resolved => resolved :: resolveItems rest
      | None => resolveItems rest
      end
  end.

(** The loop over [Object.entries(obj)]: what resolves to [undefined] is
    not assigned; [result] is the object built so far. *)
Fixpoint resolveFields (fields result : list (string * value number))
  : list (string * value number) :=
  match fields with
  | [] => result
  | (key, v) :: rest =>
      match resolve v with
      | Some resolved => resolveFields rest (assign key resolved result)
      | None => resolveFields rest result
      end
  end.

End Containers.

(** [None] is [undefined]. *)
Fixpoint resolveTokens (obj : value number) (context : value number)
  : option (value number) :=
  match obj with
  | VStr s => option_map VStr (resolveStringTokens s context)
  | VArr items =>
      Some (VArr (resolveItems (fun item => resolveTokens item context) items))
  | VObj fields =>
      Some (VObj (resolveFields (fun v => resolveTokens v context) fields []))
  | _ => Some obj
  end.

(** *** loadTemplate, processTemplate *)

(** What the templates directory holds under a path. *)
Inductive templateFile : Type :=
| Absent                                    (* no such file *)
| Unreadable (reason : string)              (* unreadable, or not JSON *)
| Document (template : value number).

(** [files] is the templates directory.  The files do not change while the
    gateway runs, so the cache returns what a fresh read would. *)
Definition loadTemplate (files : string -> templateFile)
    (templatePath : string) : outcome (value number) :=
  match files templatePath with
  | Absent => Thrown ("Template file not found: " ++ templatePath)%string
  | Unreadable reason =>
      Thrown ("Failed to load template " ++ templatePath ++ ": " ++ reason)%string
  | Document template => Returned template
  end.

(** [{ ...payload, meta }]. *)
Definition contextOf (payload meta : value number) : value number :=
  VObj (setField "meta" meta (spread payload)).

Definition processTemplate (files : string -> templateFile)
    (templatePath : string) (payload meta : value number)
  : outcome (option (value number)) :=
  match loadTemplate files templatePath with
  | Returned template => Returned (resolveTokens template (contextOf payload meta))
  | Thrown message => Thrown message
  end.

End Engine.

Arguments templateFile number : clear implicits.

End TemplateEngine.

(* ================================================================== *)
(** ** src/router.js *)

Module Router.
Import JsString Json Config Utils Auth TemplateEngine.

(** What [executeRoute] returns. *)
Record ExecResult : Type := {
  success : bool;
  error : option string;
  route : option string;
  status : option nat
}.

(** What [sendToTarget] returns. *)
Record HttpResult : Type := {
  http_success : bool;
  http_status : option nat;
  http_error : option string;
  http_errorCode : option string
}.

(** How a call of [axios.post] ends. *)
Inductive PostOutcome : Type :=
| Responded (statusCode : nat) (statusText : string)
| Aborted                              (* [error.code === 'ECONNABORTED'] *)
| NoResponse (code : option string)    (* sent, nothing came back *)
| NotSent (message : string) (code : option string).

(** The body of the response of the gateway. *)
Inductive Body : Type :=
| SuccessBody (processed : nat)        (* [{status: 'success', processed}] *)
| FallbackSuccessBody                  (* [... processed: 1, fallback: true] *)
| UnmatchedBody (event : option string)
| ErrorBody (message : string).

Record Response : Type := {
  statusCode : nat;
  allowHeader : option string;
  responseBody : Body
}.

Definition respond (code : nat) (b : Body) : Response :=
  {| statusCode := code; allowHeader := None; responseBody := b |}.

(** The router after [initialize]. *)
Record RouterState : Type := {
  routes : list Route;
  fallbackRoute : option Route
}.

(** [initialize()], from the routes of the configuration. *)
Definition initialize (allRoutes : list Route) : RouterState :=
  {| routes :=
       sortRoutesByPriority (filter (fun r => negb (flag (fallback r))) allRoutes);
     fallbackRoute := hd_error (filter (fun r => flag (fallback r)) allRoutes) |}.

(** [route.methods && route.methods.includes(method)]. *)
Definition acceptsMethod (r : Route) (requestMethod : string) : bool :=
  match methods r with
  | Some ms => includesString requestMethod ms
  | None => false
  end.

(** [[...new Set(list)]]: the first occurrence of each element. *)
Fixpoint dedupe (seen l : list string) : list string :=
  match l with
  | [] => []
  | x :: rest =>
      if includesString x seen then dedupe seen rest
      else x :: dedupe (x :: seen) rest
  end.

(** [routes.flatMap(r => r.methods || ['POST'])]. *)
Definition declaredMethods (rs : list Route) : list string :=
  flat_map (fun r => match methods r with Some ms => ms | None => ["POST"] end) rs.

(** [validateRequestMethod(req, routes)]: [None] when valid, the allowed
    methods otherwise. *)
Definition validateRequestMethod (requestMethod : string) (rs : list Route)
  : option (list string) :=
  if existsb (fun r => acceptsMethod r requestMethod) rs then None
  else Some (dedupe [] (declaredMethods rs)).

(** The message of the [SyntaxError] of [new RegExp], as V8 words it. *)
Definition regexErrorMessage (pattern : string) : string :=
  ("Invalid regular expression: /" ++ regexSource pattern ++
   "/: Nothing to repeat")%string.

(** [findMatchingRoutes(eventName, method)]. *)
Fixpoint findMatchingRoutes (rs : list Route) (eventName requestMethod : string)
  : outcome (list Route) :=
  match rs with
  | [] => Returned []
  | r :: rest =>
      match matchesWildcard (event_match r) eventName with
      | None => Thrown (regexErrorMessage (event_match r))
      | Some matched =>
          if matched && acceptsMethod r requestMethod then
            if negb (flag (multi r)) then Returned [r]
            else match findMatchingRoutes rest eventName requestMethod with
                 | Returned more => Returned (r :: more)
                 | Thrown message => Thrown message
                 end
          else findMatchingRoutes rest eventName requestMethod
      end
  end.

(** [{ 'Content-Type': 'application/json', ...route.headers }]. *)
Definition outboundHeaders (r : Route) : list (string * string) :=
  fold_left
    (fun acc kv =>
       (fix set (hs : list (string * string)) : list (string * string) :=
          match hs with
          | [] => [kv]
          | (k, v) :: hs' =>
              if (k =? fst kv)%string then (k, snd kv) :: hs'
              else (k, v) :: set hs'
          end) acc)
    (headers r) [("Content-Type", "application/json")].

(** [`${x}`] of an optional string. *)
Definition interpolate (s : option string) : string :=
  match s with
  | Some x => x
  | None => "undefined"
  end.

Section Dispatch.
Context {number : Type} {NumberOps : JsNumber number}.

(** [config.isDebugLogging()]. *)
Variable debugLogging : bool.
(** The templates directory. *)
Variable files : string -> templateFile number.
(** [normalizeGetPayload(req.query)], of src/utils.js. *)
Variable normalizeGetPayload : list (string * string) -> value number.
(** The network: [axios.post(url, payload, {headers, timeout})] changes
    the world and ends in a [PostOutcome]. *)
Variable world : Type.
Variable axiosPost :
  world -> string -> list (string * string) -> option (value number) ->
  world * PostOutcome.

Definition sendToTarget (r : Route) (payload : option (value number))
    (w : world) : world * HttpResult :=
  let (w', ended) := axiosPost w (target_url r) (outboundHeaders r) payload in
  (w',
   match ended with
   | Responded code text =>
       if (code <? 500)%nat then
         {| http_success := true; http_status := Some code;
            http_error := None; http_errorCode := None |}
       else
         {| http_success := false; http_status := None;
            http_error := Some ("HTTP " ++ decimal code ++ ": " ++ text)%string;
            http_errorCode := Some ("HTTP_" ++ decimal code)%string |}
   | Aborted =>
       {| http_success := false; http_status := None;
          http_error := Some "Request timeout";
          http_errorCode := Some "ECONNABORTED" |}
   | NoResponse code =>
       {| http_success := false; http_status := None;
          http_error := Some "No response from target";
          http_errorCode := Some "NO_RESPONSE" |}
   | NotSent message code =>
       {| http_success := false; http_status := None;
          http_error := Some message; http_errorCode := code |}
   end).

Definition failed (r : Route) (message : option string) : ExecResult :=
  {| success := false; error := message; route := name r; status := None |}.

(** [executeRoute(route, req, payload, meta)]: authenticate, transform,
    forward.  The calls of the loggers leave no trace in the result. *)
Definition executeRoute (r : Route) (req : Request number)
    (payload meta : value number) (w : world) : world * ExecResult :=
  let authResult := authenticate req (auth r) in
  if negb (auth_success authResult) then (w, failed r (auth_error authResult))
  else
    let transformed :=
      match template r with
      | Some (String c t) => processTemplate files (String c t) payload meta
      | _ => Returned (Some (deepClone payload))
      end in
    match transformed with
    | Thrown message => (w, failed r (Some message))
    | Returned transformedPayload =>
        let (w', httpResult) := sendToTarget r transformedPayload w in
        if negb (http_success httpResult) then
          (w', failed r (http_error httpResult))
        else
          (w', {| success := true; error := None; route := name r;
                  status := http_status httpResult |})
    end.

(** [executeRoutes(routes, req, payload, meta)]: one after the other. *)
Fixpoint executeRoutes (rs : list Route) (req : Request number)
    (payload meta : value number) (w : world) : world * list ExecResult :=
  match rs with
  | [] => (w, [])
  | r :: rest =>
      let (w1, result) := executeRoute r req payload meta w in
      let (w2, results) := executeRoutes rest req payload meta w1 in
      (w2, result :: results)
  end.

Definition internalError (message : string) : Response :=
  respond 500
    (ErrorBody (if debugLogging then message else "Internal Server Error")).

(** [handleUnmatchedEvent(req, res, payload, meta)]. *)
Definition handleUnmatchedEvent (st : RouterState) (req : Request number)
    (payload meta : value number) (w : world) : world * Response :=
  let eventName := getEventName payload in
  match fallbackRoute st with
  | Some fb =>
      let (w', result) := executeRoute fb req payload meta w in
      if success result then (w', respond 200 FallbackSuccessBody)
      else
        (w', internalError
               ("Fallback route failed: " ++ interpolate (error result))%string)
  | None => (w, respond 200 (UnmatchedBody eventName))
  end.

(** [results.map(r => r.error).filter(Boolean)]. *)
Fixpoint errorMessages (results : list ExecResult) : list string :=
  match results with
  | [] => []
  | r :: rest =>
      match error r with
      | Some (String c s) => String c s :: errorMessages rest
      | _ => errorMessages rest
      end
  end.

(** [results.filter(r => r.success).length]. *)
Definition successCount (results : list ExecResult) : nat :=
  List.length (filter success results).

(** The response that [processRequest] draws from the results. *)
Definition aggregate (results : list ExecResult) : Response :=
  if (0 <? successCount results)%nat then
    respond 200 (SuccessBody (successCount results))
  else
    internalError
      ("All routes failed: " ++ join ", " (errorMessages results))%string.

(** The payload of a request: the normalized query of a GET, the parsed
    body otherwise. *)
Definition inboundPayload (req : Request number) : value number :=
  if (method req =? "GET")%string then normalizeGetPayload (query req)
  else body req.

(** The routes that the method gate looks at. *)
Definition allRoutes (st : RouterState) : list Route :=
  match fallbackRoute st with
  | Some fb => routes st ++ [fb]
  | None => routes st
  end.

(** [processRequest(req, res)]; [now] is the clock reading that
    [createRequestMeta] takes. *)
Definition processRequest (st : RouterState) (req : Request number)
    (now : number) (w : world) : world * Response :=
  let meta := createRequestMeta req now in
  match validateRequestMethod (method req) (allRoutes st) with
  | Some allowedMethods =>
      (w, {| statusCode := 405;
             allowHeader := Some (join ", " allowedMethods);
             responseBody := ErrorBody "Method Not Allowed" |})
  | None =>
      let payload := inboundPayload req in
      let invalid :=
        respond 400
          (ErrorBody (if debugLogging
                      then "Invalid payload: missing events[0].name"
                      else "Bad Request")) in
      if negb (isValidGA4Payload payload) then (w, invalid)
      else
        match getEventName payload with
        | None => (w, invalid)       (* not null past the validation *)
        | Some eventName =>
            match findMatchingRoutes (routes st) eventName (method req) with
            | Thrown message => (w, internalError message)
            | Returned [] => handleUnmatchedEvent st req payload meta w
            | Returned matchingRoutes =>
                let (w', results) :=
                  executeRoutes matchingRoutes req payload meta w in
                (w', aggregate results)
            end
        end
  end.

End Dispatch.

Arguments sendToTarget {number world} axiosPost r payload w.
Arguments executeRoute {number NumberOps} files {world} axiosPost r req payload meta w.
Arguments executeRoutes {number NumberOps} files {world} axiosPost rs req payload meta w.
Arguments handleUnmatchedEvent {number NumberOps} debugLogging files {world} axiosPost st req payload meta w.
Arguments processRequest {number NumberOps} debugLogging files normalizeGetPayload {world} axiosPost st req now w.

End Router.

(* ================================================================== *)
(** ** The vocabulary of the properties *)

Module UtilsSpec.
Import JsString RegExp Config Utils.

(** The terms of the regular expression built from a pattern. *)
Fixpoint termsOf (p : string) : list term :=
  match p with
  | EmptyString => []
  | String c p' =>
      (if (c =? "*")%char then TAtom ADot QStar else TAtom (AChar c) QOne)
      :: termsOf p'
  end.

(** [a] belongs behind [b]: a larger priority (absent is the largest), or
    the same priority and a later place in the file. *)
Definition after (a b : IndexedRoute) : Prop :=
  match priority (entry a), priority (entry b) with
  | Some x, Some y =>
      (y < x)%Z \/ (x = y /\ originalIndex b < originalIndex a)
  | None, Some _ => True
  | Some _, None => False
  | None, None => originalIndex b < originalIndex a
  end.

(** The order the comparator leaves between [a] and a later [b]. *)
Definition inOrder (a b : IndexedRoute) : Prop :=
  positive (compareRoutes a b) = false.

(** Ascending priority on routes, absent priority being +infinity. *)
Definition priorityLe (a b : Route) : Prop :=
  match priority a, priority b with
  | Some x, Some y => (x <= y)%Z
  | _, None => True
  | None, Some _ => False
  end.

(** The routes whose priority field is [p]. *)
Definition hasPriority (p : option Z) (r : Route) : bool :=
  match priority r, p with
  | Some x, Some y => (x =? y)%Z
  | None, None => true
  | _, _ => false
  end.

(** A route with a name and a priority, and nothing else that is
    optional. *)
Definition namedRoute (n : string) (p : option Z) : Route :=
  {| name := Some n; event_match := "*"; target_url := "https://example.test/hook";
     methods := Some ["POST"]; template := None; auth := None;
     priority := p; multi := None; fallback := None; headers := [] |}.

End UtilsSpec.

Module TemplateSpec.
Import JsString Json TemplateEngine.

(** The last character of a string is no white space. *)
Definition endsClean (s : string) : bool :=
  match lastChar s with
  | Some c => negb (isWhiteSpace c)
  | None => false
  end.

(** The first character of a string is no white space. *)
Definition startsClean (s : string) : bool :=
  match s with
  | String c _ => negb (isWhiteSpace c)
  | EmptyString => false
  end.

(** The forms of a fallback, in the order in which they are tried. *)
Inductive fallbackForm : Type :=
| QuotedString (text : string)   (* starts and ends with one quote mark *)
| NullLiteral
| BooleanLiteral (b : bool)
| NumericLiteral
| PathExpression.

Definition fallbackFormOf (fallbackValue : string) : fallbackForm :=
  if delimitedBy "'" fallbackValue || delimitedBy "034" fallbackValue then
    QuotedString (slice1m1 fallbackValue)
  else if (fallbackValue =? "null")%string then NullLiteral
  else if (fallbackValue =? "true")%string then BooleanLiteral true
  else if (fallbackValue =? "false")%string then BooleanLiteral false
  else if isNumericLiteral fallbackValue then NumericLiteral
  else PathExpression.

Section Engine.
Context {number : Type} {NumberOps : JsNumber number}.


(** The walk of section 4.1 of the specification: an array is indexed by
    an all-digits segment, an object by its key. *)
Inductive reaches : value number -> list string -> value number -> Prop :=
| reaches_here v : reaches v [] v
| reaches_index items part rest x r :
    isIndex part = true ->
    nth_error items (parseDigits part) = Some x ->
    reaches x rest r ->
    reaches (VArr items) (part :: rest) r
| reaches_key fields part rest x r :
    lookup part fields = Some x ->
    reaches x rest r ->
    reaches (VObj fields) (part :: rest) r.

(** The value of a fallback of a given form. *)
Definition fallbackValueOf (form : fallbackForm) (fallbackValue : string)
    (context : value number) : option (value number) :=
  match form with
  | QuotedString text => Some (VStr text)
  | NullLiteral => Some VNull
  | BooleanLiteral b => Some (VBool b)
  | NumericLiteral => Some (VNum (parseFloat fallbackValue))
  | PathExpression => getValueByPath fallbackValue context
  end.

End Engine.

End TemplateSpec.

Module RouterSpec.
Import JsString Json Config Utils Auth TemplateEngine Router.

(** A route qualifies for an event and a method: its pattern matches the
    event name and its methods hold the method. *)
Definition qualifies (eventName requestMethod : string) (r : Route) : bool :=
  match matchesWildcard (event_match r) eventName with
  | Some true => acceptsMethod r requestMethod
  | _ => false
  end.

(** Routes collected in order, up to and including the first one that
    does not have [multi: true]. *)
Fixpoint stopAfterSingle (qs : list Route) : list Route :=
  match qs with
  | [] => []
  | r :: rest => if flag (multi r) then r :: stopAfterSingle rest else [r]
  end.

Definition isMulti (r : Route) : Prop := flag (multi r) = true.

(** *** Routes and requests of the examples *)

Definition apiKeyAuth : AuthConfig :=
  {| auth_type := Some "apikey"; origins := None;
     key := Some "secret"; allowed_ips := None |}.

(** A route that forwards the payload as it is. *)
Definition passthroughRoute (n pattern url : string)
    (ms : option (list string)) (mu : option bool) : Route :=
  {| name := Some n; event_match := pattern; target_url := url;
     methods := ms; template := None; auth := Some apiKeyAuth;
     priority := None; multi := mu; fallback := None; headers := [] |}.

Definition R1 : Route :=
  passthroughRoute "R1" "purchase" "https://down.example/hook"
    (Some ["POST"]) (Some true).
Definition R2 : Route :=
  passthroughRoute "R2" "purchase*" "https://up.example/hook"
    (Some ["POST"]) (Some false).
Definition R3 : Route :=
  passthroughRoute "R3" "*" "https://up.example/other"
    (Some ["POST"]) (Some true).

(** A route written as the README writes its routes: no [methods]. *)
Definition undeclared : Route :=
  passthroughRoute "undeclared" "purchase" "https://up.example/hook" None None.

Section Requests.
Context {number : Type}.

(** [POST {"events":[{"name": eventName}]}], with the API key. *)
Definition postEvent (eventName : string) : Request number :=
  {| method := "POST";
     req_headers := [("x-api-key", "secret")];
     body := VObj [("events", VArr [VObj [("name", VStr eventName)]])];
     query := [];
     connectionAddress := Some "203.0.113.7";
     socketAddress := None |}.

End Requests.

(** A network in which one host is down; the world is the list of the
    URLs posted to, last first. *)
Definition oneHostDown {number : Type} (w : list string) (url : string)
    (hs : list (string * string)) (payload : option (value number))
  : list string * PostOutcome :=
  (url :: w,
   if (url =? "https://down.example/hook")%string
   then Responded 503 "Service Unavailable"
   else Responded 200 "OK").


(** A table whose patterns all start with [purchase]. *)
Definition purchaseTable : RouterState := initialize [R1; R2].

Definition noTemplates (path : string) : templateFile string := Absent.

Definition noQuery (q : list (string * string)) : value string := VNull.

End RouterSpec.

From Stdlib Require Import DecimalNat.

(* ================================================================== *)
(** ** Shapes of JSON data *)

Module JsonShape.
Import JsString Json.

(** No key twice. *)
Fixpoint distinct (keys : list string) : bool :=
  match keys with
  | [] => true
  | k :: rest => negb (existsb (String.eqb k) rest) && distinct rest
  end.

Section Values.
Context {number : Type}.

(** The objects of a value, at every depth, have distinct keys, none of
    them [reserved].  The keys of an object are distinct in JavaScript; the
    reserved ones are those that a loop over the object treats apart:
    [__proto__] on assignment, [hasOwnProperty] when the loop calls
    [obj.hasOwnProperty]. *)
Fixpoint wellKeyed (reserved : list string) (v : value number) : bool :=
  match v with
  | VArr items => forallb (wellKeyed reserved) items
  | VObj fields =>
      distinct (map fst fields)
      && forallb (fun kv => negb (existsb (String.eqb (fst kv)) reserved)) fields
      && forallb (fun kv => wellKeyed reserved (snd kv)) fields
  | _ => true
  end.

(** No string of the value holds two opening braces in a row. *)
Fixpoint tokenFree (v : value number) : bool :=
  match v with
  | VStr s => negb (includes "{{" s)
  | VArr items => forallb tokenFree items
  | VObj fields => forallb (fun kv => tokenFree (snd kv)) fields
  | _ => true
  end.

End Values.

End JsonShape.

(* ================================================================== *)
(** ** Data that rendering handles as JSON *)

(** A value of JavaScript is more than its JSON: [current[part]] also finds
    the members that an object inherits from [Object.prototype] and an
    array from [Array.prototype], and [String(v)] is a [TypeError] for an
    object whose own key [toString] hides the inherited method.  The
    predicates of this module say when a path, a token or a template keeps
    clear of both, so that the walk reads own properties only and every
    conversion to a string returns. *)
Module Tame.
Import JsString Json JsonShape Config Auth TemplateEngine TemplateSpec.

(** The property names of [Object.prototype]. *)
Definition objectPrototypeMembers : list string :=
  ["constructor"; "__defineGetter__"; "__defineSetter__"; "hasOwnProperty";
   "__lookupGetter__"; "__lookupSetter__"; "isPrototypeOf";
   "propertyIsEnumerable"; "toString"; "valueOf"; "__proto__";
   "toLocaleString"].

(** The property names of [Array.prototype], up to ECMAScript 2023. *)
Definition arrayPrototypeMembers : list string :=
  ["length"; "constructor"; "at"; "concat"; "copyWithin"; "fill"; "find";
   "findIndex"; "findLast"; "findLastIndex"; "lastIndexOf"; "pop"; "push";
   "reverse"; "shift"; "unshift"; "slice"; "sort"; "splice"; "includes";
   "indexOf"; "join"; "keys"; "entries"; "values"; "forEach"; "filter";
   "flat"; "flatMap"; "map"; "every"; "some"; "reduce"; "reduceRight";
   "toLocaleString"; "toString"; "toReversed"; "toSorted"; "toSpliced";
   "with"].

(** A name that an object inherits. *)
Definition inheritedByObject (part : string) : bool :=
  existsb (String.eqb part) objectPrototypeMembers.

(** A name that an array inherits, from either prototype. *)
Definition inheritedByArray (part : string) : bool :=
  existsb (String.eqb part) arrayPrototypeMembers || inheritedByObject part.

Section Values.
Context {number : Type} {NumberOps : JsNumber number}.

(** The walk of [getValueByPath] never asks an object or an array for a
    name that it does not have itself and that it inherits. *)
Fixpoint ownWalk (parts : list string) (current : option (value number))
  : bool :=
  match parts with
  | [] => true
  | part :: rest =>
      match current with
      | Some (VArr items) =>
          if isIndex part then
            ownWalk rest (nth_error items (parseDigits part))
          else
            match arrayProperty items part with
            | Some v => ownWalk rest (Some v)
            | None => negb (inheritedByArray part)
            end
      | Some (VObj fields) =>
          match lookup part fields with
          | Some v => ownWalk rest (Some v)
          | None => negb (inheritedByObject part)
          end
      | _ => true
      end
  end.

Definition ownPath (path : string) (context : value number) : bool :=
  ownWalk (split "." path) (Some context).

(** [String(v)] returns: no object that the conversion reaches, the value
    itself or an item of an array, has a key [toString] of its own. *)
Fixpoint stringifiable (v : value number) : bool :=
  match v with
  | VObj fields => negb (existsb (fun kv => (fst kv =? "toString")%string) fields)
  | VArr items => forallb stringifiable items
  | _ => true
  end.

(** The value of an optional result converts to a string. *)
Definition stringifies (result : option (value number)) : bool :=
  match result with
  | Some v => stringifiable v
  | None => true
  end.

(** A fallback that is a path is an own path. *)
Definition ownFallback (fallbackValue : string) (context : value number)
  : bool :=
  match fallbackFormOf fallbackValue with
  | PathExpression => ownPath fallbackValue context
  | _ => true
  end.

(** A token expression, as [resolveTokenExpression] receives it: the
    paths that it looks up are own paths, and the value that it converts
    to a string converts. *)
Definition tameExpression (expression : string) (context : value number)
  : bool :=
  match fallbackMatch expression with
  | Some (mainPath, fallbackValue) =>
      ownPath (trim mainPath) context
      && match getValueByPath (trim mainPath) context with
         | Some mainValue => stringifiable mainValue
         | None =>
             ownFallback (trim fallbackValue) context
             && stringifies (processFallbackValue (trim fallbackValue) context)
         end
  | None =>
      ownPath expression context
      && stringifies (getValueByPath expression context)
  end.

(** Every token of a string leaf is tame. *)
Definition tameLeaf (leaf : string) (context : value number) : bool :=
  forallb (fun seg =>
             match seg with
             | Token expression => tameExpression (trim expression) context
             | Lit _ => true
             end)
          (segments leaf).

(** Every string leaf of a template is tame. *)
Fixpoint tameTemplate (template context : value number) : bool :=
  match template with
  | VStr leaf => tameLeaf leaf context
  | VArr items => forallb (fun item => tameTemplate item context) items
  | VObj fields => forallb (fun kv => tameTemplate (snd kv) context) fields
  | _ => true
  end.

(** The template of a route, when it has one that loads, is tame in the
    context of the payload and the metadata, and no object of it has a key
    [hasOwnProperty], so that the debug log can copy what the route
    sends. *)
Definition tameRoute (files : string -> templateFile number)
    (payload meta : value number) (r : Route) : bool :=
  match template r with
  | Some (String c t) =>
      match files (String c t) with
      | Document document =>
          tameTemplate document (contextOf payload meta)
          && wellKeyed ["hasOwnProperty"] document
      | _ => true
      end
  | _ => true
  end.

(** The token [path || fallback] as the specification reads it: the value
    of the path when it is present, else the value of the fallback, in the
    order of its forms, else missing. *)
Definition specFallbackToken (path fallbackValue : string)
    (context : value number) : string :=
  match getValueByPath path context with
  | Some v => toString v
  | None =>
      match fallbackValueOf (fallbackFormOf fallbackValue) fallbackValue context with
      | Some f => toString f
      | None => MISSING_VALUE
      end
  end.

End Values.

End Tame.

(* ================================================================== *)
(** ** src/router.js: the dry run *)

Module DryRun.
Import JsString Json Config Utils Auth TemplateEngine Router.

(** One entry of [matched_routes]. *)
Inductive Preview (number : Type) : Type :=
| AuthError (route target_url : string) (auth_error : option string)
| Transformed (route target_url : string)
              (transformed_payload : option (value number)).

Arguments AuthError {number} route target_url auth_error.
Arguments Transformed {number} route target_url transformed_payload.

(** The answer of the dry run: the status and the JSON body. *)
Inductive DryResponse (number : Type) : Type :=
| DryMatched (matched_routes : list (Preview number))     (* 200 *)
| DryError (statusCode : nat) (message : string).

Arguments DryMatched {number} matched_routes.
Arguments DryError {number} statusCode message.

Section Dispatch.
Context {number : Type} {NumberOps : JsNumber number}.
Variable debugLogging : bool.
Variable files : string -> templateFile number.

(** The loop of [processDryRun] over the matching routes: a route that
    fails authentication leaves an entry and the loop goes on; what the
    template engine throws leaves the loop. *)
Fixpoint previews (rs : list Route) (req : Request number)
    (payload meta : value number) : outcome (list (Preview number)) :=
  match rs with
  | [] => Returned []
  | r :: rest =>
      let authResult := authenticate req (auth r) in
      if negb (auth_success authResult) then
        match previews rest req payload meta with
        | Returned results =>
            Returned (AuthError (orElse (name r) "unnamed") (target_url r)
                                (auth_error authResult) :: results)
        | Thrown message => Thrown message
        end
      else
        let transformed :=
          match template r with
          | Some (String c t) => processTemplate files (String c t) payload meta
          | _ => Returned (Some (deepClone payload))
          end in
        match transformed with
        | Thrown message => Thrown message
        | Returned transformedPayload =>
            match previews rest req payload meta with
            | Returned results =>
                Returned (Transformed (orElse (name r) "unnamed") (target_url r)
                                      transformedPayload :: results)
            | Thrown message => Thrown message
            end
        end
  end.

(** [processDryRun(req, res)]: the payload is the body of the request,
    whatever its method. *)
Definition processDryRun (st : RouterState) (req : Request number)
    (now : number) : DryResponse number :=
  let meta := createRequestMeta req now in
  let payload := body req in
  let invalid :=
    DryError 400 (if debugLogging
                  then "Invalid payload: missing events[0].name"
                  else "Bad Request") in
  let caught (message : string) :=
    DryError 500 (if debugLogging then message else "Internal Server Error") in
  if negb (isValidGA4Payload payload) then invalid
  else
    match getEventName payload with
    | None => invalid             (* not null past the validation *)
    | Some eventName =>
        match findMatchingRoutes (routes st) eventName (method req) with
        | Thrown message => caught message
        | Returned matchingRoutes =>
            match previews matchingRoutes req payload meta with
            | Returned results => DryMatched results
            | Thrown message => caught message
            end
        end
    end.

End Dispatch.

End DryRun.

(* ================================================================== *)
(** ** src/config.js: the size of the debug log *)

Module ConfigEnv.
Import JsString Json TemplateEngine.

(** The value of a digit in a radix of 10 or 16; [None] for a character
    that is not a digit of the radix. *)
Definition digitValue (radix : Z) (c : ascii) : option Z :=
  let n := Z.of_nat (nat_of_ascii c) in
  if ((48 <=? n) && (n <=? 57))%Z then Some (n - 48)%Z
  else if (radix =? 16)%Z && ((97 <=? n) && (n <=? 102))%Z then Some (n - 87)%Z
  else if (radix =? 16)%Z && ((65 <=? n) && (n <=? 70))%Z then Some (n - 55)%Z
  else None.

(** The digits at the start of a string, read in the radix; [None] when
    the string does not start with a digit. *)
Fixpoint leadingDigits (radix : Z) (acc : option Z) (s : string) : option Z :=
  match s with
  | EmptyString => acc
  | String c rest =>
      match digitValue radix c with
      | Some d =>
          leadingDigits radix
            (Some (radix * match acc with Some a => a | None => 0 end + d)%Z)
            rest
      | None => acc
      end
  end.

(** [parseInt(s)], without a radix: white space, a sign, the prefix [0x]
    or [0X] of a hexadecimal numeral, then digits; what follows the digits
    is ignored.  [None] is [NaN]. *)
Definition parseInt (s : string) : option Z :=
  let trimmed := trimStart s in
  let (negative, unsigned) :=
    match trimmed with
    | String "-" rest => (true, rest)
    | String "+" rest => (false, rest)
    | _ => (false, trimmed)
    end in
  let (radix, digits) :=
    match unsigned with
    | String "0" (String "x" rest) => (16%Z, rest)
    | String "0" (String "X" rest) => (16%Z, rest)
    | _ => (10%Z, unsigned)
    end in
  match leadingDigits radix None digits with
  | Some magnitude => Some (if negative then - magnitude else magnitude)%Z
  | None => None
  end.

(** The three branches that bring an integer into the range of the log. *)
Definition clampEntries (maxEntries : Z) : Z :=
  if (maxEntries <? 0)%Z then 0%Z
  else if (maxEntries >? 1000)%Z then 1000%Z
  else maxEntries.

(** What [_loadEnvironmentVariables()] makes of [debugMaxEntries], or
    what it throws at that point; [env] is [process.env], and 100 is the
    value that the constructor sets. *)
Definition loadDebugMaxEntries (env : string -> option string) : outcome Z :=
  match env "DEBUG_LOG_MAX" with
  | Some text =>
      match parseInt text with
      | None => Thrown "DEBUG_LOG_MAX must be a valid integer"
      | Some maxEntries => Returned (clampEntries maxEntries)
      end
  | None =>
      match env "DEBUG_MAX_ENTRIES" with
      | Some text =>
          match parseInt text with
          | None => Thrown "DEBUG_MAX_ENTRIES must be a valid integer"
          | Some maxEntries => Returned (clampEntries maxEntries)
          end
      | None => Returned 100%Z
      end
  end.

End ConfigEnv.

(* ================================================================== *)
(** ** src/debug.js: the debug log *)

Module DebugLogger.
Import JsString Json Config Utils TemplateEngine.

(** [c.toLowerCase()] on a code unit below 256: the letters A to Z, and
    the capital letters from U+00C0 to U+00DE, the sign U+00D7 apart. *)
Definition toLowerCaseChar (c : ascii) : ascii :=
  let n := nat_of_ascii c in
  if ((65 <=? n) && (n <=? 90))%nat
     || ((192 <=? n) && (n <=? 222) && negb (n =? 215))%nat
  then ascii_of_nat (n + 32)
  else c.

Fixpoint toLowerCase (s : string) : string :=
  match s with
  | EmptyString => EmptyString
  | String c rest => String (toLowerCaseChar c) (toLowerCase rest)
  end.

(** The list that [_sanitizePayload] hands over. *)
Definition sensitiveFields : list string :=
  ["password"; "token"; "secret"; "key"; "auth"; "authorization";
   "credit_card"; "ssn"; "social_security"].

(** [sensitiveFields.some(field => lowerKey.includes(field.toLowerCase()))]. *)
Definition isSensitive (fields : list string) (key : string) : bool :=
  existsb (fun field => includes (toLowerCase field) (toLowerCase key)) fields.

Definition REDACTED : string := "[REDACTED]".

Section Values.
Context {number : Type}.

(** [JSON.parse(JSON.stringify(n))] for a number: [None] is the [null]
    that stands for a number that is not finite. *)
Variable jsonNumber : number -> option number.

(** [JSON.parse(JSON.stringify(v))]. *)
Fixpoint jsonCopy (v : value number) : value number :=
  match v with
  | VNum n =>
      match jsonNumber n with
      | Some n' => VNum n'
      | None => VNull
      end
  | VArr items => VArr (map jsonCopy items)
  | VObj fields => VObj (map (fun kv => (fst kv, jsonCopy (snd kv))) fields)
  | _ => v
  end.

(** [_removeSensitiveFields(obj, sensitiveFields)] changes the object in
    place.  The loop runs over the keys of an object and over the indices
    of an array, and asks [obj.hasOwnProperty(key)] first; under a key that
    is not sensitive, the items of an array and the object are visited in
    turn.

    [visitFails]: the visit meets an object with a key [hasOwnProperty] of
    its own, whose call is a [TypeError]. *)
Fixpoint visitFails (fields : list string) (obj : value number) : bool :=
  match obj with
  | VObj entries =>
      existsb (fun kv => (fst kv =? "hasOwnProperty")%string) entries
      || existsb (fun kv =>
                    negb (isSensitive fields (fst kv))
                    && match snd kv with
                       | VArr items => existsb (visitFails fields) items
                       | VObj _ => visitFails fields (snd kv)
                       | _ => false
                       end)
                 entries
  | VArr elements =>
      (fix visit (index : nat) (l : list (value number)) : bool :=
         match l with
         | [] => false
         | x :: rest =>
             (negb (isSensitive fields (decimal index))
              && match x with
                 | VArr items => existsb (visitFails fields) items
                 | VObj _ => visitFails fields x
                 | _ => false
                 end)
             || visit (S index) rest
         end) 0 elements
  | _ => false
  end.

(** The object after a visit that does not fail. *)
Fixpoint removeSensitiveFields (fields : list string) (obj : value number)
  : value number :=
  match obj with
  | VObj entries =>
      VObj (map (fun kv =>
                   (fst kv,
                    if isSensitive fields (fst kv) then VStr REDACTED
                    else match snd kv with
                         | VArr items =>
                             VArr (map (removeSensitiveFields fields) items)
                         | VObj _ => removeSensitiveFields fields (snd kv)
                         | other => other
                         end))
                entries)
  | VArr elements =>
      VArr ((fix visit (index : nat) (l : list (value number)) :=
               match l with
               | [] => []
               | x :: rest =>
                   (if isSensitive fields (decimal index) then VStr REDACTED
                    else match x with
                         | VArr items =>
                             VArr (map (removeSensitiveFields fields) items)
                         | VObj _ => removeSensitiveFields fields x
                         | other => other
                         end)
                   :: visit (S index) rest
               end) 0 elements)
  | _ => obj
  end.

(** The message of the [TypeError], as V8 words it. *)
Definition notAFunction : string := "obj.hasOwnProperty is not a function".

(** [_sanitizePayload(payload)]. *)
Definition sanitizePayload (payload : value number) : outcome (value number) :=
  match payload with
  | VObj _ | VArr _ =>
      let sanitized := jsonCopy payload in
      if visitFails sensitiveFields sanitized then Thrown notAFunction
      else Returned (removeSensitiveFields sensitiveFields sanitized)
  | _ => Returned payload
  end.

(** One entry of the log. *)
Record Entry : Type := {
  timestamp : number;
  source_ip : string;
  source_path : string;
  entry_route : option string;
  original_payload : value number;
  transformed_payload : value number;
  entry_target_url : option string;
  entry_status : string;
  entry_error : option string;
  duration_ms : number;
  user_agent : string
}.

(** The logger: its entries, newest first, and its limit. *)
Record Logger : Type := {
  entries : list Entry;
  maxEntries : nat
}.

(** The logger as its constructor leaves it. *)
Definition constructed : Logger := {| entries := []; maxEntries := 100 |}.

(** [initialize()]; [debugMaxEntries] is what the configuration holds, an
    integer from 0 to 1000. *)
Definition initialize (debugMaxEntries : Z) (logger : Logger) : Logger :=
  {| entries := entries logger; maxEntries := Z.to_nat debugMaxEntries |}.

(** [Math.round]. *)
Variable round : number -> number.
(** Truthiness of a number. *)
Variable numberTruthy : number -> bool.

(** Truthiness of a value. *)
Definition truthy (v : value number) : bool :=
  match v with
  | VNull => false
  | VBool b => b
  | VNum n => numberTruthy n
  | VStr EmptyString => false
  | _ => true
  end.

(** The arguments of one call of [logRequest], with the path of the
    request and the reading of the clock in seconds; [None] for the
    transformed payload is [undefined]. *)
Record Call : Type := {
  call_req : Request number;
  call_path : string;
  call_now : number;
  call_originalPayload : value number;
  call_routeName : option string;
  call_targetUrl : option string;
  call_status : string;
  call_error : option string;
  call_duration : number;
  call_transformedPayload : option (value number)
}.

(** The entry that a call writes. *)
Definition entryOf (c : Call) : outcome Entry :=
  match sanitizePayload (call_originalPayload c) with
  | Thrown message => Thrown message
  | Returned original =>
      let transformed :=
        match call_transformedPayload c with
        | Some t => if truthy t then sanitizePayload t else Returned VNull
        | None => Returned VNull
        end in
      match transformed with
      | Thrown message => Thrown message
      | Returned transformedPayload =>
          Returned
            {| timestamp := call_now c;
               source_ip := getClientIP (call_req c);
               source_path := call_path c;
               entry_route := call_routeName c;
               original_payload := original;
               transformed_payload := transformedPayload;
               entry_target_url := call_targetUrl c;
               entry_status := call_status c;
               entry_error := call_error c;
               duration_ms := round (call_duration c);
               user_agent :=
                 orElse (header "user-agent" (req_headers (call_req c)))
                        "unknown" |}
      end
  end.

(** [logRequest(...)]: nothing when the limit is 0; else the entry goes
    to the front, and the list is cut to the limit. *)
Definition logRequest (c : Call) (logger : Logger) : outcome Logger :=
  if (maxEntries logger =? 0)%nat then Returned logger
  else
    match entryOf c with
    | Thrown message => Thrown message
    | Returned entry =>
        let unshifted := entry :: entries logger in
        Returned
          {| entries :=
               if (maxEntries logger <? List.length unshifted)%nat
               then firstn (maxEntries logger) unshifted
               else unshifted;
             maxEntries := maxEntries logger |}
    end.

(** [getEntries()]. *)
Definition getEntries (logger : Logger) : list Entry := entries logger.

(** [clearEntries()]. *)
Definition clearEntries (logger : Logger) : Logger :=
  {| entries := []; maxEntries := maxEntries logger |}.

(** A run of calls of [logRequest], the first call first; a call that
    throws leaves the logger as it was. *)
Definition logAll (calls : list Call) (logger : Logger) : Logger :=
  fold_left (fun l c =>
               match logRequest c l with
               | Returned l' => l'
               | Thrown _ => l
               end) calls logger.

(** The entries of the calls that do not throw, the first call first. *)
Fixpoint written (calls : list Call) : list Entry :=
  match calls with
  | [] => []
  | c :: rest =>
      match entryOf c with
      | Returned entry => entry :: written rest
      | Thrown _ => written rest
      end
  end.

(** Under every sensitive key of an object sits the mark of redaction,
    at every depth that the key of an object leads to. *)
Fixpoint redacted (fields : list string) (v : value number) : bool :=
  match v with
  | VObj entries =>
      forallb (fun kv =>
                 if isSensitive fields (fst kv) then
                   match snd kv with
                   | VStr s => (s =? REDACTED)%string
                   | _ => false
                   end
                 else redacted fields (snd kv))
              entries
  | VArr items => forallb (redacted fields) items
  | _ => true
  end.

End Values.

End DebugLogger.

(* ================================================================== *)
(** ** The file logger: the payloads of the file log *)

Module FileLogger.
Import JsString Json DebugLogger.

(** The list that [sanitizePayload] hands over. *)
Definition sensitiveFields : list string :=
  ["password"; "token"; "secret"; "key"; "auth"; "authorization";
   "credit_card"; "ssn"; "social_security"; "api_key"].

Definition SANITIZATION_ERROR : string := "[SANITIZATION_ERROR]".

Section Values.
Context {number : Type}.
Variable jsonNumber : number -> option number.

(** [sanitizePayload(payload)]: the copy and the visit are the ones of the
    debug log, inside a [try]; what they throw becomes the mark of the
    error. *)
Definition sanitizePayload (payload : value number) : value number :=
  match payload with
  | VObj _ | VArr _ =>
      let sanitized := jsonCopy jsonNumber payload in
      if visitFails sensitiveFields sanitized then VStr SANITIZATION_ERROR
      else removeSensitiveFields sensitiveFields sanitized
  | _ => payload
  end.

End Values.

End FileLogger.

(* ================================================================== *)
(** ** Calls of the examples for the debug log *)

Module LoggerSpec.
Import JsString Json Config Utils DebugLogger.

(** Numbers carried by their decimal rendering: every one is finite, and
    the examples hold whole numbers only. *)
Definition jsonText (n : string) : option string := Some n.
Definition roundText (n : string) : string := n.
Definition textTruthy (n : string) : bool := negb (n =? "0")%string.

(** A payload with credentials at two depths. *)
Definition credentials : value string :=
  VObj [("user", VObj [("name", VStr "ada"); ("apiKey", VStr "k-1")]);
        ("Password", VStr "hunter2");
        ("items", VArr [VObj [("sku", VStr "A1"); ("auth_code", VStr "77")]])].

(** The call that logs the forwarding of [credentials]. *)
Definition sampleCall : Call :=
  {| call_req := {| method := "POST"; req_headers := []; body := credentials;
                    query := []; connectionAddress := Some "203.0.113.7";
                    socketAddress := None |};
     call_path := "/g/collect";
     call_now := "1700000000";
     call_originalPayload := credentials;
     call_routeName := Some "R2";
     call_targetUrl := Some "https://up.example/hook";
     call_status := "passthrough";
     call_error := None;
     call_duration := "12";
     call_transformedPayload := Some credentials |}.

(** An environment that asks for a log of 5000 entries. *)
Definition largeLog (variable : string) : option string :=
  if (variable =? "DEBUG_LOG_MAX")%string then Some "5000" else None.

End LoggerSpec.

(* ================================================================== *)
(** ** Shapes of answers *)

Module RouterShape.
Import JsString Json Config Utils Auth TemplateEngine Router DryRun.
Import RouterSpec.

(** An answer of the dispatch: 200 or 500, no Allow header, and no more
    than a fixed message of error when debugging is off. *)
Definition plainAnswer (debugLogging : bool) (response : Response) : Prop :=
  (statusCode response = 200 \/ statusCode response = 500) /\
  allowHeader response = None /\
  (debugLogging = false ->
   forall message, responseBody response = ErrorBody message ->
                   message = "Internal Server Error").

Section Dispatch.
Context {number : Type} {NumberOps : JsNumber number}.
Variable files : string -> templateFile number.
Variable world : Type.
Variable axiosPost :
  world -> string -> list (string * string) -> option (value number) ->
  world * PostOutcome.

(** An entry of the dry run, against the run of its route. *)
Definition previewsRun (req : Request number) (payload meta : value number)
    (r : Route) (entry : Preview number) : Prop :=
  match entry with
  | AuthError n url message =>
      n = orElse (name r) "unnamed" /\ url = target_url r /\
      forall w, executeRoute files axiosPost r req payload meta w
                = (w, failed r message)
  | Transformed n url transformed =>
      n = orElse (name r) "unnamed" /\ url = target_url r /\
      forall w,
        fst (executeRoute files axiosPost r req payload meta w)
        = fst (axiosPost w (target_url r) (outboundHeaders r) transformed)
  end.

End Dispatch.

(** *** Requests and tables of the examples *)

(** [POST {"events":[{"name": eventName}]}], without credentials. *)
Definition anonymousPost {number : Type} (eventName : string) : Request number :=
  {| method := "POST";
     req_headers := [];
     body := VObj [("events", VArr [VObj [("name", VStr eventName)]])];
     query := [];
     connectionAddress := Some "203.0.113.7";
     socketAddress := None |}.

(** A table of one route, [R2], and no fallback route. *)
Definition singleTable : RouterState :=
  {| routes := [R2]; fallbackRoute := None |}.

(** A templates directory with one template, [order.json]. *)
Definition oneTemplate (path : string) : templateFile string :=
  if (path =? "order.json")%string then
    Document (VObj [("event", VStr "{{events.0.name}}");
                    ("ip", VStr "{{meta.ip}}")])
  else Absent.

(** A route that renders [order.json]. *)
Definition templated : Route :=
  {| name := Some "templated"; event_match := "purchase";
     target_url := "https://up.example/orders";
     methods := Some ["POST"]; template := Some "order.json";
     auth := Some apiKeyAuth; priority := None; multi := None;
     fallback := None; headers := [] |}.

Arguments previewsRun {number NumberOps} files {world} axiosPost req payload meta r entry.

End RouterShape.

(* ================================================================== *)
(** ** Facts about the string primitives *)

Module StringFacts.
Import JsString.

Lemma append_assoc (a b c : string) :
  ((a ++ b) ++ c = a ++ (b ++ c))%string.
Proof. induction a as [|x a IH]; simpl; [reflexivity | now rewrite IH]. Qed.

Lemma append_nil_r (a : string) : (a ++ "")%string = a.
Proof. induction a as [|x a IH]; simpl; [reflexivity | now rewrite IH]. Qed.

Lemma startsWith_append n s : startsWith n (n ++ s) = true.
Proof.
  induction n as [|x n IH]; simpl; [reflexivity|].
  now rewrite Ascii.eqb_refl.
Qed.

Lemma includes_cons n c s :
  includes n s = true -> includes n (String c s) = true.
Proof. intros H. simpl. rewrite H. apply orb_true_r. Qed.

Lemma includes_append_l n s : includes n (n ++ s) = true.
Proof.
  destruct (n ++ s)%string eqn:E; simpl;
    rewrite <- E, startsWith_append; reflexivity.
Qed.

Lemma includes_append_r n a s :
  includes n s = true -> includes n (a ++ s) = true.
Proof.
  intros H. induction a as [|x a IH]; simpl append; [exact H|].
  now apply includes_cons.
Qed.

Lemma dropWhile_append f ws r :
  allChars f ws = true -> dropWhile f (ws ++ r) = dropWhile f r.
Proof.
  induction ws as [|x ws IH]; simpl; [reflexivity|].
  intros H. apply andb_prop in H as [Hx Hws]. rewrite Hx. now apply IH.
Qed.

Lemma split_append sep p rest :
  includesChar sep p = false ->
  split sep (p ++ String sep rest) = p :: split sep rest.
Proof.
  induction p as [|a p IH]; simpl.
  - intros _. now rewrite Ascii.eqb_refl.
  - intros H. apply orb_false_elim in H as [Ha Hp].
    rewrite Ha, (IH Hp). reflexivity.
Qed.

Lemma split_plain sep p : includesChar sep p = false -> split sep p = [p].
Proof.
  induction p as [|a p IH]; simpl; [reflexivity|].
  intros H. apply orb_false_elim in H as [Ha Hp].
  rewrite Ha, (IH Hp). reflexivity.
Qed.

(** Splitting undoes joining, when no part holds the separator. *)
Lemma split_join sep parts :
  parts <> [] ->
  Forall (fun p => includesChar sep p = false) parts ->
  split sep (join (String sep "") parts) = parts.
Proof.
  induction parts as [|p ps IH]; [congruence|].
  intros _ H. inversion H as [|? ? Hp Hps]; subst.
  destruct ps as [|q ps].
  - simpl. now apply split_plain.
  - change (join (String sep "") (p :: q :: ps))
      with (p ++ String sep (join (String sep "") (q :: ps)))%string.
    rewrite split_append by assumption.
    rewrite IH by (congruence || assumption). reflexivity.
Qed.

End StringFacts.

Module WildcardFacts.
Import JsString RegExp Utils UtilsSpec.

Lemma escaped_not_star c : isEscaped c = true -> (c =? "*")%char = false.
Proof.
  destruct c as [[] [] [] [] [] [] [] []]; vm_compute; congruence.
Qed.

Lemma escaped_not_literal c : isEscaped c = true -> classify c <> CLiteral.
Proof.
  destruct c as [[] [] [] [] [] [] [] []]; vm_compute; congruence.
Qed.

Lemma plain_is_literal c :
  isEscaped c = false -> (c =? "*")%char = false -> (c =? "?")%char = false ->
  classify c = CLiteral.
Proof.
  destruct c as [[] [] [] [] [] [] [] []]; vm_compute; congruence.
Qed.

Lemma parse_dollar st acc :
  st <> PEscape -> parse st acc "$" = Regex (rev (TEnd :: acc)).
Proof. destruct st; simpl; congruence. Qed.

(** The parser reads the generated source back into [termsOf]. *)
Lemma parse_generated p :
  includesChar "?" p = false ->
  forall st acc, st <> PEscape ->
    parse st acc (expandStars (escapeSpecials p) ++ "$")
    = Regex (rev acc ++ termsOf p ++ [TEnd]).
Proof.
  induction p as [|c p IH]; intros Hq st acc Hst.
  - simpl expandStars. simpl append. rewrite parse_dollar by assumption.
    reflexivity.
  - simpl in Hq. apply orb_false_elim in Hq as [Hc Hq].
    specialize (IH Hq).
    simpl escapeSpecials. destruct (isEscaped c) eqn:He.
    + pose proof (escaped_not_star c He) as Hs.
      pose proof (escaped_not_literal c He) as Hl.
      simpl expandStars. rewrite Hs. simpl append.
      assert (parse st acc (String "\" (String c (expandStars (escapeSpecials p) ++ "$")))
              = parse PAtom (TAtom (AChar c) QOne :: acc)
                  (expandStars (escapeSpecials p) ++ "$")) as ->.
      { destruct st; try congruence; simpl;
          destruct (classify c); try congruence; reflexivity. }
      rewrite IH by discriminate. simpl. rewrite Hs, <- app_assoc. reflexivity.
    + simpl expandStars. destruct (c =? "*")%char eqn:Hs.
      * apply Ascii.eqb_eq in Hs. subst c. simpl append.
        assert (parse st acc (String "." (String "*" (expandStars (escapeSpecials p) ++ "$")))
                = parse PQuant (TAtom ADot QStar :: acc)
                    (expandStars (escapeSpecials p) ++ "$")) as ->.
        { destruct st; try congruence; reflexivity. }
        rewrite IH by discriminate. simpl. rewrite <- app_assoc. reflexivity.
      * pose proof (plain_is_literal c He Hs Hc) as Hl. simpl append.
        assert (parse st acc (String c (expandStars (escapeSpecials p) ++ "$"))
                = parse PAtom (TAtom (AChar c) QOne :: acc)
                    (expandStars (escapeSpecials p) ++ "$")) as ->.
        { destruct st; try congruence; simpl; rewrite Hl; reflexivity. }
        rewrite IH by discriminate. simpl. rewrite Hs, <- app_assoc. reflexivity.
Qed.

Lemma compile_generated p :
  includesChar "?" p = false ->
  compile (regexSource p) = Regex (TBegin :: termsOf p ++ [TEnd]).
Proof.
  intros Hq. unfold compile, regexSource. simpl.
  rewrite parse_generated by (assumption || discriminate). reflexivity.
Qed.

(** The compiled terms decide the glob relation. *)
Lemma matchHere_glob p : forall b v,
  matchHere (termsOf p ++ [TEnd]) b v
  = globMatch (fun c => negb (isLineTerminator c)) p v.
Proof.
  induction p as [|c p IH]; intros b v.
  - destruct v; reflexivity.
  - simpl. destruct (c =? "*")%char eqn:Hs.
    + revert b. induction v as [|a v IHv]; intros b.
      * simpl. apply IH.
      * simpl. rewrite IHv, IH. reflexivity.
    + destruct v as [|a v]; [reflexivity|]. simpl. rewrite IH. reflexivity.
Qed.

Lemma matchLater_anchored ts v : matchLater (TBegin :: ts) v = false.
Proof. induction v as [|a v IH]; simpl; auto. Qed.

Lemma test_generated p v :
  test (TBegin :: termsOf p ++ [TEnd]) v
  = globMatch (fun c => negb (isLineTerminator c)) p v.
Proof.
  unfold test. rewrite matchLater_anchored, orb_false_r.
  simpl. apply matchHere_glob.
Qed.

(** On a pattern without [?] the function never throws and decides
    [codeMatches]. *)
Lemma matchesWildcard_code p v :
  includesChar "?" p = false ->
  matchesWildcard p v = Some (codeMatches p v).
Proof.
  intros Hq. unfold matchesWildcard, codeMatches.
  destruct (p =? "*")%string; [reflexivity|].
  destruct (includesChar "*" p); simpl; [|reflexivity].
  rewrite compile_generated by assumption. now rewrite test_generated.
Qed.

End WildcardFacts.

(* ================================================================== *)
(** ** Facts about sortRoutesByPriority *)

Module SortFacts.
Import Config Utils UtilsSpec.

Lemma positive_compare a b :
  positive (compareRoutes a b) = true <-> after a b.
Proof.
  unfold compareRoutes, priorityOrInfinity, after.
  destruct (priority (entry a)) as [x|], (priority (entry b)) as [y|]; simpl.
  - destruct (Z.eqb_spec x y); simpl; rewrite Z.ltb_lt; lia.
  - split; [discriminate | tauto].
  - tauto.
  - rewrite Z.ltb_lt. lia.
Qed.

Lemma inOrder_iff a b : inOrder a b <-> ~ after a b.
Proof.
  unfold inOrder. rewrite <- positive_compare.
  destruct (positive (compareRoutes a b)); split; congruence.
Qed.

Lemma inOrder_total a b : ~ inOrder a b -> inOrder b a.
Proof.
  rewrite !inOrder_iff. unfold after.
  destruct (priority (entry a)), (priority (entry b)); lia.
Qed.

Lemma inOrder_trans a b c : inOrder a b -> inOrder b c -> inOrder a c.
Proof.
  rewrite !inOrder_iff. unfold after.
  destruct (priority (entry a)), (priority (entry b)), (priority (entry c)); lia.
Qed.

Lemma inOrder_priorityLe a b : inOrder a b -> priorityLe (entry a) (entry b).
Proof.
  rewrite inOrder_iff. unfold after, priorityLe.
  destruct (priority (entry a)), (priority (entry b)); lia.
Qed.

(** Two routes of one priority stand in the order of their indices. *)
Lemma inOrder_same_priority p a b :
  hasPriority p (entry a) = true -> hasPriority p (entry b) = true ->
  inOrder a b -> originalIndex a <> originalIndex b ->
  originalIndex a < originalIndex b.
Proof.
  rewrite inOrder_iff. unfold after, hasPriority.
  destruct (priority (entry a)), (priority (entry b)), p;
    try discriminate; rewrite ?Z.eqb_eq; lia.
Qed.

Lemma insertSorted_perm x l :
  Permutation (x :: l) (insertSorted compareRoutes x l).
Proof.
  induction l as [|y l IH]; simpl; [reflexivity|].
  destruct (positive (compareRoutes x y)); [|reflexivity].
  rewrite perm_swap. now apply perm_skip.
Qed.

Lemma sortBy_perm l : Permutation l (sortBy compareRoutes l).
Proof.
  induction l as [|x l IH]; simpl; [reflexivity|].
  rewrite <- insertSorted_perm. now apply perm_skip.
Qed.

Lemma insertSorted_sorted x l :
  StronglySorted inOrder l ->
  StronglySorted inOrder (insertSorted compareRoutes x l).
Proof.
  induction 1 as [|y l Hl IH Hy]; simpl.
  - repeat constructor.
  - destruct (positive (compareRoutes x y)) eqn:Hxy.
    + constructor; [exact IH|].
      apply (Permutation_Forall (insertSorted_perm x l)).
      constructor; [|exact Hy].
      apply inOrder_total. unfold inOrder. congruence.
    + constructor; [now constructor|].
      constructor; [exact Hxy|].
      eapply Forall_impl; [|exact Hy].
      intros z Hz. eapply inOrder_trans; eauto.
Qed.

Lemma sortBy_sorted l : StronglySorted inOrder (sortBy compareRoutes l).
Proof.
  induction l; simpl; [constructor | now apply insertSorted_sorted].
Qed.

Section SortedLists.
Context {A : Type}.

Lemma StronglySorted_filter (R : A -> A -> Prop) f l :
  StronglySorted R l -> StronglySorted R (filter f l).
Proof.
  induction 1 as [|a l Hl IH Ha]; simpl; [constructor|].
  destruct (f a); [|exact IH].
  constructor; [exact IH|].
  rewrite Forall_forall in *. intros x Hx.
  apply Ha. apply filter_In in Hx. tauto.
Qed.

(** A sorted list stays sorted for any relation that agrees with the
    first one on its elements. *)
Lemma StronglySorted_on (R R' : A -> A -> Prop) l :
  (forall a b, In a l -> In b l -> R a b -> R' a b) ->
  StronglySorted R l -> StronglySorted R' l.
Proof.
  intros HR Hl. induction Hl as [|a l Hl IH Ha]; [constructor|].
  constructor.
  - apply IH. intros x y Hx Hy. apply HR; now right.
  - rewrite Forall_forall in *. intros x Hx.
    apply HR; [now left | now right | now apply Ha].
Qed.

(** Two lists with the same elements, sorted for an asymmetric relation,
    are the same list. *)
Lemma sorted_perm_unique (R : A -> A -> Prop) :
  (forall a b, R a b -> R b a -> False) ->
  forall l1 l2, StronglySorted R l1 -> StronglySorted R l2 ->
    Permutation l1 l2 -> l1 = l2.
Proof.
  intros Hasym l1. induction l1 as [|a l1 IH]; intros l2 H1 H2 HP.
  - apply Permutation_nil in HP. now subst.
  - destruct l2 as [|b l2].
    { symmetry in HP. now apply Permutation_nil in HP. }
    apply StronglySorted_inv in H1 as [H1 Ha].
    apply StronglySorted_inv in H2 as [H2 Hb].
    rewrite Forall_forall in Ha, Hb.
    assert (a = b) as ->.
    { assert (In a (b :: l2)) as [Hab | Hab]
        by (apply (Permutation_in _ HP); now left); [congruence|].
      assert (In b (a :: l1)) as [Hba | Hba]
        by (apply (Permutation_in _ (Permutation_sym HP)); now left);
        [congruence|].
      exfalso. apply (Hasym a b); [now apply Ha | now apply Hb]. }
    f_equal. apply IH; trivial.
    now apply Permutation_cons_inv in HP.
Qed.

Lemma Permutation_filter' (f : A -> bool) l l' :
  Permutation l l' -> Permutation (filter f l) (filter f l').
Proof.
  induction 1 as [|x l l' HP IH|x y l|l l' l'' H1 IH1 H2 IH2]; simpl.
  - constructor.
  - destruct (f x); [now apply perm_skip | exact IH].
  - destruct (f x), (f y); try reflexivity. apply perm_swap.
  - now transitivity (filter f l').
Qed.

End SortedLists.

Lemma filter_map_entry (g : Route -> bool) l :
  map entry (filter (fun ir => g (entry ir)) l) = filter g (map entry l).
Proof.
  induction l as [|a l IH]; simpl; [reflexivity|].
  destruct (g (entry a)); simpl; now rewrite IH.
Qed.

Lemma withIndex_entries routes : map entry (withIndex routes) = routes.
Proof.
  unfold withIndex. rewrite map_map. simpl.
  generalize 0. induction routes as [|r routes IH]; intros n; simpl;
    [reflexivity | now rewrite IH].
Qed.

Lemma withIndex_indices routes :
  map originalIndex (withIndex routes) = seq 0 (List.length routes).
Proof.
  unfold withIndex. rewrite map_map. simpl.
  generalize 0. induction routes as [|r routes IH]; intros n; simpl;
    [reflexivity | now rewrite IH].
Qed.

Lemma seq_sorted len : forall start, StronglySorted lt (seq start len).
Proof.
  induction len as [|len IH]; intros start; simpl; constructor; [apply IH|].
  rewrite Forall_forall. intros x Hx. apply in_seq in Hx. lia.
Qed.

Lemma StronglySorted_map_index (R : nat -> nat -> Prop) l :
  StronglySorted R (map originalIndex l) ->
  StronglySorted (fun a b => R (originalIndex a) (originalIndex b)) l.
Proof.
  induction l as [|a l IH]; simpl; intros H; [constructor|].
  apply StronglySorted_inv in H as [H Ha].
  constructor; [now apply IH|].
  rewrite Forall_forall in *. intros x Hx. apply Ha. now apply in_map.
Qed.

Lemma withIndex_sorted routes :
  StronglySorted (fun a b => originalIndex a < originalIndex b)
                 (withIndex routes).
Proof.
  apply StronglySorted_map_index. rewrite withIndex_indices. apply seq_sorted.
Qed.

(** In a list of distinct indices, the order of the comparator is strict. *)
Lemma sorted_distinct l :
  NoDup (map originalIndex l) -> StronglySorted inOrder l ->
  StronglySorted
    (fun a b => inOrder a b /\ originalIndex a <> originalIndex b) l.
Proof.
  induction l as [|a l IH]; simpl; intros Hnd Hs; [constructor|].
  apply StronglySorted_inv in Hs as [Hs Ha].
  inversion Hnd as [|? ? Hnotin Hnd']; subst.
  constructor; [now apply IH|].
  rewrite Forall_forall in *. intros x Hx. split; [now apply Ha|].
  intros Heq. apply Hnotin. rewrite Heq. now apply in_map.
Qed.

Lemma sorted_indices_distinct routes :
  NoDup (map originalIndex (sortBy compareRoutes (withIndex routes))).
Proof.
  eapply Permutation_NoDup.
  - apply Permutation_map, sortBy_perm.
  - rewrite withIndex_indices. apply seq_NoDup.
Qed.

(** Whatever algorithm the engine sorts with: a permutation of the indexed
    routes that the comparator leaves in order is the array of the model. *)
Lemma sort_algorithm_independent routes sorted :
  Permutation (withIndex routes) sorted ->
  StronglySorted inOrder sorted ->
  sorted = sortBy compareRoutes (withIndex routes).
Proof.
  intros HP Hs.
  apply (sorted_perm_unique
           (fun a b => inOrder a b /\ originalIndex a <> originalIndex b)).
  - intros a b [Hab Hne] [Hba _].
    rewrite inOrder_iff in Hab, Hba. unfold after in *.
    destruct (priority (entry a)), (priority (entry b)); lia.
  - apply sorted_distinct; [|exact Hs].
    eapply Permutation_NoDup; [apply Permutation_map, HP|].
    rewrite withIndex_indices. apply seq_NoDup.
  - apply sorted_distinct; [apply sorted_indices_distinct | apply sortBy_sorted].
  - rewrite <- HP. apply sortBy_perm.
Qed.

Lemma sort_permutation routes :
  Permutation routes (sortRoutesByPriority routes).
Proof.
  unfold sortRoutesByPriority.
  rewrite <- (withIndex_entries routes) at 1.
  apply Permutation_map, sortBy_perm.
Qed.

Lemma sort_ascending routes :
  StronglySorted priorityLe (sortRoutesByPriority routes).
Proof.
  unfold sortRoutesByPriority.
  pose proof (sortBy_sorted (withIndex routes)) as Hs.
  induction Hs as [|a l Hl IH Ha]; simpl; constructor; [exact IH|].
  rewrite Forall_forall in *. intros r Hr.
  apply in_map_iff in Hr as [b [<- Hb]].
  now apply inOrder_priorityLe, Ha.
Qed.

Lemma sort_stable routes p :
  filter (hasPriority p) (sortRoutesByPriority routes)
  = filter (hasPriority p) routes.
Proof.
  unfold sortRoutesByPriority.
  rewrite <- (withIndex_entries routes) at 2.
  rewrite <- !filter_map_entry. f_equal.
  set (keep := fun ir => hasPriority p (entry ir)).
  apply (sorted_perm_unique (fun a b => originalIndex a < originalIndex b)).
  - intros a b. lia.
  - apply StronglySorted_on
      with (R := fun a b => inOrder a b /\ originalIndex a <> originalIndex b).
    + intros a b Ha Hb [Hab Hne].
      apply filter_In in Ha as [_ Ha]. apply filter_In in Hb as [_ Hb].
      eapply inOrder_same_priority; eauto.
    + apply StronglySorted_filter, sorted_distinct;
        [apply sorted_indices_distinct | apply sortBy_sorted].
  - apply StronglySorted_filter, withIndex_sorted.
  - apply Permutation_filter'. symmetry. apply sortBy_perm.
Qed.

End SortFacts.

(* ================================================================== *)
(** ** Facts about the template engine *)

Module TemplateFacts.
Import JsString Json TemplateEngine TemplateSpec StringFacts.



Lemma endsClean_tail c s :
  endsClean (String c s) = true -> isWhiteSpace c = true ->
  endsClean s = true.
Proof.
  unfold endsClean. destruct s as [|d s]; simpl; [|tauto].
  intros H Hc. rewrite Hc in H. discriminate.
Qed.

(** At the bars the tail matches, and the second group is the fallback. *)
Lemma matchFallbackTail_at ws1 ws2 fb :
  allChars isWhiteSpace ws1 = true -> allChars isWhiteSpace ws2 = true ->
  startsClean fb = true -> allChars notLineTerminator fb = true ->
  matchFallbackTail (ws1 ++ "||" ++ ws2 ++ fb) = Some fb.
Proof.
  intros H1 H2 Hs Hfb. unfold matchFallbackTail.
  rewrite dropWhile_append by assumption.
  change (dropWhile isWhiteSpace ("||" ++ ws2 ++ fb))
    with ("||" ++ ws2 ++ fb)%string.
  rewrite startsWith_append.
  change (dropTwo ("||" ++ ws2 ++ fb)) with (ws2 ++ fb)%string.
  rewrite dropWhile_append by assumption.
  destruct fb as [|c fb]; [discriminate|].
  unfold startsClean in Hs. apply negb_true_iff in Hs.
  cbn [dropWhile]. rewrite Hs. now rewrite Hfb.
Qed.

Lemma includes_tail needle c s :
  includes needle (String c s) = false -> includes needle s = false.
Proof.
  cbn [includes]. intros H. apply orb_false_iff in H as [_ H]. exact H.
Qed.

Lemma allChars_tail f c s :
  allChars f (String c s) = true -> f c = true /\ allChars f s = true.
Proof. cbn [allChars]. intros H. now apply andb_prop in H. Qed.

(** Ahead of the first two bars in a row the tail of the pattern finds no
    match: a bar of the path is followed by something else than a bar. *)
Lemma matchFallbackTail_before_bars p ws1 rest :
  endsClean p = true -> allChars isWhiteSpace ws1 = true ->
  includes "||" (p ++ ws1 ++ "|") = false ->
  matchFallbackTail (p ++ ws1 ++ "||" ++ rest) = None.
Proof.
  intros Hend Hws Hbars. unfold matchFallbackTail.
  assert (startsWith "||"
            (dropWhile isWhiteSpace (p ++ ws1 ++ "||" ++ rest)) = false) as ->;
    [|reflexivity].
  induction p as [|c p IH]; [discriminate|].
  cbn [append dropWhile]. destruct (isWhiteSpace c) eqn:Hc.
  - apply IH; [eapply endsClean_tail; eauto|].
    exact (includes_tail _ _ _ Hbars).
  - cbn [append includes] in Hbars.
    apply orb_false_iff in Hbars as [Hhere _].
    cbn [startsWith] in Hhere |- *.
    destruct ("|" =? c)%char; [|reflexivity].
    cbn [andb] in Hhere |- *.
    destruct p as [|d p]; [|exact Hhere].
    destruct ws1 as [|w ws1]; [discriminate Hhere|exact Hhere].
Qed.

(** The lazy first group stops at the first two bars in a row. *)
Lemma fallbackFrom_first_bars path ws1 ws2 fb main :
  endsClean path = true -> allChars notLineTerminator path = true ->
  allChars isWhiteSpace ws1 = true -> allChars isWhiteSpace ws2 = true ->
  includes "||" (path ++ ws1 ++ "|") = false ->
  startsClean fb = true -> allChars notLineTerminator fb = true ->
  fallbackFrom main (path ++ ws1 ++ "||" ++ ws2 ++ fb)
  = Some ((main ++ path)%string, fb).
Proof.
  intros Hend Hline H1 H2 Hbars Hs Hfb. revert main.
  pose proof (matchFallbackTail_at ws1 ws2 fb H1 H2 Hs Hfb) as Htail.
  induction path as [|c p IH]; intros main; [discriminate|].
  change (String c p ++ ws1 ++ "||" ++ ws2 ++ fb)%string
    with (String c (p ++ ws1 ++ "||" ++ ws2 ++ fb)).
  cbn [fallbackFrom].
  apply allChars_tail in Hline as [Hc Hp].
  unfold notLineTerminator in Hc. apply negb_true_iff in Hc. rewrite Hc.
  destruct p as [|d p].
  - change (EmptyString ++ ws1 ++ "||" ++ ws2 ++ fb)%string
      with (ws1 ++ "||" ++ ws2 ++ fb)%string.
    now rewrite Htail.
  - assert (endsClean (String d p) = true) as Hend' by exact Hend.
    pose proof (includes_tail _ _ _ Hbars) as Hbars'.
    rewrite matchFallbackTail_before_bars by assumption.
    rewrite (IH Hend' Hp Hbars'). now rewrite append_assoc.
Qed.

(** The fallback pattern splits [path ws || ws fallback] at the first two
    bars in a row. *)
Lemma fallbackMatch_first_bars path ws1 ws2 fb :
  endsClean path = true -> allChars notLineTerminator path = true ->
  allChars isWhiteSpace ws1 = true -> allChars isWhiteSpace ws2 = true ->
  includes "||" (path ++ ws1 ++ "|") = false ->
  startsClean fb = true -> allChars notLineTerminator fb = true ->
  fallbackMatch (path ++ ws1 ++ "||" ++ ws2 ++ fb) = Some (path, fb).
Proof.
  intros. unfold fallbackMatch.
  now rewrite fallbackFrom_first_bars by assumption.
Qed.

Section Engine.
Context {number : Type} {NumberOps : JsNumber number}.





Lemma walk_reaches v parts r :
  reaches v parts r -> walk parts (Some v) = Some r.
Proof.
  induction 1 as [v | items part rest x r Hi Hn _ IH
                    | fields part rest x r Hl _ IH]; simpl.
  - reflexivity.
  - now rewrite Hi, Hn.
  - now rewrite Hl.
Qed.

Lemma getValueByPath_reaches (context : value number) parts r :
  parts <> [] ->
  Forall (fun p => includesChar "." p = false) parts ->
  reaches context parts r ->
  getValueByPath (join "." parts) context = Some r.
Proof.
  intros Hne Hdots Hr. unfold getValueByPath.
  rewrite split_join by assumption. now apply walk_reaches.
Qed.

End Engine.

End TemplateFacts.

(* ================================================================== *)
(** ** Facts about the router *)

Module RouterFacts.
Import JsString Json Config Utils Auth TemplateEngine Router RouterSpec.

Lemma stopAfterSingle_all_multi qs :
  Forall isMulti qs -> stopAfterSingle qs = qs.
Proof.
  induction 1 as [|r qs Hr _ IH]; simpl; [reflexivity|].
  unfold isMulti in Hr. now rewrite Hr, IH.
Qed.

Lemma stopAfterSingle_first_single pre r post :
  Forall isMulti pre -> flag (multi r) = false ->
  stopAfterSingle (pre ++ r :: post) = pre ++ [r].
Proof.
  intros Hpre Hr. induction Hpre as [|x pre Hx _ IH]; simpl.
  - now rewrite Hr.
  - unfold isMulti in Hx. now rewrite Hx, IH.
Qed.

(** The scan returns when no pattern on its way makes [new RegExp] throw,
    and then it returns the qualifying routes up to the first single one. *)
Lemma findMatchingRoutes_collects rs eventName requestMethod :
  Forall (fun r => matchesWildcard (event_match r) eventName <> None) rs ->
  findMatchingRoutes rs eventName requestMethod
  = Returned (stopAfterSingle (filter (qualifies eventName requestMethod) rs)).
Proof.
  induction 1 as [|r rs Hr _ IH]; simpl; [reflexivity|].
  unfold qualifies at 1.
  destruct (matchesWildcard (event_match r) eventName) as [[|]|];
    [| |congruence]; simpl.
  - destruct (acceptsMethod r requestMethod); simpl; [|exact IH].
    destruct (flag (multi r)); simpl; [|reflexivity].
    now rewrite IH.
  - exact IH.
Qed.

(** A route without [methods] accepts no method. *)
Lemma acceptsMethod_absent r requestMethod :
  methods r = None -> acceptsMethod r requestMethod = false.
Proof. unfold acceptsMethod. now intros ->. Qed.

Lemma findMatchingRoutes_accepting rs eventName requestMethod matched :
  findMatchingRoutes rs eventName requestMethod = Returned matched ->
  Forall (fun r => acceptsMethod r requestMethod = true) matched.
Proof.
  revert matched. induction rs as [|r rs IH]; simpl; intros matched H.
  - injection H as <-. constructor.
  - destruct (matchesWildcard (event_match r) eventName) as [b|];
      [|discriminate].
    destruct (b && acceptsMethod r requestMethod) eqn:E; [|now apply IH].
    apply andb_prop in E as [_ E].
    destruct (negb (flag (multi r))).
    + injection H as <-. now repeat constructor.
    + destruct (findMatchingRoutes rs eventName requestMethod) as [more|];
        [|discriminate].
      injection H as <-. constructor; [exact E | now apply IH].
Qed.

Lemma findMatchingRoutes_incl rs eventName requestMethod matched :
  findMatchingRoutes rs eventName requestMethod = Returned matched ->
  incl matched rs.
Proof.
  revert matched. induction rs as [|r rs IH]; simpl; intros matched H.
  - injection H as <-. apply incl_refl.
  - destruct (matchesWildcard (event_match r) eventName) as [b|];
      [|discriminate].
    destruct (b && acceptsMethod r requestMethod).
    + destruct (negb (flag (multi r))).
      * injection H as <-. intros x [<-|[]]. now left.
      * destruct (findMatchingRoutes rs eventName requestMethod) as [more|];
          [|discriminate].
        injection H as <-. intros x [<-|Hx]; [now left|].
        right. now apply (IH more).
    + apply incl_tl. now apply IH.
Qed.

(** A request with a matching route passes the method gate. *)
Lemma matched_passes_gate st eventName requestMethod first others :
  findMatchingRoutes (routes st) eventName requestMethod
  = Returned (first :: others) ->
  validateRequestMethod requestMethod (allRoutes st) = None.
Proof.
  intros Hfind. unfold validateRequestMethod.
  assert (existsb (fun r => acceptsMethod r requestMethod) (allRoutes st) = true)
    as ->; [|reflexivity].
  apply existsb_exists. exists first. split.
  - assert (In first (routes st)) as Hin
      by (apply (findMatchingRoutes_incl _ _ _ _ Hfind); now left).
    unfold allRoutes. destruct (fallbackRoute st); [|exact Hin].
    apply in_or_app. now left.
  - pose proof (findMatchingRoutes_accepting _ _ _ _ Hfind) as Hacc.
    now inversion Hacc.
Qed.

(** No pattern without [?] makes [new RegExp] throw. *)
Lemma patterns_without_question_mark rs eventName :
  Forall (fun r => includesChar "?" (event_match r) = false) rs ->
  Forall (fun r => matchesWildcard (event_match r) eventName <> None) rs.
Proof.
  intros H. eapply Forall_impl; [|exact H].
  intros r Hr. rewrite WildcardFacts.matchesWildcard_code by exact Hr.
  discriminate.
Qed.


Section Payloads.
Context {number : Type} {NumberOps : JsNumber number}.


End Payloads.



Section Dispatch.
Context {number : Type} {NumberOps : JsNumber number}.
Variable files : string -> templateFile number.
Variable world : Type.
Variable axiosPost :
  world -> string -> list (string * string) -> option (value number) ->
  world * PostOutcome.


(** Every route of the list is executed, in its turn: its result stands at
    its place, drawn in the world that the routes before it left. *)
Lemma executeRoutes_each pre r post (req : Request number) payload meta w :
  exists w_r,
    nth_error (snd (executeRoutes files axiosPost (pre ++ r :: post)
                      req payload meta w)) (List.length pre)
    = Some (snd (executeRoute files axiosPost r req payload meta w_r)).
Proof.
  revert w. induction pre as [|x pre IH]; intros w; simpl.
  - exists w.
    destruct (executeRoute files axiosPost r req payload meta w) as [w1 res].
    destruct (executeRoutes files axiosPost post req payload meta w1).
    reflexivity.
  - destruct (executeRoute files axiosPost x req payload meta w) as [w1 res].
    destruct (IH w1) as [w_r Hr]. exists w_r.
    destruct (executeRoutes files axiosPost (pre ++ r :: post)
                req payload meta w1).
    exact Hr.
Qed.



End Dispatch.

End RouterFacts.

(* ================================================================== *)
(** ** Properties of the wildcard matcher and of the route order *)

Module UtilsProperties.
Import JsString RegExp Config Utils UtilsSpec WildcardFacts SortFacts.

(** C7, as the specification states it, fails.  The [*] of a pattern is
    compiled to [.*], and [.] matches no line terminator: the pattern [a*]
    does not match the letter [a] followed by a line feed, which "zero or
    more of any character" accepts.  And the first [replace] leaves [?]
    unescaped, so that [?] stays a quantifier: [a?*] matches a value that
    does not start with [a?], and [?*] is no regular expression at all. *)
Lemma matchesWildcard_not_any_character :
  (matchesWildcard "a*" (String "a" (String LF "")) = Some false /\
   specMatches "a*" (String "a" (String LF "")) = true) /\
  (matchesWildcard "a?*" "b" = Some true /\ specMatches "a?*" "b" = false) /\
  matchesWildcard "?*" "b" = None.
Proof. repeat split; reflexivity. Qed.

(** Whatever the pattern, the source handed to [new RegExp] stays inside
    the modelled fragment. *)
Lemma parse_generated_modelled p :
  forall st acc, st <> PEscape ->
    parse st acc (expandStars (escapeSpecials p) ++ "$") <> Unmodelled.
Proof.
  induction p as [|c p IH]; intros st acc Hst.
  - simpl expandStars. simpl append. rewrite parse_dollar by assumption.
    discriminate.
  - simpl escapeSpecials. destruct (isEscaped c) eqn:He.
    + pose proof (escaped_not_star c He) as Hs.
      pose proof (escaped_not_literal c He) as Hl.
      simpl expandStars. rewrite Hs. cbn [append].
      assert (parse st acc (String "\" (String c (expandStars (escapeSpecials p) ++ "$")))
              = parse PAtom (TAtom (AChar c) QOne :: acc)
                  (expandStars (escapeSpecials p) ++ "$")) as ->.
      { destruct st; try congruence; simpl;
          destruct (classify c); try congruence; reflexivity. }
      apply IH. discriminate.
    + simpl expandStars. destruct (c =? "*")%char eqn:Hs.
      * apply Ascii.eqb_eq in Hs. subst c. cbn [append].
        assert (parse st acc (String "." (String "*" (expandStars (escapeSpecials p) ++ "$")))
                = parse PQuant (TAtom ADot QStar :: acc)
                    (expandStars (escapeSpecials p) ++ "$")) as ->.
        { destruct st; try congruence; reflexivity. }
        apply IH. discriminate.
      * cbn [append]. destruct (c =? "?")%char eqn:Hq.
        -- apply Ascii.eqb_eq in Hq. subst c.
           destruct st; try congruence; simpl;
             try discriminate; apply IH; discriminate.
        -- pose proof (plain_is_literal c He Hs Hq) as Hl.
           assert (parse st acc (String c (expandStars (escapeSpecials p) ++ "$"))
                   = parse PAtom (TAtom (AChar c) QOne :: acc)
                       (expandStars (escapeSpecials p) ++ "$")) as ->.
           { destruct st; try congruence; simpl; rewrite Hl; reflexivity. }
           apply IH. discriminate.
Qed.

Lemma compile_generated_modelled p : compile (regexSource p) <> Unmodelled.
Proof.
  unfold compile, regexSource. simpl.
  apply parse_generated_modelled. discriminate.
Qed.

(** C7, amended.  [matches("*", value)] is always true.  For a pattern
    without [*], [matches(pattern, value)] is [pattern == value].  For any
    other pattern that holds no [?], matching is anchored glob matching:
    every [*] stands for zero or more characters other than line
    terminators, every other character for itself.  In particular
    [matches("purchase.*", "purchase.refund")] is true and
    [matches("purchase.*", "purchase")] is false. *)
Theorem matchesWildcard_glob :
  (forall value, matchesWildcard "*" value = Some true) /\
  (forall pattern value,
     includesChar "*" pattern = false ->
     matchesWildcard pattern value = Some (pattern =? value)%string) /\
  (forall pattern value,
     pattern <> "*" -> includesChar "*" pattern = true ->
     includesChar "?" pattern = false ->
     matchesWildcard pattern value
     = Some (globMatch (fun c => negb (isLineTerminator c)) pattern value)) /\
  matchesWildcard "purchase.*" "purchase.refund" = Some true /\
  matchesWildcard "purchase.*" "purchase" = Some false.
Proof.
  split; [reflexivity|]. split; [|split; [|split; reflexivity]].
  - intros pattern value Hstar. unfold matchesWildcard.
    destruct (pattern =? "*")%string eqn:E.
    + apply String.eqb_eq in E. subst pattern. discriminate.
    + now rewrite Hstar.
  - intros pattern value Hne Hstar Hq.
    rewrite matchesWildcard_code by assumption. unfold codeMatches.
    apply String.eqb_neq in Hne. now rewrite Hne, Hstar.
Qed.

Lemma matchesWildcard_glob_witness :
  "purchase.*" <> "*" /\
  includesChar "*" "purchase.*" = true /\
  includesChar "?" "purchase.*" = false /\
  matchesWildcard "purchase.*" "purchase.refund"
  = Some (globMatch (fun c => negb (isLineTerminator c))
            "purchase.*" "purchase.refund").
Proof.
  split; [discriminate|]. split; [reflexivity|]. split; [reflexivity|].
  apply (proj1 (proj2 (proj2 matchesWildcard_glob)));
    [discriminate | reflexivity | reflexivity].
Defined.

(** C6.  Sorting keeps the routes, orders them by ascending priority with
    an absent priority as +infinity, and is stable: the routes of any one
    priority, and those without priority, keep their declaration order.
    In particular [{priority:5,name:A}, {name:B}, {priority:5,name:C}]
    sorts to [A, C, B]. *)
Theorem sortRoutesByPriority_stable :
  (forall routes,
     Permutation routes (sortRoutesByPriority routes) /\
     StronglySorted priorityLe (sortRoutesByPriority routes) /\
     forall p, filter (hasPriority p) (sortRoutesByPriority routes)
               = filter (hasPriority p) routes) /\
  sortRoutesByPriority
    [namedRoute "A" (Some 5%Z); namedRoute "B" None; namedRoute "C" (Some 5%Z)]
  = [namedRoute "A" (Some 5%Z); namedRoute "C" (Some 5%Z); namedRoute "B" None].
Proof.
  split; [|reflexivity].
  intros routes. split; [apply sort_permutation|].
  split; [apply sort_ascending|]. intros p. apply sort_stable.
Qed.

End UtilsProperties.

(* ================================================================== *)
(** ** Properties of the template engine *)

Module TemplateProperties.
Import JsString Json JsonShape TemplateEngine TemplateSpec Tame.
Import StringFacts TemplateFacts.

Section Engine.
Context {number : Type} {NumberOps : JsNumber number}.

Lemma processFallbackValue_forms fallbackValue (context : value number) :
  processFallbackValue fallbackValue context
  = fallbackValueOf (fallbackFormOf fallbackValue) fallbackValue context.
Proof.
  unfold processFallbackValue, fallbackFormOf.
  destruct (delimitedBy "'" fallbackValue || delimitedBy "034" fallbackValue);
    [reflexivity|].
  destruct (fallbackValue =? "null")%string; [reflexivity|].
  destruct (fallbackValue =? "true")%string; [reflexivity|].
  destruct (fallbackValue =? "false")%string; [reflexivity|].
  destruct (isNumericLiteral fallbackValue); reflexivity.
Qed.


(** C3, amended.  A token [path || fallback] whose path and fallback
    each stay on one line: a path without line terminator, then the first
    two bars in a row of the token, with nothing but white space around
    them, and a fallback without line terminator.  A path that resolves,
    to whatever value, gives the string of that value, and the fallback is
    not looked at.  When the path is not found, the fallback is evaluated,
    as the first of: quoted string, [null], [true] or [false], numeric
    literal, another path; its string is used, and when it does not
    resolve either, the token is missing.  In particular
    [missing.path || 'USD'] gives [USD] in a context without [missing].
    The paths look up own properties, and the value that is found
    converts to a string. *)
Theorem fallback_token_precedence :
  (forall (context : value number) (path ws1 ws2 fallback : string),
     endsClean path = true -> allChars notLineTerminator path = true ->
     allChars isWhiteSpace ws1 = true -> allChars isWhiteSpace ws2 = true ->
     includes "||" (path ++ ws1 ++ "|") = false ->
     startsClean fallback = true ->
     allChars notLineTerminator fallback = true ->
     let expression := (path ++ ws1 ++ "||" ++ ws2 ++ fallback)%string in
     let fallbackValue :=
       fallbackValueOf (fallbackFormOf (trim fallback)) (trim fallback) context in
     (forall v,
        getValueByPath (trim path) context = Some v ->
        stringifiable v = true ->
        resolveTokenExpression expression context = toString v) /\
     (getValueByPath (trim path) context = None ->
      ownPath (trim path) context = true ->
      ownFallback (trim fallback) context = true ->
      forall f, fallbackValue = Some f ->
        stringifiable f = true ->
        resolveTokenExpression expression context = toString f) /\
     (getValueByPath (trim path) context = None ->
      ownPath (trim path) context = true ->
      ownFallback (trim fallback) context = true ->
      fallbackValue = None ->
      resolveTokenExpression expression context = MISSING_VALUE)) /\
  (forall fields : list (string * value number),
     lookup "missing" fields = None ->
     resolveTokenExpression "missing.path || 'USD'" (VObj fields) = "USD").
Proof.
  split.
  - intros context path ws1 ws2 fallback Hend Hline H1 H2 Hbars Hs Hfb
      expression fallbackValue.
    unfold resolveTokenExpression. subst expression.
    rewrite fallbackMatch_first_bars by assumption.
    subst fallbackValue. rewrite <- processFallbackValue_forms.
    split; [|split].
    + intros v -> _. reflexivity.
    + intros -> _ _ f -> _. reflexivity.
    + intros -> _ _ ->. reflexivity.
  - intros fields Hlookup. unfold resolveTokenExpression.
    change (fallbackMatch "missing.path || 'USD'")
      with (Some ("missing.path", "'USD'")).
    cbv beta iota.
    change (trim "missing.path") with "missing.path".
    change (trim "'USD'") with "'USD'".
    unfold getValueByPath.
    change (split "." "missing.path") with ["missing"; "path"].
    cbn [walk]. rewrite Hlookup. reflexivity.
Qed.

(** What the fallback pattern does not recognise is no fallback: a line
    terminator inside the fallback makes the whole expression a path. *)
Lemma fallback_on_two_lines_unrecognised :
  fallbackMatch ("x || 'a" ++ String LF "b'") = None /\
  resolveTokenExpression ("x || 'a" ++ String LF "b'") (@VObj number [])
  = MISSING_VALUE.
Proof. split; reflexivity. Qed.

(** A lone quote mark starts and ends with a quote mark: it is the empty
    string literal. *)
Lemma fallback_lone_quote_is_empty :
  resolveTokenExpression "x || '" (@VObj number []) = "".
Proof. reflexivity. Qed.

(** C5.  A path that leads to a value gives that value, be it [null],
    [false], [0] or the empty string, and not "missing":
    [resolve("a.b", {a:{b:null}})] is [null].  A leaf that is the token
    [{{a.b}}] renders to the string of that value, [null] for [null],
    whenever the value converts to a string. *)
Theorem present_value_is_not_missing :
  (forall (context : value number) (parts : list string) (v : value number),
     parts <> [] ->
     Forall (fun p => includesChar "." p = false) parts ->
     reaches context parts v ->
     getValueByPath (join "." parts) context = Some v) /\
  (forall v : value number,
     getValueByPath "a.b" (VObj [("a", VObj [("b", v)])]) = Some v) /\
  (forall v : value number,
     stringifiable v = true ->
     includes MISSING_VALUE (toString v) = false ->
     resolveTokens (VStr "{{a.b}}") (VObj [("a", VObj [("b", v)])])
     = Some (VStr (toString v))) /\
  getValueByPath "a.b" (@VObj number [("a", VObj [("b", VNull)])]) = Some VNull /\
  resolveTokens (VStr "{{a.b}}") (@VObj number [("a", VObj [("b", VNull)])])
  = Some (VStr "null").
Proof.
  split; [intros; now apply getValueByPath_reaches|].
  split; [reflexivity|].
  split; [|split; reflexivity].
  intros v _ Hv. cbn [resolveTokens]. unfold resolveStringTokens, resolvedString.
  change (segments "{{a.b}}") with [Token "a.b"].
  cbn [hasToken negb substitute].
  change (resolveTokenExpression (trim "a.b") (VObj [("a", VObj [("b", v)])]))
    with (toString v).
  rewrite append_nil_r, Hv. reflexivity.
Qed.

(** C10.  A leaf with tokens is kept or left out by a search of the
    substituted string for the marker.  So there is a context in which
    every token of a leaf resolves to a present value, and the leaf is left
    out all the same, because the string of a value holds the marker. *)
Theorem marker_in_value_omits_leaf :
  (forall (leaf : string) (context : value number),
     resolveStringTokens leaf context
     = if hasToken (segments leaf) then
         if includes MISSING_VALUE (resolvedString leaf context) then None
         else Some (resolvedString leaf context)
       else Some leaf) /\
  (exists (leaf : string) (context : value number),
     hasToken (segments leaf) = true /\
     (forall expression, In (Token expression) (segments leaf) ->
        exists v,
          getValueByPath (trim expression) context = Some v /\
          resolveTokenExpression (trim expression) context = toString v /\
          includes MISSING_VALUE (toString v) = true) /\
     resolveStringTokens leaf context = None /\
     resolveTokens (VObj [("k", VStr leaf)]) context = Some (VObj [])).
Proof.
  split.
  - intros leaf context. unfold resolveStringTokens.
    destruct (hasToken (segments leaf)); reflexivity.
  - exists "{{x}}", (VObj [("x", VStr MISSING_VALUE)]).
    split; [reflexivity|]. split; [|split; reflexivity].
    intros expression [H|[]]. injection H as <-.
    exists (VStr MISSING_VALUE). repeat split; reflexivity.
Qed.

End Engine.

Import DecimalNumbers.


(** C3 at work: [missing.path || 'USD'] in the empty context. *)
Lemma fallback_token_precedence_witness :
  endsClean "missing.path" = true /\
  allChars notLineTerminator "missing.path" = true /\
  allChars isWhiteSpace " " = true /\
  includes "||" ("missing.path" ++ " " ++ "|") = false /\
  startsClean "'USD'" = true /\
  allChars notLineTerminator "'USD'" = true /\
  getValueByPath (trim "missing.path") (@VObj string []) = None /\
  ownPath (trim "missing.path") (@VObj string []) = true /\
  ownFallback (trim "'USD'") (@VObj string []) = true /\
  resolveTokenExpression "missing.path || 'USD'" (@VObj string []) = "USD".
Proof.
  repeat (split; [reflexivity|]).
  exact (proj1 (proj2 (proj1 (@fallback_token_precedence string DecimalNumbers.canonicalNumber)
                         (VObj []) "missing.path" " " " " "'USD'"
                         eq_refl eq_refl eq_refl eq_refl eq_refl eq_refl
                         eq_refl))
           eq_refl eq_refl eq_refl (VStr "USD") eq_refl eq_refl).
Defined.

(** C3 as first stated fails: the path [x] is not found in [{}], and the
    fallback is a quoted string, which the specification reads as the
    string between the quote marks; it holds a line terminator, the
    pattern that finds the bars does not cross it, and the token is
    missing: its leaf is left out. *)
Lemma fallback_across_lines_not_evaluated :
  getValueByPath "x" (@VObj string []) = None /\
  fallbackFormOf ("'a" ++ String LF "b'")
  = QuotedString ("a" ++ String LF "b") /\
  specFallbackToken "x" ("'a" ++ String LF "b'") (@VObj string [])
  = ("a" ++ String LF "b")%string /\
  resolveTokenExpression ("x || 'a" ++ String LF "b'") (@VObj string [])
  = MISSING_VALUE /\
  resolveTokenExpression ("x || 'a" ++ String LF "b'") (@VObj string [])
  <> specFallbackToken "x" ("'a" ++ String LF "b'") (@VObj string []) /\
  resolveTokens (VStr ("{{x || 'a" ++ String LF "b'}}")) (@VObj string []) = None.
Proof.
  split; [reflexivity|]. split; [reflexivity|]. split; [reflexivity|].
  split; [reflexivity|]. split; [|reflexivity].
  intros H. vm_compute in H. discriminate H.
Qed.

(** C5 at work: the walk to the [null] of [{a:{b:null}}]. *)
Lemma present_value_is_not_missing_witness :
  reaches (@VObj string [("a", VObj [("b", VNull)])]) ["a"; "b"] VNull /\
  getValueByPath (join "." ["a"; "b"]) (@VObj string [("a", VObj [("b", VNull)])])
  = Some VNull.
Proof.
  assert (reaches (@VObj string [("a", VObj [("b", VNull)])]) ["a"; "b"] VNull)
    as Hr.
  { eapply reaches_key; [reflexivity|].
    eapply reaches_key; [reflexivity|]. apply reaches_here. }
  split; [exact Hr|].
  apply (proj1 (@present_value_is_not_missing string DecimalNumbers.canonicalNumber));
    [discriminate | repeat constructor | exact Hr].
Defined.

End TemplateProperties.

(* ================================================================== *)
(** ** Properties of the router *)

Module RouterProperties.
Import JsString Json JsonShape Config Utils Auth TemplateEngine Router RouterSpec.
Import Tame RouterFacts.

(** *** C1 *)

(** C1.  When no pattern of the list makes [new RegExp] throw, the scan
    returns the qualifying routes in order, up to and including the first
    one that does not have [multi: true]: the multi routes ahead of it stay
    in the result, and nothing behind it is added. *)
Theorem findMatchingRoutes_short_circuit :
  forall (rs : list Route) (eventName requestMethod : string),
    Forall (fun r => matchesWildcard (event_match r) eventName <> None) rs ->
    let qualifying := filter (qualifies eventName requestMethod) rs in
    findMatchingRoutes rs eventName requestMethod
    = Returned (stopAfterSingle qualifying) /\
    (forall before r behind,
       qualifying = before ++ r :: behind ->
       Forall isMulti before -> flag (multi r) = false ->
       findMatchingRoutes rs eventName requestMethod = Returned (before ++ [r])) /\
    (Forall isMulti qualifying ->
     findMatchingRoutes rs eventName requestMethod = Returned qualifying).
Proof.
  intros rs eventName requestMethod Hok qualifying.
  pose proof (findMatchingRoutes_collects rs eventName requestMethod Hok) as H.
  fold qualifying in H. split; [exact H|]. split.
  - intros before r behind Hq Hbefore Hr.
    rewrite H, Hq. now rewrite stopAfterSingle_first_single.
  - intros Hall. rewrite H. now rewrite stopAfterSingle_all_multi.
Qed.

(** For the qualifying routes [R1 (multi), R2 (single), R3 (multi)] the
    result is [R1, R2]. *)
Lemma findMatchingRoutes_short_circuit_witness :
  Forall (fun r => matchesWildcard (event_match r) "purchase" <> None)
         [R1; R2; R3] /\
  filter (qualifies "purchase" "POST") [R1; R2; R3] = [R1; R2; R3] /\
  findMatchingRoutes [R1; R2; R3] "purchase" "POST" = Returned [R1; R2].
Proof.
  assert (Forall (fun r => matchesWildcard (event_match r) "purchase" <> None)
                 [R1; R2; R3]) as Hok
    by (repeat constructor; discriminate).
  split; [exact Hok|]. split; [reflexivity|].
  exact (proj1 (proj2 (findMatchingRoutes_short_circuit
                         [R1; R2; R3] "purchase" "POST" Hok))
           [R1] R2 [R3] eq_refl
           (Forall_cons R1 eq_refl (Forall_nil isMulti)) eq_refl).
Defined.

(** *** C4 *)

(** A route without [methods] is in no result of the scan. *)
Lemma absent_methods_never_match rs eventName requestMethod matched r :
  methods r = None ->
  findMatchingRoutes rs eventName requestMethod = Returned matched ->
  ~ In r matched.
Proof.
  intros Hr Hfind Hin.
  pose proof (findMatchingRoutes_accepting _ _ _ _ Hfind) as Hacc.
  rewrite Forall_forall in Hacc. specialize (Hacc r Hin).
  rewrite (acceptsMethod_absent r requestMethod Hr) in Hacc. discriminate.
Qed.

Section Dispatch.
Context {number : Type} {NumberOps : JsNumber number}.
Variable debugLogging : bool.
Variable files : string -> templateFile number.
Variable normalizeGetPayload : list (string * string) -> value number.
Variable world : Type.
Variable axiosPost :
  world -> string -> list (string * string) -> option (value number) ->
  world * PostOutcome.

(** C4 fails on the code.  The route [undeclared] has no [methods]; its
    pattern is the event name of the request.  The scan of a POST leaves
    it out, and the method gate answers 405 with [Allow: POST], the one
    place where the default is applied. *)
Theorem absent_methods_exclude_route :
  forall (now : number) (w : world),
    matchesWildcard (event_match undeclared) "purchase" = Some true /\
    findMatchingRoutes [undeclared] "purchase" "POST" = Returned [] /\
    validateRequestMethod "POST" [undeclared] = Some ["POST"] /\
    processRequest debugLogging files normalizeGetPayload axiosPost
      (initialize [undeclared]) (postEvent "purchase") now w
    = (w, {| statusCode := 405; allowHeader := Some "POST";
             responseBody := ErrorBody "Method Not Allowed" |}).
Proof. intros now w. repeat split; reflexivity. Qed.

(** *** C8 *)


(** *** C9 *)


End Dispatch.

Import DecimalNumbers.



End RouterProperties.

(* ================================================================== *)
(** ** Facts about JSON data *)

Module JsonFacts.
Import JsString Json JsonShape.

Lemma distinct_NoDup keys : distinct keys = true -> NoDup keys.
Proof.
  induction keys as [|k keys IH]; simpl; intros H; constructor.
  - apply andb_prop in H as [H _]. intros Hin.
    assert (existsb (String.eqb k) keys = true) as E.
    { apply existsb_exists. exists k. split; [exact Hin | apply String.eqb_refl]. }
    now rewrite E in H.
  - apply andb_prop in H as [_ H]. now apply IH.
Qed.

Section Values.
Context {number : Type}.

(** Induction on a value, with the hypothesis for the members of arrays
    and objects. *)
Lemma value_nested_ind (P : value number -> Prop) :
  P VNull -> (forall b, P (VBool b)) -> (forall n, P (VNum n)) ->
  (forall s, P (VStr s)) ->
  (forall items, Forall P items -> P (VArr items)) ->
  (forall fields, Forall (fun kv => P (snd kv)) fields -> P (VObj fields)) ->
  forall v, P v.
Proof.
  intros HNull HBool HNum HStr HArr HObj. fix IH 1.
  intros [|b|n|s|items|fields];
    [exact HNull | apply HBool | apply HNum | apply HStr | |].
  - apply HArr. induction items as [|x items IHitems]; constructor;
      [apply IH | exact IHitems].
  - apply HObj. induction fields as [|[k x] fields IHfields]; constructor;
      [apply IH | exact IHfields].
Qed.

Lemma lookup_setField (key k : string) (v : value number) fields :
  lookup k (setField key v fields)
  = if (k =? key)%string then Some v else lookup k fields.
Proof.
  induction fields as [|[k' old] fields IH]; cbn [setField lookup].
  - rewrite (String.eqb_sym key k). reflexivity.
  - destruct (String.eqb_spec k' key) as [->|Hne]; cbn [lookup].
    + rewrite (String.eqb_sym key k). now destruct (k =? key)%string.
    + rewrite IH. destruct (String.eqb_spec k' k) as [->|Hk]; [|reflexivity].
      apply String.eqb_neq in Hne. now rewrite Hne.
Qed.

Lemma setField_fresh key (v : value number) fields :
  ~ In key (map fst fields) -> setField key v fields = fields ++ [(key, v)].
Proof.
  induction fields as [|[k old] fields IH]; simpl; intros Hin; [reflexivity|].
  destruct (String.eqb_spec k key) as [->|Hne]; [tauto|].
  rewrite IH by tauto. reflexivity.
Qed.

Lemma setField_In key (v : value number) fields k :
  In k (map fst (setField key v fields)) <-> k = key \/ In k (map fst fields).
Proof.
  induction fields as [|[k' old] fields IH]; simpl.
  - intuition congruence.
  - destruct (String.eqb_spec k' key) as [->|Hne]; simpl.
    + intuition congruence.
    + rewrite IH. intuition congruence.
Qed.

Lemma setField_NoDup key (v : value number) fields :
  NoDup (map fst fields) -> NoDup (map fst (setField key v fields)).
Proof.
  induction fields as [|[k old] fields IH]; simpl; intros H.
  - repeat constructor. intros [].
  - inversion H as [|? ? Hk Hrest]; subst.
    destruct (String.eqb_spec k key) as [->|Hne]; simpl.
    + now constructor.
    + constructor; [|now apply IH].
      rewrite setField_In. intuition congruence.
Qed.

(** An assignment keeps the keys distinct, adds at most its own key, and
    never the key [__proto__]. *)
Lemma assign_keys key (v : value number) fields :
  NoDup (map fst fields) -> ~ In "__proto__" (map fst fields) ->
  NoDup (map fst (assign key v fields)) /\
  ~ In "__proto__" (map fst (assign key v fields)) /\
  (forall k, In k (map fst (assign key v fields)) ->
             k = key \/ In k (map fst fields)).
Proof.
  intros Hnd Hproto. unfold assign.
  destruct (String.eqb_spec key "__proto__") as [->|Hne].
  - auto.
  - split; [now apply setField_NoDup|]. split.
    + rewrite setField_In. intuition congruence.
    + intros k. now rewrite setField_In.
Qed.

(** Assigning a new key, other than [__proto__], appends it. *)
Lemma assign_fresh key (v : value number) fields :
  key <> "__proto__" -> ~ In key (map fst fields) ->
  assign key v fields = fields ++ [(key, v)].
Proof.
  intros Hne Hin. unfold assign. apply String.eqb_neq in Hne. rewrite Hne.
  now apply setField_fresh.
Qed.

Lemma wellKeyed_object reserved (fields : list (string * value number)) :
  wellKeyed reserved (VObj fields) = true ->
  NoDup (map fst fields) /\
  Forall (fun kv => ~ In (fst kv) reserved /\ wellKeyed reserved (snd kv) = true)
         fields.
Proof.
  cbn [wellKeyed]. intros H.
  apply andb_prop in H as [H Hsub]. apply andb_prop in H as [Hd Hres].
  split; [now apply distinct_NoDup|].
  rewrite forallb_forall in Hres, Hsub. apply Forall_forall. intros kv Hkv.
  split; [|now apply Hsub].
  specialize (Hres kv Hkv). intros Hin.
  assert (existsb (String.eqb (fst kv)) reserved = true) as E.
  { apply existsb_exists. exists (fst kv). split; [exact Hin | apply String.eqb_refl]. }
  now rewrite E in Hres.
Qed.

End Values.

End JsonFacts.

(* ================================================================== *)
(** ** Further properties of src/utils.js *)

Module UtilsCoverage.
Import JsString RegExp Json Config Utils UtilsSpec WildcardFacts SortFacts.
Import StringFacts.

Lemma StronglySorted_both {A : Type} (R1 R2 : A -> A -> Prop) l :
  StronglySorted R1 l -> StronglySorted R2 l ->
  StronglySorted (fun a b => R1 a b /\ R2 a b) l.
Proof.
  induction l as [|a l IH]; intros H1 H2; [constructor|].
  apply StronglySorted_inv in H1 as [H1 Ha1].
  apply StronglySorted_inv in H2 as [H2 Ha2].
  constructor; [now apply IH|].
  rewrite Forall_forall in *. intros x Hx. split; auto.
Qed.

Lemma StronglySorted_map_entry (R : Route -> Route -> Prop) l :
  StronglySorted R (map entry l) ->
  StronglySorted (fun a b => R (entry a) (entry b)) l.
Proof.
  induction l as [|a l IH]; simpl; intros H; [constructor|].
  apply StronglySorted_inv in H as [H Ha].
  constructor; [now apply IH|].
  rewrite Forall_forall in *. intros x Hx. apply Ha. now apply in_map.
Qed.

(** The indexed routes of a table in ascending priority stand in the
    order of the comparator. *)
Lemma withIndex_inOrder routes :
  StronglySorted priorityLe routes ->
  StronglySorted inOrder (withIndex routes).
Proof.
  intros Hs.
  apply StronglySorted_on
    with (R := fun a b => priorityLe (entry a) (entry b) /\
                          originalIndex a < originalIndex b).
  - intros a b _ _ [Hp Hi]. apply inOrder_iff. unfold after, priorityLe in *.
    destruct (priority (entry a)), (priority (entry b)); lia.
  - apply StronglySorted_both; [|apply withIndex_sorted].
    apply StronglySorted_map_entry. now rewrite withIndex_entries.
Qed.

Lemma sort_fixes_sorted routes :
  StronglySorted priorityLe routes -> sortRoutesByPriority routes = routes.
Proof.
  intros Hs. unfold sortRoutesByPriority.
  rewrite <- (sort_algorithm_independent routes (withIndex routes));
    [apply withIndex_entries | reflexivity | now apply withIndex_inOrder].
Qed.

(** X1.  A table that is already in ascending priority (absent priority
    last) comes back from [sortRoutesByPriority] as it is; so sorting
    twice is sorting once. *)
Theorem sortRoutesByPriority_idempotent :
  (forall routes,
     StronglySorted priorityLe routes -> sortRoutesByPriority routes = routes) /\
  (forall routes,
     sortRoutesByPriority (sortRoutesByPriority routes)
     = sortRoutesByPriority routes).
Proof.
  split; [exact sort_fixes_sorted|].
  intros routes. apply sort_fixes_sorted, sort_ascending.
Qed.

Lemma sortRoutesByPriority_idempotent_witness :
  StronglySorted priorityLe
    [namedRoute "A" (Some 1%Z); namedRoute "B" (Some 5%Z); namedRoute "C" None] /\
  sortRoutesByPriority
    [namedRoute "A" (Some 1%Z); namedRoute "B" (Some 5%Z); namedRoute "C" None]
  = [namedRoute "A" (Some 1%Z); namedRoute "B" (Some 5%Z); namedRoute "C" None].
Proof.
  assert (StronglySorted priorityLe
            [namedRoute "A" (Some 1%Z); namedRoute "B" (Some 5%Z);
             namedRoute "C" None]) as Hs.
  { repeat first [ apply SSorted_nil | apply SSorted_cons
                 | apply Forall_nil | apply Forall_cons ];
      unfold priorityLe; simpl; first [ lia | exact I ]. }
  split; [exact Hs|].
  exact (proj1 sortRoutesByPriority_idempotent _ Hs).
Defined.

(** A pattern that is one star matches the values without line
    terminator. *)
Lemma glob_star any v : globMatch any "*" v = allChars any v.
Proof.
  induction v as [|a v IH]; [reflexivity|].
  change (globMatch any "*" (String a v))
    with ((any a && globMatch any "*" v) || globMatch any "" (String a v)).
  rewrite IH. simpl. apply orb_false_r.
Qed.

Lemma glob_literal_prefix any prefix v :
  includesChar "*" prefix = false ->
  globMatch any (prefix ++ "*") v = true <->
  exists rest : string, v = (prefix ++ rest)%string /\ allChars any rest = true.
Proof.
  revert v. induction prefix as [|c p IH]; intros v Hstar.
  - cbn [append]. rewrite glob_star. split.
    + intros H. now exists v.
    + intros [rest [-> H]]. exact H.
  - simpl in Hstar. apply orb_false_elim in Hstar as [Hc Hp].
    cbn [append globMatch]. rewrite Hc. destruct v as [|a v].
    + split; [discriminate | intros [rest [H _]]; discriminate].
    + rewrite andb_true_iff, (IH v Hp), Ascii.eqb_eq. split.
      * intros [-> [rest [-> H]]]. now exists rest.
      * intros [rest [H Hrest]]. injection H as -> ->. split; [reflexivity|].
        now exists rest.
Qed.

Lemma includesChar_append c a b :
  includesChar c (a ++ b) = includesChar c a || includesChar c b.
Proof.
  induction a as [|x a IH]; simpl; [reflexivity|].
  now rewrite IH, orb_assoc.
Qed.

(** X2.  A pattern that is a literal prefix followed by one star, such as
    [purchase.*], never throws, and matches exactly the values that start
    with the prefix and hold no line terminator behind it. *)
Theorem matchesWildcard_prefix :
  forall prefix value : string,
    prefix <> EmptyString ->
    includesChar "*" prefix = false -> includesChar "?" prefix = false ->
    matchesWildcard (prefix ++ "*") value <> None /\
    (matchesWildcard (prefix ++ "*") value = Some true <->
     exists rest : string,
       value = (prefix ++ rest)%string /\
       allChars (fun c => negb (isLineTerminator c)) rest = true).
Proof.
  intros prefix value Hne Hstar Hq.
  assert (includesChar "?" (prefix ++ "*") = false) as Hq'
    by (rewrite includesChar_append, Hq; reflexivity).
  rewrite (matchesWildcard_code _ value Hq'). split; [discriminate|].
  unfold codeMatches.
  assert ((prefix ++ "*" =? "*")%string = false) as ->.
  { apply String.eqb_neq. destruct prefix as [|c [|d p]]; try congruence.
    - simpl. intros H. injection H as ->. discriminate.
    - discriminate. }
  assert (includesChar "*" (prefix ++ "*") = true) as ->
    by (rewrite includesChar_append; simpl; apply orb_true_r).
  cbn [negb]. rewrite <- (glob_literal_prefix _ prefix value Hstar).
  split; [now intros [= ->] | now intros ->].
Qed.

Lemma matchesWildcard_prefix_witness :
  "purchase." <> EmptyString /\
  includesChar "*" "purchase." = false /\ includesChar "?" "purchase." = false /\
  matchesWildcard ("purchase." ++ "*") "purchase.refund" <> None.
Proof.
  split; [discriminate|]. split; [reflexivity|]. split; [reflexivity|].
  exact (proj1 (matchesWildcard_prefix "purchase." "purchase.refund"
                  ltac:(discriminate) eq_refl eq_refl)).
Defined.

End UtilsCoverage.

(* ================================================================== *)
(** ** Further properties of the template engine *)

Module TemplateCoverage.
Import JsString Json JsonShape TemplateEngine TemplateSpec Tame.
Import StringFacts JsonFacts TemplateFacts.

Lemma split_nonempty sep s : split sep s <> [].
Proof.
  destruct s as [|a s]; simpl; [discriminate|].
  destruct (a =? sep)%char; [discriminate|].
  destruct (split sep s); discriminate.
Qed.

(** Splitting a string that holds a separator between two parts splits
    the parts. *)
Lemma split_append_any sep p q :
  split sep (p ++ String sep q) = split sep p ++ split sep q.
Proof.
  induction p as [|a p IH]; cbn [append split].
  - now rewrite Ascii.eqb_refl.
  - rewrite IH. destruct (a =? sep)%char; [reflexivity|].
    pose proof (split_nonempty sep p) as Hne.
    destruct (split sep p); [congruence | reflexivity].
Qed.

Lemma takeWhile_append f e c rest :
  allChars f e = true -> f c = false ->
  takeWhile f (e ++ String c rest) = e.
Proof.
  intros He Hc. induction e as [|a e IH]; simpl.
  - now rewrite Hc.
  - simpl in He. apply andb_prop in He as [Ha He]. now rewrite Ha, IH.
Qed.

Lemma dropWhile_until f e c rest :
  allChars f e = true -> f c = false ->
  dropWhile f (e ++ String c rest) = String c rest.
Proof.
  intros He Hc. rewrite dropWhile_append by assumption.
  simpl. now rewrite Hc.
Qed.

Lemma allChars_notClosingBrace e :
  includesChar "}" e = false -> allChars notClosingBrace e = true.
Proof.
  induction e as [|a e IH]; simpl; [reflexivity|].
  intros H. apply orb_false_elim in H as [Ha He].
  unfold notClosingBrace at 1. now rewrite Ha, IH.
Qed.

Lemma matchToken_starts s e : matchToken s = Some e -> startsWith "{{" s = true.
Proof.
  destruct s as [|a [|b s]]; try discriminate.
  - simpl. destruct a as [[] [] [] [] [] [] [] []]; discriminate.
  - unfold matchToken.
    destruct (Ascii.eqb_spec a "{") as [->|Ha];
      [destruct (Ascii.eqb_spec b "{") as [->|Hb]; [reflexivity|]|].
    + destruct b as [[] [] [] [] [] [] [] []]; try discriminate; congruence.
    + destruct a as [[] [] [] [] [] [] [] []]; try discriminate; congruence.
Qed.

Lemma matchToken_first c s : (c =? "{")%char = false -> matchToken (String c s) = None.
Proof.
  intros Hc. destruct (matchToken (String c s)) as [e|] eqn:E; [|reflexivity].
  apply matchToken_starts in E. cbn [startsWith] in E.
  rewrite Ascii.eqb_sym, Hc in E. discriminate.
Qed.

(** The pattern at the start of a well-delimited token. *)
Lemma matchToken_at e rest :
  e <> EmptyString -> includesChar "}" e = false ->
  matchToken ("{{" ++ e ++ "}}" ++ rest) = Some e.
Proof.
  intros Hne He. apply allChars_notClosingBrace in He.
  change ("{{" ++ e ++ "}}" ++ rest)%string
    with (String "{" (String "{" (e ++ String "}" (String "}" rest)))).
  cbv beta iota delta [matchToken].
  rewrite takeWhile_append, dropWhile_until by (assumption || reflexivity).
  destruct e as [|a e]; [congruence | reflexivity].
Qed.

Lemma segmentsFrom_skip x rest :
  segmentsFrom (String.length x) (x ++ rest) = segmentsFrom 0 rest.
Proof.
  induction x as [|c x IH]; [reflexivity|]. exact IH.
Qed.

Lemma length_append (a b : string) :
  String.length (a ++ b) = String.length a + String.length b.
Proof. induction a as [|c a IH]; simpl; [reflexivity | now rewrite IH]. Qed.

Lemma segments_token e rest :
  e <> EmptyString -> includesChar "}" e = false ->
  segments ("{{" ++ e ++ "}}" ++ rest) = Token e :: segments rest.
Proof.
  intros Hne He. unfold segments.
  pose proof (matchToken_at e rest Hne He) as Hm.
  change ("{{" ++ e ++ "}}" ++ rest)%string
    with (String "{" (String "{" (e ++ "}}" ++ rest))) in *.
  cbn [segmentsFrom]. rewrite Hm. f_equal.
  rewrite <- (append_assoc e "}}" rest).
  change (String "{" ((e ++ "}}") ++ rest))
    with (String "{" (e ++ "}}") ++ rest)%string.
  replace (String.length e + 3) with (String.length (String "{" (e ++ "}}"))).
  - apply segmentsFrom_skip.
  - cbn [String.length]. rewrite length_append. simpl. lia.
Qed.

(** Text without an opening brace is cut into its characters. *)
Lemma segments_literal_prefix fn prefix rest :
  includesChar "{" prefix = false ->
  substitute fn (segments (prefix ++ rest))
  = (prefix ++ substitute fn (segments rest))%string /\
  hasToken (segments (prefix ++ rest)) = hasToken (segments rest).
Proof.
  unfold segments. induction prefix as [|c p IH]; cbn [append]; [now split|].
  intros H. simpl in H. apply orb_false_elim in H as [Hc Hp].
  cbn [segmentsFrom]. rewrite (matchToken_first _ _ Hc).
  destruct (IH Hp) as [IH1 IH2]. cbn [substitute hasToken].
  now rewrite IH1, IH2.
Qed.

Lemma segments_no_token s :
  includes "{{" s = false -> hasToken (segments s) = false.
Proof.
  unfold segments. induction s as [|c s IH]; [reflexivity|].
  intros H. cbn [includes] in H. apply orb_false_elim in H as [Hhere Hlater].
  cbn [segmentsFrom].
  destruct (matchToken (String c s)) as [e|] eqn:E.
  - apply matchToken_starts in E. congruence.
  - cbn [hasToken]. now apply IH.
Qed.

Section Engine.
Context {number : Type} {NumberOps : JsNumber number}.

Lemma walk_undefined parts :
  parts <> [] -> walk parts (@None (value number)) = None.
Proof. destruct parts; [congruence | reflexivity]. Qed.

(** The walk along two lists of segments is one walk after the other. *)
Lemma walk_append (a b : list string) :
  b <> [] ->
  forall current : option (value number),
    walk (a ++ b) current = walk b (walk a current).
Proof.
  intros Hb. induction a as [|part rest IH]; intros current; [reflexivity|].
  cbn [app walk].
  destruct current as [[| | | |items|fields]|];
    try (now rewrite walk_undefined).
  - destruct (isIndex part); apply IH.
  - apply IH.
Qed.

(** X3.  Paths compose: the path [p.q] leads where [q] leads from the
    value that [p] leads to, and nowhere when [p] leads nowhere. *)
Theorem getValueByPath_composes :
  forall (p q : string) (context : value number),
    getValueByPath (p ++ "." ++ q) context
    = match getValueByPath p context with
      | Some v => getValueByPath q v
      | None => None
      end.
Proof.
  intros p q context. unfold getValueByPath.
  change (p ++ "." ++ q)%string with (p ++ String "." q)%string.
  rewrite split_append_any, walk_append by apply split_nonempty.
  destruct (walk (split "." p) (Some context));
    [reflexivity | apply walk_undefined, split_nonempty].
Qed.

(** X4.  No path leads out of [null], a boolean, a number or a string:
    on such a context every path, the empty one included, is not found. *)
Theorem getValueByPath_scalar_context :
  forall path : string,
    getValueByPath path (@VNull number) = None /\
    (forall b, getValueByPath path (@VBool number b) = None) /\
    (forall n : number, getValueByPath path (VNum n) = None) /\
    (forall s, getValueByPath path (@VStr number s) = None).
Proof.
  intros path. unfold getValueByPath.
  pose proof (split_nonempty "." path) as Hne.
  destruct (split "." path) as [|part rest]; [congruence|].
  repeat split; reflexivity.
Qed.

(** X5.  In the context of a template the key [meta] is the request
    metadata, whatever the payload holds under that key: [meta] and
    [meta.x] always read the metadata, and a path whose first segment is
    another key reads the payload. *)
Theorem context_meta_shadows_payload :
  forall (payload meta : value number),
    getValueByPath "meta" (contextOf payload meta) = Some meta /\
    (forall path,
       getValueByPath ("meta." ++ path) (contextOf payload meta)
       = getValueByPath path meta) /\
    (forall path,
       hd "" (split "." path) <> "meta" ->
       getValueByPath path (contextOf payload meta)
       = getValueByPath path (VObj (spread payload))).
Proof.
  intros payload meta. unfold getValueByPath. repeat split.
  - change (split "." "meta") with ["meta"]. cbn [walk contextOf].
    now rewrite lookup_setField.
  - intros path.
    change ("meta." ++ path)%string with ("meta" ++ String "." path)%string.
    rewrite split_append_any, walk_append by apply split_nonempty.
    change (split "." "meta") with ["meta"]. cbn [walk contextOf].
    now rewrite lookup_setField.
  - intros path Hhd.
    pose proof (split_nonempty "." path) as Hne.
    destruct (split "." path) as [|part rest]; [congruence|].
    cbn [walk contextOf]. rewrite lookup_setField.
    apply String.eqb_neq in Hhd. simpl in Hhd. now rewrite Hhd.
Qed.

Lemma resolveItems_kept (resolve : value number -> option (value number)) items :
  Forall (fun x => resolve x = Some x) items ->
  resolveItems resolve items = items.
Proof.
  induction 1 as [|x items Hx _ IH]; simpl; [reflexivity|].
  now rewrite Hx, IH.
Qed.

Lemma resolveFields_kept (resolve : value number -> option (value number)) fields :
  forall result,
    NoDup (map fst result ++ map fst fields) ->
    Forall (fun kv => fst kv <> "__proto__" /\ resolve (snd kv) = Some (snd kv))
           fields ->
    resolveFields resolve fields result = result ++ fields.
Proof.
  induction fields as [|[k v] fields IH]; intros result Hnd Hall; simpl.
  - now rewrite app_nil_r.
  - inversion Hall as [|? ? [Hk Hv] Hrest]; subst. simpl in Hk, Hv.
    rewrite Hv. simpl in Hnd.
    rewrite assign_fresh;
      [|exact Hk
       |intros Hin; apply NoDup_remove_2 in Hnd; apply Hnd, in_or_app; now left].
    rewrite IH; [now rewrite <- app_assoc | | exact Hrest].
    rewrite map_app, <- app_assoc. exact Hnd.
Qed.

Lemma resolveItems_length (resolve : value number -> option (value number)) items :
  List.length (resolveItems resolve items) <= List.length items.
Proof.
  induction items as [|x items IH]; simpl; [lia|].
  destruct (resolve x); simpl; lia.
Qed.

Lemma resolveFields_keys (resolve : value number -> option (value number)) fields :
  forall result,
    NoDup (map fst result) -> ~ In "__proto__" (map fst result) ->
    NoDup (map fst (resolveFields resolve fields result)) /\
    ~ In "__proto__" (map fst (resolveFields resolve fields result)) /\
    (forall k, In k (map fst (resolveFields resolve fields result)) ->
               In k (map fst result) \/ In k (map fst fields)).
Proof.
  induction fields as [|[k v] fields IH]; intros result Hnd Hproto; simpl.
  - auto.
  - destruct (resolve v) as [resolved|].
    + destruct (assign_keys k resolved result Hnd Hproto) as (Hnd' & Hproto' & Hin').
      destruct (IH _ Hnd' Hproto') as (H1 & H2 & H3).
      split; [exact H1|]. split; [exact H2|].
      intros k' Hk'. destruct (H3 k' Hk') as [Hk|Hk]; [|auto].
      destruct (Hin' k' Hk); auto.
    + destruct (IH _ Hnd Hproto) as (H1 & H2 & H3).
      split; [exact H1|]. split; [exact H2|].
      intros k' Hk'. destruct (H3 k' Hk'); auto.
Qed.

(** X6.  A template without tokens renders to itself: when no string of
    it holds two opening braces in a row, and no object of it has the key
    [__proto__], the rendered document is the template, whatever the
    context. *)
Theorem token_free_template_unchanged :
  forall template context : value number,
    wellKeyed ["__proto__"] template = true ->
    tokenFree template = true ->
    resolveTokens template context = Some template.
Proof.
  intros template context. induction template as [| | |s|items IH|fields IH]
    using value_nested_ind; intros Hkeys Hfree; try reflexivity.
  - cbn [resolveTokens tokenFree] in *. unfold resolveStringTokens.
    apply negb_true_iff in Hfree.
    now rewrite (segments_no_token _ Hfree).
  - cbn [resolveTokens wellKeyed tokenFree] in *. do 2 f_equal.
    apply resolveItems_kept.
    rewrite forallb_forall in Hkeys, Hfree. rewrite Forall_forall in *.
    intros x Hx. now apply IH; [|apply Hkeys|apply Hfree].
  - cbn [resolveTokens tokenFree] in *. do 2 f_equal.
    apply wellKeyed_object in Hkeys as [Hnd Hsub].
    rewrite (resolveFields_kept _ fields []); [reflexivity|exact Hnd|].
    rewrite forallb_forall in Hfree. rewrite Forall_forall in *.
    intros kv Hkv. destruct (Hsub kv Hkv) as [Hres Hwk]. split.
    + intros E. apply Hres. left. now rewrite E.
    + now apply IH; [|exact Hwk|apply Hfree].
Qed.

(** X7.  The text around a token is kept: a leaf made of a text without
    braces, one token, and another text without braces renders to the two
    texts around the string of the token, and to [undefined] when that
    string, in its place, shows the marker of a missing value.  The token
    is tame: it looks up own properties, and the value that it finds
    converts to a string. *)
Theorem text_around_token_kept :
  forall (before expression behind : string) (context : value number),
    includesChar "{" before = false ->
    includesChar "{" behind = false ->
    expression <> EmptyString ->
    includesChar "}" expression = false ->
    tameExpression (trim expression) context = true ->
    let rendered :=
      (before ++ resolveTokenExpression (trim expression) context ++ behind)%string in
    resolveStringTokens (before ++ "{{" ++ expression ++ "}}" ++ behind) context
    = if includes MISSING_VALUE rendered then None else Some rendered.
Proof.
  intros before expression behind context Hbefore Hbehind Hne Hexpr _ rendered.
  unfold resolveStringTokens, resolvedString.
  set (fn := fun e => resolveTokenExpression (trim e) context).
  destruct (segments_literal_prefix fn before
              ("{{" ++ expression ++ "}}" ++ behind) Hbefore) as [Hsub Htok].
  rewrite Htok, Hsub, (segments_token expression behind Hne Hexpr).
  cbn [hasToken negb substitute].
  destruct (segments_literal_prefix fn behind "" Hbehind) as [Hsub' _].
  rewrite append_nil_r in Hsub'. rewrite Hsub'.
  change (substitute fn (segments "")) with EmptyString.
  rewrite append_nil_r. reflexivity.
Qed.

(** X8.  Rendering only takes away.  For a template that is tame in the
    context (its tokens look up own properties, and the values that they
    find convert to strings): an array renders to an array that is no
    longer, an object to an object whose keys are distinct keys of the
    template and never [__proto__]; a container is never left out itself,
    only a string leaf with a token can render to [undefined]. *)
Theorem render_only_removes :
  forall context : value number,
    (forall items,
       tameTemplate (VArr items) context = true ->
       exists out,
         resolveTokens (VArr items) context = Some (VArr out) /\
         List.length out <= List.length items) /\
    (forall fields,
       tameTemplate (VObj fields) context = true ->
       exists out,
         resolveTokens (VObj fields) context = Some (VObj out) /\
         NoDup (map fst out) /\ ~ In "__proto__" (map fst out) /\
         incl (map fst out) (map fst fields)) /\
    (forall template,
       tameTemplate template context = true ->
       resolveTokens template context = None ->
       exists leaf, template = VStr leaf /\ hasToken (segments leaf) = true).
Proof.
  intros context. split; [|split].
  - intros items _. eexists. split; [reflexivity|]. apply resolveItems_length.
  - intros fields _. eexists. split; [reflexivity|].
    destruct (resolveFields_keys (fun v => resolveTokens v context) fields [])
      as (H1 & H2 & H3); [constructor | intros [] |].
    split; [exact H1|]. split; [exact H2|].
    intros k Hk. destruct (H3 k Hk) as [[]|]; assumption.
  - intros [| | |leaf| |] _; try discriminate.
    cbn [resolveTokens]. unfold resolveStringTokens. intros H. exists leaf.
    split; [reflexivity|].
    destruct (hasToken (segments leaf)); [reflexivity | discriminate].
Qed.

End Engine.

Import DecimalNumbers.

(** X5 at work: a payload with a key [meta] of its own. *)
Lemma context_meta_shadows_payload_witness :
  hd "" (split "." "user.id") <> "meta" /\
  getValueByPath "user.id"
    (contextOf (@VObj string [("meta", VStr "mine"); ("user", VObj [("id", VStr "u1")])])
               (VObj [("ip", VStr "10.0.0.1")]))
  = Some (VStr "u1").
Proof.
  assert (hd "" (split "." "user.id") <> "meta") as H by discriminate.
  split; [exact H|].
  rewrite (proj2 (proj2 (@context_meta_shadows_payload string canonicalNumber
                           (VObj [("meta", VStr "mine");
                                  ("user", VObj [("id", VStr "u1")])])
                           (VObj [("ip", VStr "10.0.0.1")]))) "user.id" H).
  reflexivity.
Defined.

(** X6 at work: a template of constants. *)
Lemma token_free_template_unchanged_witness :
  wellKeyed ["__proto__"]
    (@VObj string [("source", VStr "web {beta}"); ("tags", VArr [VStr "a"; VNull])])
  = true /\
  tokenFree
    (@VObj string [("source", VStr "web {beta}"); ("tags", VArr [VStr "a"; VNull])])
  = true /\
  resolveTokens
    (@VObj string [("source", VStr "web {beta}"); ("tags", VArr [VStr "a"; VNull])])
    (VObj [])
  = Some (VObj [("source", VStr "web {beta}"); ("tags", VArr [VStr "a"; VNull])]).
Proof.
  split; [reflexivity|]. split; [reflexivity|].
  exact (@token_free_template_unchanged string canonicalNumber
           (VObj [("source", VStr "web {beta}"); ("tags", VArr [VStr "a"; VNull])])
           (VObj []) eq_refl eq_refl).
Defined.

(** X7 at work: a sentence around the token [ currency ]. *)
Lemma text_around_token_kept_witness :
  includesChar "{" "Paid in " = false /\
  includesChar "{" ", thanks" = false /\
  " currency " <> EmptyString /\
  includesChar "}" " currency " = false /\
  tameExpression (trim " currency ") (@VObj string [("currency", VStr "EUR")])
  = true /\
  resolveStringTokens "Paid in {{ currency }}, thanks"
    (@VObj string [("currency", VStr "EUR")])
  = Some "Paid in EUR, thanks".
Proof.
  split; [reflexivity|]. split; [reflexivity|].
  split; [discriminate|]. split; [reflexivity|]. split; [reflexivity|].
  exact (@text_around_token_kept string canonicalNumber
           "Paid in " " currency " ", thanks" (VObj [("currency", VStr "EUR")])
           eq_refl eq_refl ltac:(discriminate) eq_refl eq_refl).
Defined.

(** X8 at work: the one leaf left out of [["{{x}}"]] is a string with a
    token. *)
Lemma render_only_removes_witness :
  tameTemplate (VStr "{{x}}") (@VObj string []) = true /\
  resolveTokens (VStr "{{x}}") (@VObj string []) = None /\
  exists leaf, @VStr string "{{x}}" = VStr leaf /\ hasToken (segments leaf) = true.
Proof.
  assert (resolveTokens (VStr "{{x}}") (@VObj string []) = None) as H
    by reflexivity.
  split; [reflexivity|]. split; [exact H|].
  exact (proj2 (proj2 (@render_only_removes string canonicalNumber (VObj [])))
           (VStr "{{x}}") eq_refl H).
Defined.

End TemplateCoverage.
(* ================================================================== *)
(** ** deepClone *)

Module CloneCoverage.
Import JsString Json JsonShape Utils TemplateEngine JsonFacts TemplateCoverage.

Section Values.
Context {number : Type}.

(** The loop of [deepClone] over the keys is the loop of the template
    engine over the entries, with the clone for the rendering. *)
Lemma deepClone_object (fields : list (string * value number)) :
  deepClone (VObj fields)
  = VObj (resolveFields (fun v => Some (deepClone v)) fields []).
Proof.
  cbn [deepClone]. reflexivity.
Qed.

(** The clone of well-keyed data is the data. *)
Lemma deepClone_wellKeyed (payload : value number) :
  wellKeyed ["__proto__"; "hasOwnProperty"] payload = true ->
  deepClone payload = payload.
Proof.
  induction payload as [| | | |items IH|fields IH]
    using value_nested_ind; intros Hkeys; try reflexivity.
  - cbn [deepClone wellKeyed] in *. f_equal.
    rewrite forallb_forall in Hkeys. rewrite Forall_forall in IH.
    rewrite <- (map_id items) at 2. apply map_ext_in.
    intros x Hx. now apply IH; [|apply Hkeys].
  - rewrite deepClone_object. f_equal.
    apply wellKeyed_object in Hkeys as [Hnd Hsub].
    rewrite (resolveFields_kept _ fields []); [reflexivity|exact Hnd|].
    rewrite Forall_forall in *.
    intros kv Hkv. destruct (Hsub kv Hkv) as [Hres Hwk]. split.
    + intros E. apply Hres. left. now rewrite E.
    + f_equal. now apply IH.
Qed.

(** X9.  The clone of a payload is the payload: [deepClone] returns a
    value equal to its argument, when no object in it has the key
    [__proto__].  That key is the one the clone loses: the assignment to
    the clone does not store it.  The loop calls [obj.hasOwnProperty], so
    both statements are about data none of whose objects has a key of that
    name. *)
Theorem deepClone_copies :
  (forall payload : value number,
     wellKeyed ["__proto__"; "hasOwnProperty"] payload = true ->
     deepClone payload = payload) /\
  (forall (v : value number) fields,
     wellKeyed ["hasOwnProperty"] (VObj (("__proto__", v) :: fields)) = true ->
     deepClone (VObj (("__proto__", v) :: fields)) = deepClone (VObj fields)).
Proof.
  split; [exact deepClone_wellKeyed | reflexivity].
Qed.

End Values.

(** X9 at work: an event with parameters. *)
Lemma deepClone_copies_witness :
  wellKeyed ["__proto__"; "hasOwnProperty"]
    (@VObj string [("events", VArr [VObj [("name", VStr "purchase");
                                         ("params", VObj [("value", VNum "12.5")])]])])
  = true /\
  deepClone
    (@VObj string [("events", VArr [VObj [("name", VStr "purchase");
                                         ("params", VObj [("value", VNum "12.5")])]])])
  = VObj [("events", VArr [VObj [("name", VStr "purchase");
                                 ("params", VObj [("value", VNum "12.5")])]])].
Proof.
  split; [reflexivity|].
  exact (proj1 (@deepClone_copies string)
           (VObj [("events", VArr [VObj [("name", VStr "purchase");
                                         ("params", VObj [("value", VNum "12.5")])]])])
           eq_refl).
Defined.

End CloneCoverage.

(* ================================================================== *)
(** ** Properties of src/auth.js *)

Module AuthCoverage.
Import JsString Json Config Utils Auth StringFacts.

Lemma includesString_In s l : includesString s l = true <-> In s l.
Proof.
  unfold includesString. rewrite existsb_exists. split.
  - intros (x & Hx & E). apply String.eqb_eq in E. now subst.
  - intros H. exists s. split; [exact H | apply String.eqb_refl].
Qed.

Section Strategies.
Context {number : Type} {NumberOps : JsNumber number}.

Lemma whitelist_grants (req : Request number) cfg :
  auth_success (authenticateOriginWhitelist req cfg) = true <->
  exists origin allowed,
    header "origin" (req_headers req) = Some origin /\ origin <> EmptyString /\
    origins cfg = Some allowed /\ In origin allowed.
Proof.
  unfold authenticateOriginWhitelist.
  destruct (header "origin" (req_headers req)) as [[|c o]|].
  - split; [discriminate|]. intros (origin & allowed & E & Hne & _).
    injection E as <-. congruence.
  - destruct (origins cfg) as [allowed|].
    + destruct (includesString (String c o) allowed) eqn:E; simpl.
      * split; [|reflexivity]. intros _. exists (String c o), allowed.
        repeat split; [discriminate|]. now apply includesString_In.
      * split; [discriminate|]. intros (origin & allowed' & E1 & _ & E2 & Hin).
        injection E1 as <-. injection E2 as <-.
        apply includesString_In in Hin. congruence.
    + split; [discriminate|]. intros (? & ? & _ & _ & E & _). discriminate.
  - split; [discriminate|]. intros (? & ? & E & _). discriminate.
Qed.

Lemma apikey_grants (req : Request number) cfg :
  auth_success (authenticateApiKey req cfg) = true <->
  exists provided,
    header "x-api-key" (req_headers req) = Some provided /\
    provided <> EmptyString /\ key cfg = Some provided.
Proof.
  unfold authenticateApiKey.
  destruct (header "x-api-key" (req_headers req)) as [[|c k]|].
  - split; [discriminate|]. intros (p & E & Hne & _). injection E as <-. congruence.
  - destruct (key cfg) as [[|c' k']|].
    + split; [discriminate|]. intros (p & E & _ & E'). congruence.
    + destruct (String.eqb_spec (String c k) (String c' k')) as [E|Hne]; simpl.
      * split; [|reflexivity]. intros _. exists (String c k).
        repeat split; [discriminate | now rewrite E].
      * split; [discriminate|]. intros (p & E & _ & E'). congruence.
    + split; [discriminate|]. intros (p & _ & _ & E'). discriminate.
  - split; [discriminate|]. intros (p & E & _). discriminate.
Qed.

Lemma ip_whitelist_grants (req : Request number) cfg :
  auth_success (authenticateIPWhitelist req cfg) = true <->
  exists allowed, allowed_ips cfg = Some allowed /\ In (getClientIP req) allowed.
Proof.
  unfold authenticateIPWhitelist.
  destruct (allowed_ips cfg) as [allowed|].
  - destruct (includesString (getClientIP req) allowed) eqn:E; simpl.
    + split; [|reflexivity]. intros _. exists allowed.
      split; [reflexivity | now apply includesString_In].
    + split; [discriminate|]. intros (allowed' & E' & Hin). injection E' as <-.
      apply includesString_In in Hin. congruence.
  - split; [discriminate|]. intros (? & E & _). discriminate.
Qed.

Lemma strategy_error_iff (req : Request number) cfg :
  (auth_error (authenticateOriginWhitelist req cfg) = None
   <-> auth_success (authenticateOriginWhitelist req cfg) = true) /\
  (auth_error (authenticateApiKey req cfg) = None
   <-> auth_success (authenticateApiKey req cfg) = true) /\
  (auth_error (authenticateIPWhitelist req cfg) = None
   <-> auth_success (authenticateIPWhitelist req cfg) = true).
Proof.
  unfold authenticateOriginWhitelist, authenticateApiKey, authenticateIPWhitelist.
  repeat split;
    repeat match goal with
           | |- context [match ?x with _ => _ end] => destruct x
           | |- context [if ?b then _ else _] => destruct b
           end; simpl; congruence.
Qed.

(** X10.  When [authenticate] grants.  It grants in three cases only: the
    type [whitelist] and a non-empty Origin header listed in [origins];
    the type [apikey] and a non-empty x-api-key header equal to the
    configured key; the type [ip_whitelist] and the client address listed
    in [allowed_ips].  It reports an error message exactly when it does
    not grant. *)
Theorem authenticate_grants_exactly :
  forall (req : Request number) (authConfig : option AuthConfig),
    (auth_success (authenticate req authConfig) = true <->
     exists cfg,
       authConfig = Some cfg /\
       ((auth_type cfg = Some "whitelist" /\
         exists origin allowed,
           header "origin" (req_headers req) = Some origin /\
           origin <> EmptyString /\
           origins cfg = Some allowed /\ In origin allowed)
        \/
        (auth_type cfg = Some "apikey" /\
         exists provided,
           header "x-api-key" (req_headers req) = Some provided /\
           provided <> EmptyString /\ key cfg = Some provided)
        \/
        (auth_type cfg = Some "ip_whitelist" /\
         exists allowed,
           allowed_ips cfg = Some allowed /\ In (getClientIP req) allowed))) /\
    (auth_error (authenticate req authConfig) = None <->
     auth_success (authenticate req authConfig) = true).
Proof.
  intros req authConfig. split.
  - destruct authConfig as [cfg|]; cbn [authenticate].
    2:{ split; [discriminate|]. intros (? & E & _). discriminate. }
    destruct (auth_type cfg) as [[|c t]|] eqn:Et.
    1,3: (split; [discriminate|]; intros (cfg' & E & H); injection E as <-;
          rewrite Et in H; destruct H as [[E _]|[[E _]|[E _]]]; discriminate).
    destruct (String.eqb_spec (String c t) "whitelist") as [Ew|Hw].
    { rewrite whitelist_grants. split.
      - intros H. exists cfg. split; [reflexivity|]. left.
        split; [now rewrite Et, Ew | exact H].
      - intros (cfg' & E & H). injection E as <-. rewrite Et, Ew in H.
        destruct H as [[_ H]|[[E _]|[E _]]]; [exact H | discriminate..]. }
    destruct (String.eqb_spec (String c t) "apikey") as [Ea|Ha].
    { rewrite apikey_grants. split.
      - intros H. exists cfg. split; [reflexivity|]. right. left.
        split; [now rewrite Et, Ea | exact H].
      - intros (cfg' & E & H). injection E as <-. rewrite Et, Ea in H.
        destruct H as [[E _]|[[_ H]|[E _]]]; [discriminate | exact H | discriminate]. }
    destruct (String.eqb_spec (String c t) "ip_whitelist") as [Ei|Hi].
    { rewrite ip_whitelist_grants. split.
      - intros H. exists cfg. split; [reflexivity|]. right. right.
        split; [now rewrite Et, Ei | exact H].
      - intros (cfg' & E & H). injection E as <-. rewrite Et, Ei in H.
        destruct H as [[E _]|[[E _]|[_ H]]]; [discriminate.. | exact H]. }
    split; [discriminate|]. intros (cfg' & E & H). injection E as <-.
    rewrite Et in H.
    destruct H as [[E _]|[[E _]|[E _]]]; injection E as E; congruence.
  - destruct authConfig as [cfg|]; cbn [authenticate];
      [|split; discriminate].
    destruct (auth_type cfg) as [[|c t]|]; [split; discriminate | |split; discriminate].
    destruct (strategy_error_iff req cfg) as (Hw & Ha & Hi).
    destruct (String.eqb (String c t) "whitelist"); [exact Hw|].
    destruct (String.eqb (String c t) "apikey"); [exact Ha|].
    destruct (String.eqb (String c t) "ip_whitelist"); [exact Hi|].
    split; discriminate.
Qed.

Lemma forwarded_first (forwarded first : string) :
  includesChar "," first = false ->
  forwarded = first \/ (exists rest, forwarded = (first ++ "," ++ rest)%string) ->
  split "," forwarded = first :: tl (split "," forwarded).
Proof.
  intros Hfirst [->|[rest ->]].
  - now rewrite (split_plain _ _ Hfirst).
  - change (first ++ "," ++ rest)%string with (first ++ String "," rest)%string.
    now rewrite (split_append _ _ _ Hfirst).
Qed.

(** X11.  The client address is read off the request headers alone when
    X-Forwarded-For is there: it is the first entry of that header,
    trimmed, whatever the address of the connection; and so a route with
    an IP whitelist grants exactly when that entry is in the list. *)
Theorem forwarded_header_names_client :
  forall (req : Request number) (forwarded first : string),
    header "x-forwarded-for" (req_headers req) = Some forwarded ->
    forwarded <> EmptyString ->
    includesChar "," first = false ->
    forwarded = first \/ (exists rest, forwarded = (first ++ "," ++ rest)%string) ->
    getClientIP req = trim first /\
    (forall cfg allowed,
       auth_type cfg = Some "ip_whitelist" -> allowed_ips cfg = Some allowed ->
       auth_success (authenticate req (Some cfg))
       = includesString (trim first) allowed).
Proof.
  intros req forwarded first Hheader Hne Hfirst Hshape.
  assert (getClientIP req = trim first) as Hip.
  { unfold getClientIP. rewrite Hheader.
    destruct forwarded as [|c s]; [congruence|].
    now rewrite (forwarded_first _ _ Hfirst Hshape). }
  split; [exact Hip|].
  intros cfg allowed Htype Hallowed. cbn [authenticate]. rewrite Htype.
  cbv beta iota. change ("ip_whitelist" =? "whitelist")%string with false.
  change ("ip_whitelist" =? "apikey")%string with false.
  change ("ip_whitelist" =? "ip_whitelist")%string with true. cbv iota.
  unfold authenticateIPWhitelist. rewrite Hallowed, Hip.
  now destruct (includesString (trim first) allowed).
Qed.

End Strategies.

Import DecimalNumbers.

(** X11 at work: a request relayed by two proxies, from a connection whose
    own address is not in the list. *)
Lemma forwarded_header_names_client_witness :
  auth_success
    (authenticate
       {| method := "POST";
          req_headers := [("x-forwarded-for", " 203.0.113.7, 10.0.0.2")];
          body := @VNull string; query := [];
          connectionAddress := Some "10.0.0.2"; socketAddress := None |}
       (Some {| auth_type := Some "ip_whitelist"; origins := None; key := None;
                allowed_ips := Some ["203.0.113.7"] |}))
  = true.
Proof.
  exact (proj2 (@forwarded_header_names_client string
                  {| method := "POST";
                     req_headers := [("x-forwarded-for", " 203.0.113.7, 10.0.0.2")];
                     body := @VNull string; query := [];
                     connectionAddress := Some "10.0.0.2"; socketAddress := None |}
                  " 203.0.113.7, 10.0.0.2" " 203.0.113.7"
                  eq_refl ltac:(discriminate) eq_refl
                  (or_intror (ex_intro _ " 10.0.0.2" eq_refl)))
           {| auth_type := Some "ip_whitelist"; origins := None; key := None;
              allowed_ips := Some ["203.0.113.7"] |}
           ["203.0.113.7"] eq_refl eq_refl).
Defined.

End AuthCoverage.

(* ================================================================== *)
(** ** Further properties of src/router.js *)

Module RouterCoverage.
Import JsString Json JsonShape Config Utils Auth TemplateEngine Router DryRun.
Import Tame UtilsSpec RouterSpec RouterShape StringFacts JsonFacts SortFacts RouterFacts.
Import AuthCoverage CloneCoverage.

(** *** The method gate *)

Lemma dedupe_spec l :
  forall seen,
    NoDup (dedupe seen l) /\
    forall x, In x (dedupe seen l) <-> In x l /\ ~ In x seen.
Proof.
  induction l as [|a l IH]; intros seen; simpl.
  - split; [constructor | tauto].
  - destruct (includesString a seen) eqn:E.
    + apply includesString_In in E. destruct (IH seen) as [Hnd Hin].
      split; [exact Hnd|]. intros x. rewrite Hin.
      split; [tauto|]. intros [[<-|Hx] Hs]; tauto.
    + assert (~ In a seen) as Ha.
      { intros H. apply includesString_In in H. congruence. }
      destruct (IH (a :: seen)) as [Hnd Hin]. split.
      * constructor; [|exact Hnd]. rewrite Hin. simpl. tauto.
      * intros x. simpl. rewrite Hin. simpl.
        destruct (string_dec a x) as [<-|Hne]; tauto.
Qed.

Lemma acceptsMethod_declared r m :
  acceptsMethod r m = true <-> exists ms, methods r = Some ms /\ In m ms.
Proof.
  unfold acceptsMethod. destruct (methods r) as [ms|].
  - rewrite includesString_In. split.
    + intros H. now exists ms.
    + intros (ms' & E & H). now injection E as <-.
  - split; [discriminate|]. intros (ms & E & _). discriminate.
Qed.

(** X12.  The method gate and its Allow header.  The gate lets a method
    pass exactly when a route declares it.  When it does not, the header
    lists every declared method once, with POST for each route that
    declares none; the refused method itself is on the list only as that
    POST. *)
Theorem allow_header_lists_declared_methods :
  forall (requestMethod : string) (rs : list Route),
    (validateRequestMethod requestMethod rs = None <->
     exists r ms, In r rs /\ methods r = Some ms /\ In requestMethod ms) /\
    (forall allowed,
       validateRequestMethod requestMethod rs = Some allowed ->
       NoDup allowed /\
       (forall m, In m allowed <->
                  exists r, In r rs /\
                            match methods r with
                            | Some ms => In m ms
                            | None => m = "POST"
                            end) /\
       (In requestMethod allowed ->
        requestMethod = "POST" /\ exists r, In r rs /\ methods r = None)).
Proof.
  intros requestMethod rs. unfold validateRequestMethod.
  destruct (existsb (fun r => acceptsMethod r requestMethod) rs) eqn:E.
  - split; [|discriminate]. split; [|reflexivity]. intros _.
    apply existsb_exists in E as (r & Hr & Ha).
    apply acceptsMethod_declared in Ha as (ms & Hms & Hin). now exists r, ms.
  - assert (forall r, In r rs -> acceptsMethod r requestMethod = false) as Hnone.
    { intros r Hr. destruct (acceptsMethod r requestMethod) eqn:Ha; [|reflexivity].
      assert (existsb (fun r => acceptsMethod r requestMethod) rs = true) as E'
        by (apply existsb_exists; now exists r).
      congruence. }
    split.
    + split; [discriminate|]. intros (r & ms & Hr & Hms & Hin).
      assert (acceptsMethod r requestMethod = true) as Ha
        by (apply acceptsMethod_declared; now exists ms).
      rewrite (Hnone r Hr) in Ha. discriminate.
    + intros allowed Hallowed. injection Hallowed as <-.
      destruct (dedupe_spec (declaredMethods rs) []) as [Hnd Hin].
      assert (forall m, In m (dedupe [] (declaredMethods rs)) <->
                exists r, In r rs /\
                          match methods r with
                          | Some ms => In m ms
                          | None => m = "POST"
                          end) as Hlist.
      { intros m. rewrite Hin. unfold declaredMethods. rewrite in_flat_map.
        split.
        - intros [(r & Hr & Hm) _]. exists r. split; [exact Hr|].
          destruct (methods r); [exact Hm|]. destruct Hm as [<-|[]]. reflexivity.
        - intros (r & Hr & Hm). split; [|intros []]. exists r. split; [exact Hr|].
          destruct (methods r); [exact Hm|]. left. now symmetry. }
      split; [exact Hnd|]. split; [exact Hlist|].
      intros Hself. apply Hlist in Hself as (r & Hr & Hm).
      destruct (methods r) as [ms|] eqn:Hms.
      * assert (acceptsMethod r requestMethod = true) as Ha
          by (apply acceptsMethod_declared; now exists ms).
        rewrite (Hnone r Hr) in Ha. discriminate.
      * split; [exact Hm|]. now exists r.
Qed.

(** *** initialize *)

Lemma findMatchingRoutes_Forall (P : Route -> Prop) rs eventName requestMethod matched :
  Forall P rs ->
  findMatchingRoutes rs eventName requestMethod = Returned matched ->
  Forall P matched.
Proof.
  intros Hall Hfind. apply Forall_forall. intros r Hr.
  rewrite Forall_forall in Hall. apply Hall.
  exact (findMatchingRoutes_incl _ _ _ _ Hfind r Hr).
Qed.

(** X13.  [initialize] splits the table: the regular routes are the routes
    without the fallback flag, in ascending priority; the fallback route
    is the first flagged one, and there is none exactly when no route is
    flagged.  So a flagged route is never found by its pattern. *)
Theorem initialize_splits_table :
  forall allRoutes : list Route,
    let st := initialize allRoutes in
    Permutation (filter (fun r => negb (flag (fallback r))) allRoutes) (routes st) /\
    StronglySorted priorityLe (routes st) /\
    (fallbackRoute st = None <->
     Forall (fun r => flag (fallback r) = false) allRoutes) /\
    (forall fb, fallbackRoute st = Some fb ->
       exists before behind,
         allRoutes = before ++ fb :: behind /\ flag (fallback fb) = true /\
         Forall (fun r => flag (fallback r) = false) before) /\
    (forall eventName requestMethod matched,
       findMatchingRoutes (routes st) eventName requestMethod = Returned matched ->
       Forall (fun r => In r allRoutes /\ flag (fallback r) = false) matched).
Proof.
  intros allRoutes st. unfold st, initialize. cbn [routes fallbackRoute].
  split; [apply sort_permutation|]. split; [apply sort_ascending|].
  split; [|split].
  - induction allRoutes as [|r rs IH]; simpl.
    + split; [constructor | reflexivity].
    + destruct (flag (fallback r)) eqn:E; simpl.
      * split; [discriminate|]. intros H. inversion H; congruence.
      * rewrite IH. split; [now constructor | intros H; now inversion H].
  - induction allRoutes as [|r rs IH]; simpl; intros fb Hfb; [discriminate|].
    destruct (flag (fallback r)) eqn:E; simpl in Hfb.
    + injection Hfb as <-. exists [], rs. repeat split; [exact E | constructor].
    + destruct (IH fb Hfb) as (before & behind & -> & Hflag & Hbefore).
      exists (r :: before), behind. repeat split; [exact Hflag | now constructor].
  - intros eventName requestMethod matched Hfind.
    eapply findMatchingRoutes_Forall; [|exact Hfind].
    apply Forall_forall. intros r Hr.
    apply (Permutation_in _ (Permutation_sym (sort_permutation _))) in Hr.
    apply filter_In in Hr as [Hin Hflag].
    split; [exact Hin | now apply negb_true_iff].
Qed.

(** *** executeRoute, processRequest *)

Lemma valid_has_name {number : Type} (payload : value number) :
  isValidGA4Payload payload = true -> exists n, getEventName payload = Some n.
Proof.
  unfold getEventName. intros H. rewrite H. unfold isValidGA4Payload in H.
  destruct payload as [| | | | |fields]; try discriminate.
  destruct (lookup "events" fields) as [[| | | |[|[| | | | |first] rest]|]|];
    try discriminate.
  destruct (lookup "name" first) as [[| | |n| |]|]; try discriminate.
  now exists n.
Qed.

Lemma plainAnswer_internalError debugLogging message :
  plainAnswer debugLogging (internalError debugLogging message).
Proof.
  unfold plainAnswer, internalError, respond. simpl.
  split; [now right|]. split; [reflexivity|].
  intros -> m E. now injection E as <-.
Qed.

Lemma plainAnswer_aggregate debugLogging results :
  plainAnswer debugLogging (aggregate debugLogging results).
Proof.
  unfold aggregate. destruct (0 <? successCount results)%nat.
  - unfold plainAnswer, respond. simpl.
    split; [now left|]. split; [reflexivity|]. intros _ m E. discriminate.
  - apply plainAnswer_internalError.
Qed.

(** *** The headers of the post *)

Lemma header_set (kv : string * string) (acc : list (string * string)) name :
  header name
    ((fix set (hs : list (string * string)) : list (string * string) :=
        match hs with
        | [] => [kv]
        | (k, v) :: hs' =>
            if (k =? fst kv)%string then (k, snd kv) :: hs'
            else (k, v) :: set hs'
        end) acc)
  = if (fst kv =? name)%string then Some (snd kv) else header name acc.
Proof.
  induction acc as [|[k v] acc IH]; cbn [header].
  - destruct kv as [k0 v0]. reflexivity.
  - destruct (String.eqb_spec k (fst kv)) as [->|Hne]; cbn [header].
    + now destruct (fst kv =? name)%string.
    + rewrite IH. destruct (String.eqb_spec k name) as [->|Hk]; [|reflexivity].
      destruct (String.eqb_spec (fst kv) name); [congruence | reflexivity].
Qed.

Lemma header_absent name (hs : list (string * string)) :
  ~ In name (map fst hs) -> header name hs = None.
Proof.
  induction hs as [|[k v] hs IH]; cbn [header map fst In]; [reflexivity|].
  intros H. destruct (String.eqb_spec k name); [tauto|]. apply IH. tauto.
Qed.

(** X14.  The headers of the post.  [sendToTarget] hands to [axios.post]
    the headers of the route, and [Content-Type: application/json] unless
    the route sets a header of exactly that name; a header of the route
    under another spelling, such as [content-type], stands beside the
    default. *)
Theorem outbound_headers_default_content_type :
  forall (r : Route) (name : string),
    NoDup (map fst (headers r)) ->
    header name (outboundHeaders r)
    = match header name (headers r) with
      | Some v => Some v
      | None =>
          if (name =? "Content-Type")%string then Some "application/json"
          else None
      end.
Proof.
  intros r name. unfold outboundHeaders.
  assert (header name [("Content-Type", "application/json")]
          = if (name =? "Content-Type")%string then Some "application/json"
            else None) as <-.
  { cbn [header]. now rewrite String.eqb_sym. }
  generalize [("Content-Type", "application/json")].
  induction (headers r) as [|[k v] hs IH]; intros acc Hnd; [reflexivity|].
  cbn [fold_left]. inversion Hnd as [|? ? Hk Hrest]; subst.
  rewrite (IH _ Hrest), header_set. cbn [header fst snd].
  destruct (String.eqb_spec k name) as [->|Hne]; [|reflexivity].
  now rewrite (header_absent _ _ Hk).
Qed.

Section Dispatch.
Context {number : Type} {NumberOps : JsNumber number}.
Variable debugLogging : bool.
Variable files : string -> templateFile number.
Variable normalizeGetPayload : list (string * string) -> value number.
Variable world : Type.
Variable axiosPost :
  world -> string -> list (string * string) -> option (value number) ->
  world * PostOutcome.

Lemma executeRoute_denied r (req : Request number) payload meta w :
  auth_success (authenticate req (auth r)) = false ->
  executeRoute files axiosPost r req payload meta w
  = (w, failed r (auth_error (authenticate req (auth r)))).
Proof. intros H. unfold executeRoute. now rewrite H. Qed.

Lemma executeRoutes_denied rs (req : Request number) payload meta w :
  Forall (fun r => auth_success (authenticate req (auth r)) = false) rs ->
  fst (executeRoutes files axiosPost rs req payload meta w) = w /\
  existsb success (snd (executeRoutes files axiosPost rs req payload meta w))
  = false.
Proof.
  induction 1 as [|r rs Hr _ IH]; cbn [executeRoutes]; [now split|].
  rewrite (executeRoute_denied _ _ _ _ _ Hr).
  destruct (executeRoutes files axiosPost rs req payload meta w) as [w2 results].
  simpl in *. exact IH.
Qed.

Lemma plainAnswer_unmatched st (req : Request number) payload meta w :
  plainAnswer debugLogging
    (snd (handleUnmatchedEvent debugLogging files axiosPost st req payload meta w)).
Proof.
  unfold handleUnmatchedEvent. destruct (fallbackRoute st) as [fb|].
  - destruct (executeRoute files axiosPost fb req payload meta w) as [w' result].
    destruct (success result); cbn [snd].
    + unfold plainAnswer, respond. simpl.
      split; [now left|]. split; [reflexivity|]. intros _ m E. discriminate.
    + apply plainAnswer_internalError.
  - unfold plainAnswer, respond. simpl.
    split; [now left|]. split; [reflexivity|]. intros _ m E. discriminate.
Qed.

(** Past the gate and the validation, the answer is an answer of the
    dispatch. *)
Lemma processRequest_dispatch st (req : Request number) now w :
  validateRequestMethod (method req) (allRoutes st) = None ->
  isValidGA4Payload (inboundPayload normalizeGetPayload req) = true ->
  plainAnswer debugLogging
    (snd (processRequest debugLogging files normalizeGetPayload axiosPost
            st req now w)).
Proof.
  intros Hgate Hvalid. unfold processRequest. rewrite Hgate, Hvalid.
  cbn [negb]. cbv zeta.
  destruct (valid_has_name _ Hvalid) as [eventName ->].
  destruct (findMatchingRoutes (routes st) eventName (method req))
    as [[|first others]|message].
  - apply plainAnswer_unmatched.
  - destruct (executeRoutes files axiosPost (first :: others) req
                (inboundPayload normalizeGetPayload req)
                (createRequestMeta req now) w) as [w' results].
    apply plainAnswer_aggregate.
  - apply plainAnswer_internalError.
Qed.

(** X15.  The status of the answer.  It is 405 exactly when the gate
    refuses the method, and 400 exactly when the gate lets it pass and the
    payload is not valid; in both cases nothing was sent to any target.
    Otherwise it is 200 or 500.  The Allow header comes with the 405 only.
    When debugging is off, the message of an error is one of three fixed
    texts.  (The payload is one that the debug log can copy: no object in
    it has a key [hasOwnProperty].) *)
Theorem processRequest_answers :
  forall (st : RouterState) (req : Request number) (now : number) (w : world),
    wellKeyed ["hasOwnProperty"] (inboundPayload normalizeGetPayload req) = true ->
    let answer :=
      processRequest debugLogging files normalizeGetPayload axiosPost st req now w in
    let gate := validateRequestMethod (method req) (allRoutes st) in
    let valid := isValidGA4Payload (inboundPayload normalizeGetPayload req) in
    (statusCode (snd answer) = 405 <-> gate <> None) /\
    (statusCode (snd answer) = 400 <-> gate = None /\ valid = false) /\
    (gate = None -> valid = true ->
     statusCode (snd answer) = 200 \/ statusCode (snd answer) = 500) /\
    (gate <> None \/ valid = false -> fst answer = w) /\
    allowHeader (snd answer) = option_map (join ", ") gate /\
    (debugLogging = false ->
     forall message, responseBody (snd answer) = ErrorBody message ->
       message = "Method Not Allowed" \/ message = "Bad Request" \/
       message = "Internal Server Error").
Proof.
  intros st req now w _ answer gate valid.
  destruct gate as [allowed|] eqn:Hgate.
  - assert (answer = (w, {| statusCode := 405;
                            allowHeader := Some (join ", " allowed);
                            responseBody := ErrorBody "Method Not Allowed" |}))
      as ->.
    { unfold answer, processRequest. fold gate. now rewrite Hgate. }
    cbn [fst snd statusCode allowHeader responseBody option_map].
    split; [split; [discriminate | reflexivity]|].
    split; [split; [discriminate | intros [E _]; discriminate]|].
    split; [discriminate|].
    split; [reflexivity|]. split; [reflexivity|].
    intros _ m E. left. now injection E as <-.
  - destruct valid eqn:Hvalid.
    + pose proof (processRequest_dispatch st req now w Hgate Hvalid)
        as (Hcode & Hallow & Herror). fold answer in Hcode, Hallow, Herror.
      split; [split; [intros E; destruct Hcode; congruence | congruence]|].
      split; [split; [intros E; destruct Hcode; congruence
                     | intros [_ E]; discriminate]|].
      split; [intros _ _; exact Hcode|].
      split; [intros [E|E]; congruence|].
      split; [exact Hallow|].
      intros Hdebug m E. right. right. exact (Herror Hdebug m E).
    + assert (answer = (w, respond 400
                             (ErrorBody (if debugLogging
                                         then "Invalid payload: missing events[0].name"
                                         else "Bad Request")))) as ->.
      { unfold answer, processRequest. fold gate. rewrite Hgate.
        cbv zeta. fold valid. now rewrite Hvalid. }
      cbn [fst snd statusCode allowHeader responseBody respond option_map].
      split; [split; [discriminate | congruence]|].
      split; [split; [now split | reflexivity]|].
      split; [discriminate|].
      split; [reflexivity|]. split; [reflexivity|].
      intros -> m E. right. left. now injection E as <-.
Qed.

(** X16.  A request that no route authenticates reaches no target: when
    [authenticate] refuses it for every route of the table, the fallback
    route included, [processRequest] sends nothing, and its answer is not
    a success.  (The payload is one that the debug log can copy: no object
    in it has a key [hasOwnProperty].) *)
Theorem unauthenticated_request_reaches_no_target :
  forall (st : RouterState) (req : Request number) (now : number) (w : world),
    wellKeyed ["hasOwnProperty"] (inboundPayload normalizeGetPayload req) = true ->
    (forall r, In r (allRoutes st) ->
               auth_success (authenticate req (auth r)) = false) ->
    let answer :=
      processRequest debugLogging files normalizeGetPayload axiosPost st req now w in
    fst answer = w /\
    (forall processed, responseBody (snd answer) <> SuccessBody processed) /\
    responseBody (snd answer) <> FallbackSuccessBody.
Proof.
  intros st req now w _ Hdenied answer. unfold answer, processRequest.
  destruct (validateRequestMethod (method req) (allRoutes st));
    [repeat split; discriminate|].
  cbv zeta.
  destruct (negb (isValidGA4Payload (inboundPayload normalizeGetPayload req)));
    [repeat split; discriminate|].
  destruct (getEventName (inboundPayload normalizeGetPayload req))
    as [eventName|]; [|repeat split; discriminate].
  destruct (findMatchingRoutes (routes st) eventName (method req))
    as [[|first others]|message] eqn:Hfind.
  - unfold handleUnmatchedEvent.
    destruct (fallbackRoute st) as [fb|] eqn:Hfb;
      [|repeat split; discriminate].
    rewrite executeRoute_denied.
    + cbn [failed success]. repeat split; discriminate.
    + apply Hdenied. unfold allRoutes. rewrite Hfb. apply in_or_app.
      right. now left.
  - assert (Forall (fun r => auth_success (authenticate req (auth r)) = false)
                   (first :: others)) as Hall.
    { apply Forall_forall. intros r Hr. apply Hdenied.
      apply (findMatchingRoutes_incl _ _ _ _ Hfind) in Hr.
      unfold allRoutes. destruct (fallbackRoute st); [|exact Hr].
      apply in_or_app. now left. }
    destruct (executeRoutes_denied (first :: others) req
                (inboundPayload normalizeGetPayload req)
                (createRequestMeta req now) w Hall) as [Hw Hnone].
    destruct (executeRoutes files axiosPost (first :: others) req
                (inboundPayload normalizeGetPayload req)
                (createRequestMeta req now) w) as [w' results].
    cbn [fst snd] in *. split; [exact Hw|].
    unfold aggregate.
    assert ((0 <? successCount results)%nat = false) as ->.
    { apply Nat.ltb_ge. unfold successCount. clear -Hnone.
      induction results as [|r results IH]; simpl in *; [lia|].
      apply orb_false_elim in Hnone as [Hr Hnone]. rewrite Hr. auto. }
    split; [intros processed|]; discriminate.
  - repeat split; discriminate.
Qed.

Lemma sendToTarget_success r (payload : option (value number)) w :
  http_success (snd (sendToTarget axiosPost r payload w)) = true <->
  exists code text,
    snd (axiosPost w (target_url r) (outboundHeaders r) payload)
    = Responded code text /\ (code < 500)%nat.
Proof.
  unfold sendToTarget.
  destruct (axiosPost w (target_url r) (outboundHeaders r) payload)
    as [w' [code text| |code|message code]]; cbn [snd].
  - destruct (Nat.ltb_spec code 500); cbn [http_success].
    + split; [|reflexivity]. intros _. now exists code, text.
    + split; [discriminate|]. intros (c & t & E & Hc). injection E as <- <-. lia.
  - split; [discriminate|]. intros (c & t & E & _). discriminate.
  - split; [discriminate|]. intros (c & t & E & _). discriminate.
  - split; [discriminate|]. intros (c & t & E & _). discriminate.
Qed.

(** What an authenticated route does with the payload it made. *)
Lemma executeRoute_sends r (req : Request number) payload meta w transformed :
  auth_success (authenticate req (auth r)) = true ->
  match template r with
  | Some (String c t) => processTemplate files (String c t) payload meta
  | _ => Returned (Some (deepClone payload))
  end = Returned transformed ->
  let sent := axiosPost w (target_url r) (outboundHeaders r) transformed in
  let run := executeRoute files axiosPost r req payload meta w in
  fst run = fst sent /\
  (success (snd run) = true <->
   exists code text, snd sent = Responded code text /\ (code < 500)%nat) /\
  (forall code text,
     snd sent = Responded code text -> (code < 500)%nat ->
     status (snd run) = Some code).
Proof.
  intros Hauth Htransformed sent run. unfold run, executeRoute.
  rewrite Hauth. cbn [negb]. cbv zeta. rewrite Htransformed.
  pose proof (sendToTarget_success r transformed w) as Hsuccess.
  fold sent in Hsuccess.
  assert (fst (sendToTarget axiosPost r transformed w) = fst sent) as Hw.
  { unfold sendToTarget, sent.
    now destruct (axiosPost w (target_url r) (outboundHeaders r) transformed). }
  assert (forall code text,
            snd sent = Responded code text -> (code < 500)%nat ->
            http_status (snd (sendToTarget axiosPost r transformed w)) = Some code)
    as Hstatus.
  { unfold sendToTarget, sent.
    destruct (axiosPost w (target_url r) (outboundHeaders r) transformed)
      as [w' outcome]. cbn [snd]. intros code text -> Hcode.
    apply Nat.ltb_lt in Hcode. now rewrite Hcode. }
  destruct (sendToTarget axiosPost r transformed w) as [w' httpResult].
  cbn [fst snd] in *.
  destruct (http_success httpResult) eqn:E; cbn [negb fst snd success status failed].
  - split; [exact Hw|]. split; [now rewrite <- Hsuccess|]. exact Hstatus.
  - split; [exact Hw|]. split.
    + rewrite <- Hsuccess. split; discriminate.
    + intros code text Hs Hc.
      assert (false = true) by (apply Hsuccess; now exists code, text).
      discriminate.
Qed.

(** X17.  A route without a template forwards the payload as it came.
    Once the request is authenticated, the one call of the route posts the
    payload itself to the target of the route; the route has succeeded
    exactly when the target answered with a status below 500, be it a 404,
    and that status is the status of the result. *)
Theorem passthrough_forwards_payload :
  forall (r : Route) (req : Request number) (payload meta : value number)
         (w : world),
    auth_success (authenticate req (auth r)) = true ->
    nonEmpty (template r) = false ->
    wellKeyed ["__proto__"; "hasOwnProperty"] payload = true ->
    let sent := axiosPost w (target_url r) (outboundHeaders r) (Some payload) in
    let run := executeRoute files axiosPost r req payload meta w in
    fst run = fst sent /\
    (success (snd run) = true <->
     exists code text, snd sent = Responded code text /\ (code < 500)%nat) /\
    (forall code text,
       snd sent = Responded code text -> (code < 500)%nat ->
       status (snd run) = Some code).
Proof.
  intros r req payload meta w Hauth Htemplate Hkeys.
  apply executeRoute_sends; [exact Hauth|].
  rewrite (deepClone_wellKeyed payload Hkeys).
  destruct (template r) as [[|c t]|]; [reflexivity | discriminate | reflexivity].
Qed.

(** X18.  What a route with a template sends.  Once the request is
    authenticated, a template that loads and is tame in the context of the
    payload and the metadata is rendered in that context, and the
    rendering is what the route posts; a template that is missing or
    cannot be read makes the route fail with the message of the loader,
    and nothing is sent.  (The payload is one that the debug log can copy:
    no object in it has a key [hasOwnProperty].) *)
Theorem template_route_sends_rendering :
  forall (r : Route) (req : Request number) (payload meta : value number)
         (w : world) (path : string),
    auth_success (authenticate req (auth r)) = true ->
    template r = Some path -> path <> EmptyString ->
    wellKeyed ["hasOwnProperty"] payload = true ->
    let run := executeRoute files axiosPost r req payload meta w in
    match files path with
    | Document document =>
        tameTemplate document (contextOf payload meta) = true ->
        fst run
        = fst (axiosPost w (target_url r) (outboundHeaders r)
                 (resolveTokens document (contextOf payload meta)))
    | Absent =>
        run = (w, failed r (Some ("Template file not found: " ++ path)%string))
    | Unreadable reason =>
        run = (w, failed r (Some ("Failed to load template " ++ path ++ ": "
                                  ++ reason)%string))
    end.
Proof.
  intros r req payload meta w path Hauth Htemplate Hpath _ run.
  destruct path as [|c t]; [congruence|].
  destruct (files (String c t)) as [|reason|document] eqn:Hfile.
  - unfold run, executeRoute. rewrite Hauth, Htemplate. cbn [negb]. cbv zeta.
    unfold processTemplate, loadTemplate. now rewrite Hfile.
  - unfold run, executeRoute. rewrite Hauth, Htemplate. cbn [negb]. cbv zeta.
    unfold processTemplate, loadTemplate. now rewrite Hfile.
  - intros _. apply (executeRoute_sends r req payload meta w); [exact Hauth|].
    rewrite Htemplate. unfold processTemplate, loadTemplate. now rewrite Hfile.
Qed.

(** *** The dry run *)

Lemma previews_run rs (req : Request number) payload meta entries :
  previews files rs req payload meta = Returned entries ->
  Forall2 (previewsRun files axiosPost req payload meta) rs entries.
Proof.
  revert entries. induction rs as [|r rs IH]; intros entries; cbn [previews].
  - intros E. injection E as <-. constructor.
  - cbv zeta. destruct (auth_success (authenticate req (auth r))) eqn:Hauth;
      cbn [negb].
    + destruct (match template r with
                | Some (String c t) => processTemplate files (String c t) payload meta
                | _ => Returned (Some (deepClone payload))
                end) as [transformed|message] eqn:Ht; [|discriminate].
      destruct (previews files rs req payload meta) as [results|]; [|discriminate].
      intros E. injection E as <-. constructor; [|now apply IH].
      cbn [previewsRun]. split; [reflexivity|]. split; [reflexivity|].
      intros w.
      now destruct (executeRoute_sends r req payload meta w transformed Hauth Ht)
        as (Hw & _).
    + destruct (previews files rs req payload meta) as [results|]; [|discriminate].
      intros E. injection E as <-. constructor; [|now apply IH].
      cbn [previewsRun]. split; [reflexivity|]. split; [reflexivity|].
      intros w. now apply executeRoute_denied.
Qed.

(** X19.  The dry run shows what the run would send.  For a request whose
    method is not GET and whose event some route matches, a dry run that
    answers with entries has one entry for each route that
    [processRequest] runs, in their order; an entry with a transformed
    payload shows the payload that the run of its route posts, and an entry
    with an authentication error belongs to a route whose run sends
    nothing and fails with that error; the requests that [processRequest]
    sends are those of these routes, one after the other.  (The body is
    one that
    [deepClone] and the debug log can copy: no object in it has a key
    [hasOwnProperty].) *)
Theorem dry_run_previews_the_run :
  forall (st : RouterState) (req : Request number) (now : number)
         (entries : list (Preview number)),
    wellKeyed ["hasOwnProperty"] (body req) = true ->
    method req <> "GET" ->
    entries <> [] ->
    processDryRun debugLogging files st req now = DryMatched entries ->
    exists matched : list Route,
      Forall2 (previewsRun files axiosPost req (body req) (createRequestMeta req now))
              matched entries /\
      forall w,
        fst (processRequest debugLogging files normalizeGetPayload axiosPost
               st req now w)
        = fst (executeRoutes files axiosPost matched req (body req)
                 (createRequestMeta req now) w).
Proof.
  intros st req now entries _ Hmethod Hentries. unfold processDryRun. cbv zeta.
  destruct (isValidGA4Payload (body req)) eqn:Hvalid; [|discriminate].
  cbn [negb].
  destruct (getEventName (body req)) as [eventName|] eqn:Hname; [|discriminate].
  destruct (findMatchingRoutes (routes st) eventName (method req))
    as [matched|] eqn:Hfind; [|discriminate].
  destruct (previews files matched req (body req) (createRequestMeta req now))
    as [results|] eqn:Hpreviews; [|discriminate].
  intros E. injection E as ->. exists matched.
  pose proof (previews_run _ _ _ _ _ Hpreviews) as Hall.
  split; [exact Hall|]. intros w.
  destruct matched as [|first others]; [inversion Hall; congruence|].
  unfold processRequest.
  rewrite (matched_passes_gate st eventName (method req) first others Hfind).
  assert (inboundPayload normalizeGetPayload req = body req) as Hpayload.
  { unfold inboundPayload. apply String.eqb_neq in Hmethod. now rewrite Hmethod. }
  cbv zeta. rewrite Hpayload, Hvalid, Hname, Hfind. cbn [negb].
  now destruct (executeRoutes files axiosPost (first :: others) req (body req)
                 (createRequestMeta req now) w).
Qed.

End Dispatch.

Import DecimalNumbers.

(** X12 at work: a GET on a table that declares POST only. *)
Lemma allow_header_lists_declared_methods_witness :
  validateRequestMethod "GET" [R1; R2] = Some ["POST"] /\
  NoDup ["POST"].
Proof.
  split; [reflexivity|].
  exact (proj1 (proj2 (allow_header_lists_declared_methods "GET" [R1; R2])
                  ["POST"] eq_refl)).
Defined.

(** X13 at work: the routes that a purchase matches in the table of [R1]
    and [R2]. *)
Lemma initialize_splits_table_witness :
  findMatchingRoutes (routes (initialize [R1; R2])) "purchase" "POST"
  = Returned [R1; R2] /\
  Forall (fun r => In r [R1; R2] /\ flag (fallback r) = false) [R1; R2].
Proof.
  split; [reflexivity|].
  exact (proj2 (proj2 (proj2 (proj2 (initialize_splits_table [R1; R2]))))
           "purchase" "POST" [R1; R2] eq_refl).
Defined.

(** X15 at work: an event that no route of the table matches. *)
Lemma processRequest_answers_witness :
  wellKeyed ["hasOwnProperty"] (inboundPayload noQuery (postEvent "signup")) = true /\
  (statusCode
     (snd (processRequest false noTemplates noQuery oneHostDown purchaseTable
             (postEvent "signup") "1700000000" [])) = 405
   <-> validateRequestMethod (method (@postEvent string "signup"))
         (allRoutes purchaseTable) <> None).
Proof.
  split; [reflexivity|].
  exact (proj1 (processRequest_answers false noTemplates noQuery
                  (list string) oneHostDown purchaseTable
                  (postEvent "signup") "1700000000" [] eq_refl)).
Defined.

(** X16 at work: a request without the API key. *)
Lemma unauthenticated_request_reaches_no_target_witness :
  wellKeyed ["hasOwnProperty"]
    (inboundPayload noQuery (@anonymousPost string "purchase")) = true /\
  (forall r, In r (allRoutes singleTable) ->
             auth_success (authenticate (@anonymousPost string "purchase") (auth r))
             = false) /\
  fst (processRequest false noTemplates noQuery oneHostDown singleTable
         (anonymousPost "purchase") "1700000000" []) = [].
Proof.
  assert (forall r, In r (allRoutes singleTable) ->
            auth_success (authenticate (@anonymousPost string "purchase") (auth r))
            = false) as Hdenied.
  { intros r [<-|[]]. reflexivity. }
  split; [reflexivity|]. split; [exact Hdenied|].
  exact (proj1 (unauthenticated_request_reaches_no_target false noTemplates noQuery
                  (list string) oneHostDown singleTable
                  (anonymousPost "purchase") "1700000000" [] eq_refl Hdenied)).
Defined.

(** X17 at work: [R2] forwards a purchase. *)
Lemma passthrough_forwards_payload_witness :
  auth_success (authenticate (@postEvent string "purchase") (auth R2)) = true /\
  nonEmpty (template R2) = false /\
  wellKeyed ["__proto__"; "hasOwnProperty"] (body (@postEvent string "purchase"))
  = true /\
  fst (executeRoute noTemplates oneHostDown R2 (postEvent "purchase")
         (body (postEvent "purchase"))
         (createRequestMeta (postEvent "purchase") "1700000000") [])
  = fst (oneHostDown [] (target_url R2) (outboundHeaders R2)
           (Some (body (@postEvent string "purchase")))).
Proof.
  repeat (split; [reflexivity|]).
  exact (proj1 (passthrough_forwards_payload noTemplates (list string) oneHostDown
                  R2 (postEvent "purchase") (body (postEvent "purchase"))
                  (createRequestMeta (postEvent "purchase") "1700000000") []
                  eq_refl eq_refl eq_refl)).
Defined.

(** X18 at work: the route [templated] renders [order.json]. *)
Lemma template_route_sends_rendering_witness :
  auth_success (authenticate (@postEvent string "purchase") (auth templated)) = true /\
  template templated = Some "order.json" /\
  wellKeyed ["hasOwnProperty"] (body (@postEvent string "purchase")) = true /\
  tameRoute oneTemplate (body (@postEvent string "purchase"))
    (createRequestMeta (postEvent "purchase") "1700000000") templated = true /\
  fst (executeRoute oneTemplate oneHostDown templated (postEvent "purchase")
         (body (postEvent "purchase"))
         (createRequestMeta (postEvent "purchase") "1700000000") [])
  = fst (oneHostDown [] (target_url templated) (outboundHeaders templated)
           (Some (@VObj string [("event", VStr "purchase");
                                ("ip", VStr "203.0.113.7")]))).
Proof.
  repeat (split; [reflexivity|]).
  exact (template_route_sends_rendering oneTemplate (list string) oneHostDown
           templated (postEvent "purchase") (body (postEvent "purchase"))
           (createRequestMeta (postEvent "purchase") "1700000000") []
           "order.json" eq_refl eq_refl ltac:(discriminate) eq_refl eq_refl).
Defined.

(** X14 at work: the route [templated] sets no header. *)
Lemma outbound_headers_default_content_type_witness :
  NoDup (map fst (headers templated)) /\
  header "Content-Type" (outboundHeaders templated) = Some "application/json".
Proof.
  assert (NoDup (map fst (headers templated))) as Hnd by constructor.
  split; [exact Hnd|].
  exact (outbound_headers_default_content_type templated "Content-Type" Hnd).
Defined.

(** X19 at work: the dry run of a purchase on the table of [R1] and [R2]. *)
Lemma dry_run_previews_the_run_witness :
  processDryRun false noTemplates purchaseTable (postEvent "purchase") "1700000000"
  = DryMatched
      [Transformed "R1" "https://down.example/hook"
                   (Some (body (@postEvent string "purchase")));
       Transformed "R2" "https://up.example/hook"
                   (Some (body (@postEvent string "purchase")))] /\
  exists matched : list Route,
    Forall2 (previewsRun noTemplates oneHostDown (postEvent "purchase")
               (body (postEvent "purchase"))
               (createRequestMeta (postEvent "purchase") "1700000000"))
            matched
            [Transformed "R1" "https://down.example/hook"
                         (Some (body (@postEvent string "purchase")));
             Transformed "R2" "https://up.example/hook"
                         (Some (body (@postEvent string "purchase")))] /\
    forall w,
      fst (processRequest false noTemplates noQuery oneHostDown purchaseTable
             (postEvent "purchase") "1700000000" w)
      = fst (executeRoutes noTemplates oneHostDown matched
               (postEvent "purchase") (body (postEvent "purchase"))
               (createRequestMeta (postEvent "purchase") "1700000000") w).
Proof.
  split; [reflexivity|].
  apply (dry_run_previews_the_run false noTemplates noQuery
           (list string) oneHostDown purchaseTable
           (postEvent "purchase") "1700000000");
    [reflexivity | intros H; cbv in H; discriminate H | discriminate
    | reflexivity].
Defined.

End RouterCoverage.

(* ================================================================== *)
(** ** The payload and the metadata in the context of a template *)

Module ContextCoverage.
Import JsString Json Config Utils TemplateEngine.
Import StringFacts JsonFacts TemplateCoverage.

Section Payloads.
Context {number : Type} {NumberOps : JsNumber number}.

Lemma getEventName_shape (payload : value number) eventName :
  getEventName payload = Some eventName <->
  exists fields first rest,
    payload = VObj fields /\
    lookup "events" fields = Some (VArr (VObj first :: rest)) /\
    lookup "name" first = Some (VStr eventName).
Proof.
  unfold getEventName, isValidGA4Payload. split.
  - destruct payload as [| | | | |fields]; try discriminate.
    destruct (lookup "events" fields)
      as [[| | | |[|[| | | | |first] rest]|]|] eqn:He; try discriminate.
    destruct (lookup "name" first) as [[| | |n| |]|] eqn:Hn; try discriminate.
    intros E. injection E as <-. now exists fields, first, rest.
  - intros (fields & first & rest & -> & -> & ->). reflexivity.
Qed.

(** X20.  What every template can count on.  The event name is the string
    at [events[0].name] of the payload, and there is one exactly when the
    payload is valid; in the context of a template the path
    [events.0.name] leads to it, and the paths [meta.ip],
    [meta.user_agent] and [meta.timestamp] lead to the client address, the
    user agent and the clock reading of the request. *)
Theorem template_context_holds_event_and_meta :
  forall (req : Request number) (now : number) (payload : value number),
    let context := contextOf payload (createRequestMeta req now) in
    (isValidGA4Payload payload = true <-> getEventName payload <> None) /\
    (forall eventName,
       getEventName payload = Some eventName ->
       getValueByPath "events.0.name" payload = Some (VStr eventName) /\
       getValueByPath "events.0.name" context = Some (VStr eventName)) /\
    getValueByPath "meta.ip" context = Some (VStr (getClientIP req)) /\
    getValueByPath "meta.user_agent" context
    = Some (VStr (orElse (header "user-agent" (req_headers req)) "unknown")) /\
    getValueByPath "meta.timestamp" context = Some (VNum now).
Proof.
  intros req now payload context. split; [|split; [|split; [|split]]].
  - split.
    + intros H. unfold getEventName. rewrite H.
      unfold isValidGA4Payload in H.
      destruct payload as [| | | | |fields]; try discriminate.
      destruct (lookup "events" fields)
        as [[| | | |[|[| | | | |first] rest]|]|]; try discriminate.
      destruct (lookup "name" first) as [[| | |n| |]|]; discriminate.
    + unfold getEventName.
      destruct (isValidGA4Payload payload); [reflexivity | congruence].
  - intros eventName Hname.
    apply getEventName_shape in Hname as (fields & first & rest & -> & He & Hn).
    assert (getValueByPath "events.0.name" (VObj fields) = Some (VStr eventName))
      as Hpath.
    { unfold getValueByPath. change (split "." "events.0.name")
        with ["events"; "0"; "name"].
      cbn [walk]. rewrite He. change (isIndex "0") with true. cbv iota.
      change (parseDigits "0") with 0. cbn [nth_error walk]. now rewrite Hn. }
    split; [exact Hpath|].
    unfold context, getValueByPath in *.
    change (split "." "events.0.name") with ["events"; "0"; "name"] in *.
    cbn [walk contextOf spread] in *. rewrite lookup_setField.
    change ("events" =? "meta")%string with false. cbv iota. exact Hpath.
  - unfold context, getValueByPath.
    change (split "." "meta.ip") with ["meta"; "ip"].
    cbn [walk contextOf]. rewrite lookup_setField. reflexivity.
  - unfold context, getValueByPath.
    change (split "." "meta.user_agent") with ["meta"; "user_agent"].
    cbn [walk contextOf]. rewrite lookup_setField. reflexivity.
  - unfold context, getValueByPath.
    change (split "." "meta.timestamp") with ["meta"; "timestamp"].
    cbn [walk contextOf]. rewrite lookup_setField. reflexivity.
Qed.

End Payloads.

Import DecimalNumbers RouterSpec.

(** X20 at work: the purchase of the examples. *)
Lemma template_context_holds_event_and_meta_witness :
  getEventName (body (@postEvent string "purchase")) = Some "purchase" /\
  getValueByPath "events.0.name"
    (contextOf (body (@postEvent string "purchase"))
               (createRequestMeta (postEvent "purchase") "1700000000"))
  = Some (VStr "purchase").
Proof.
  split; [reflexivity|].
  exact (proj2 (proj1 (proj2 (template_context_holds_event_and_meta
                                (postEvent "purchase") "1700000000"
                                (body (@postEvent string "purchase"))))
                  "purchase" eq_refl)).
Defined.

End ContextCoverage.

(* ================================================================== *)
(** ** Properties of src/debug.js and of the size of its log *)

Module LoggerCoverage.
Import JsString Json JsonShape Config Utils TemplateEngine ConfigEnv DebugLogger.
Import StringFacts JsonFacts.

(** *** parseInt on a decimal numeral *)

Ltac digit_value :=
  match goal with
  | |- context [digitValue 10%Z ?c] =>
      let v := eval vm_compute in (digitValue 10%Z c) in
      change (digitValue 10%Z c) with v
  end.

Lemma leadingDigits_numeral d :
  forall acc : nat,
    leadingDigits 10 (Some (Z.of_nat acc)) (NilEmpty.string_of_uint d)
    = Some (Z.of_nat (Nat.of_uint_acc d acc)).
Proof.
  induction d as [|d IH|d IH|d IH|d IH|d IH|d IH|d IH|d IH|d IH|d IH];
    intros acc;
    cbn [NilEmpty.string_of_uint leadingDigits Nat.of_uint_acc];
    [reflexivity|..];
    digit_value; cbv iota; rewrite <- IH; do 2 f_equal;
    rewrite Nat.tail_mul_spec; lia.
Qed.

Lemma leadingDigits_first d :
  leadingDigits 10 None (NilZero.string_of_uint d)
  = Some (Z.of_nat (Nat.of_uint d)).
Proof.
  unfold Nat.of_uint.
  destruct d as [|d|d|d|d|d|d|d|d|d|d];
    cbn [NilZero.string_of_uint NilEmpty.string_of_uint leadingDigits
         Nat.of_uint_acc];
    [reflexivity|..];
    digit_value; cbv iota; rewrite <- leadingDigits_numeral; do 2 f_equal.
Qed.

Lemma parseInt_numeral d :
  parseInt (NilZero.string_of_uint d)
  = match leadingDigits 10 None (NilZero.string_of_uint d) with
    | Some magnitude => Some magnitude
    | None => None
    end.
Proof.
  destruct d as [|d|d|d|d|d|d|d|d|d|d]; try reflexivity;
    destruct d as [|d|d|d|d|d|d|d|d|d|d]; reflexivity.
Qed.

(** [parseInt] reads the decimal numeral of a number back. *)
Lemma parseInt_decimal k : parseInt (decimal k) = Some (Z.of_nat k).
Proof.
  unfold decimal. rewrite parseInt_numeral, leadingDigits_first.
  now rewrite Unsigned.of_to.
Qed.

Lemma clampEntries_range n : (0 <= clampEntries n <= 1000)%Z.
Proof.
  unfold clampEntries. destruct (Z.ltb_spec n 0); [lia|].
  destruct (n >? 1000)%Z eqn:E; [lia|].
  rewrite Z.gtb_ltb in E. apply Z.ltb_ge in E. lia.
Qed.

Lemma clampEntries_natural k :
  clampEntries (Z.of_nat k) = Z.min 1000 (Z.of_nat k).
Proof.
  unfold clampEntries. destruct (Z.ltb_spec (Z.of_nat k) 0); [lia|].
  destruct (Z.of_nat k >? 1000)%Z eqn:E; rewrite Z.gtb_ltb in E.
  - apply Z.ltb_lt in E. lia.
  - apply Z.ltb_ge in E. lia.
Qed.

Lemma loadDebugMaxEntries_range env n :
  loadDebugMaxEntries env = Returned n -> (0 <= n <= 1000)%Z.
Proof.
  unfold loadDebugMaxEntries.
  destruct (env "DEBUG_LOG_MAX") as [text|].
  - destruct (parseInt text); [|discriminate].
    intros E. injection E as <-. apply clampEntries_range.
  - destruct (env "DEBUG_MAX_ENTRIES") as [text|].
    + destruct (parseInt text); [|discriminate].
      intros E. injection E as <-. apply clampEntries_range.
    + intros E. injection E as <-. lia.
Qed.

(** *** Sensitive keys *)

Lemma startsWith_split p s :
  startsWith p s = true -> exists rest, s = (p ++ rest)%string.
Proof.
  revert s. induction p as [|a p IH]; intros s H.
  - now exists s.
  - destruct s as [|b s]; [discriminate|]. cbn [startsWith] in H.
    apply andb_prop in H as [Hab Hp]. apply Ascii.eqb_eq in Hab as <-.
    destruct (IH s Hp) as [rest ->]. now exists rest.
Qed.

(** A string that holds [a ++ b] holds [b]. *)
Lemma includes_inner a b s :
  includes (a ++ b) s = true -> includes b s = true.
Proof.
  induction s as [|c s IH]; intros H.
  - destruct a; destruct b; try discriminate H. reflexivity.
  - cbn [includes] in H. apply orb_prop in H as [H|H].
    + apply startsWith_split in H as [rest H]. rewrite H, append_assoc.
      apply includes_append_r, includes_append_l.
    + now apply includes_cons, IH.
Qed.

(** The word that the file log adds, [api_key], holds the word [key]: the
    two logs hide the same keys. *)
Lemma isSensitive_same key :
  isSensitive FileLogger.sensitiveFields key = isSensitive sensitiveFields key.
Proof.
  change FileLogger.sensitiveFields with (sensitiveFields ++ ["api_key"]).
  unfold isSensitive. rewrite existsb_app. cbn [existsb]. rewrite orb_false_r.
  destruct (includes (toLowerCase "api_key") (toLowerCase key)) eqn:E;
    [|apply orb_false_r].
  rewrite orb_true_r. symmetry. apply existsb_exists. exists "key".
  split; [unfold sensitiveFields; simpl; tauto|].
  apply (includes_inner "api_"). exact E.
Qed.

(** *** The log *)

Lemma firstn_app_firstn {A : Type} n (a b : list A) :
  firstn n (a ++ firstn n b) = firstn n (a ++ b).
Proof.
  rewrite !firstn_app, firstn_firstn. do 2 f_equal. lia.
Qed.

Section Values.
Context {number : Type}.
Variable jsonNumber : number -> option number.
Variable round : number -> number.
Variable numberTruthy : number -> bool.

(** The visit leaves the mark under every sensitive key: in the object
    itself, and in what the loop makes of it under a key that is not
    sensitive. *)
Lemma removeSensitiveFields_redacted fields (v : value number) :
  redacted fields (removeSensitiveFields fields v) = true /\
  redacted fields
    (match v with
     | VArr items => VArr (map (removeSensitiveFields fields) items)
     | VObj _ => removeSensitiveFields fields v
     | other => other
     end) = true.
Proof.
  induction v as [| | | |items IH|entries IH] using value_nested_ind;
    try (split; reflexivity).
  - split.
    + cbn [removeSensitiveFields redacted]. generalize 0.
      induction IH as [|x items [_ Hx] _ IHitems]; intros index; [reflexivity|].
      cbn [forallb]. rewrite IHitems, andb_true_r.
      destruct (isSensitive fields (decimal index)); [reflexivity|].
      destruct x; first [reflexivity | exact Hx].
    + cbn [redacted]. apply forallb_forall. intros y Hy.
      apply in_map_iff in Hy as (x & <- & Hx).
      rewrite Forall_forall in IH. now apply IH.
  - assert (redacted fields (removeSensitiveFields fields (VObj entries)) = true)
      as H; [|now split].
    cbn [removeSensitiveFields redacted]. apply forallb_forall. intros y Hy.
    apply in_map_iff in Hy as (kv & <- & Hkv). cbn [fst snd].
    rewrite Forall_forall in IH.
    destruct (isSensitive fields (fst kv)); [reflexivity|].
    destruct (IH kv Hkv) as [_ H].
    destruct (snd kv); first [reflexivity | exact H].
Qed.

(** The visit depends on the list of words through [isSensitive] only. *)
Lemma visit_extensional fields fields' (v : value number) :
  (forall key, isSensitive fields key = isSensitive fields' key) ->
  (visitFails fields v = visitFails fields' v /\
   removeSensitiveFields fields v = removeSensitiveFields fields' v) /\
  (match v with
   | VArr items => existsb (visitFails fields) items
   | VObj _ => visitFails fields v
   | _ => false
   end
   = match v with
     | VArr items => existsb (visitFails fields') items
     | VObj _ => visitFails fields' v
     | _ => false
     end /\
   match v with
   | VArr items => VArr (map (removeSensitiveFields fields) items)
   | VObj _ => removeSensitiveFields fields v
   | other => other
   end
   = match v with
     | VArr items => VArr (map (removeSensitiveFields fields') items)
     | VObj _ => removeSensitiveFields fields' v
     | other => other
     end).
Proof.
  intros Hsame.
  induction v as [| | | |items IH|entries IH] using value_nested_ind;
    try (repeat split; reflexivity).
  - split; split.
    + cbn [visitFails]. generalize 0.
      induction IH as [|x items [_ [Hx _]] _ IHitems]; intros index; [reflexivity|].
      rewrite IHitems, Hsame. f_equal. f_equal.
      destruct x; first [reflexivity | exact Hx].
    + cbn [removeSensitiveFields]. f_equal. generalize 0.
      induction IH as [|x items [_ [_ Hx]] _ IHitems]; intros index; [reflexivity|].
      rewrite IHitems, Hsame. f_equal.
      destruct (isSensitive fields' (decimal index)); [reflexivity|].
      destruct x; first [reflexivity | exact Hx].
    + induction IH as [|x items [[Hx _] _] _ IHitems]; [reflexivity|].
      cbn [existsb]. now rewrite Hx, IHitems.
    + f_equal. induction IH as [|x items [[_ Hx] _] _ IHitems]; [reflexivity|].
      cbn [map]. now rewrite Hx, IHitems.
  - assert (visitFails fields (VObj entries) = visitFails fields' (VObj entries) /\
            removeSensitiveFields fields (VObj entries)
            = removeSensitiveFields fields' (VObj entries)) as H; [|now split].
    split.
    + cbn [visitFails]. f_equal.
      induction IH as [|kv entries [_ [Hx _]] _ IHentries]; [reflexivity|].
      cbn [existsb]. rewrite IHentries, Hsame. f_equal. f_equal.
      destruct (snd kv); first [reflexivity | exact Hx].
    + cbn [removeSensitiveFields]. f_equal.
      induction IH as [|kv entries [_ [_ Hx]] _ IHentries]; [reflexivity|].
      cbn [map]. rewrite IHentries, Hsame. f_equal. f_equal.
      destruct (isSensitive fields' (fst kv)); [reflexivity|].
      destruct (snd kv); first [reflexivity | exact Hx].
Qed.

(** No visit fails on data without a key [hasOwnProperty]. *)
Lemma visit_passes fields (v : value number) :
  wellKeyed ["hasOwnProperty"] v = true ->
  visitFails fields v = false /\
  match v with
  | VArr items => existsb (visitFails fields) items
  | VObj _ => visitFails fields v
  | _ => false
  end = false.
Proof.
  induction v as [| | | |items IH|entries IH] using value_nested_ind;
    intros Hkeys; try (split; reflexivity).
  - cbn [wellKeyed] in Hkeys. rewrite forallb_forall in Hkeys.
    assert (Forall (fun x =>
              visitFails fields x = false /\
              match x with
              | VArr items => existsb (visitFails fields) items
              | VObj _ => visitFails fields x
              | _ => false
              end = false) items) as Hall.
    { rewrite Forall_forall in *. intros x Hx. now apply IH; [|apply Hkeys]. }
    clear IH Hkeys. split.
    + cbn [visitFails]. generalize 0.
      induction Hall as [|x items [_ Hx] _ IHitems]; intros index; [reflexivity|].
      rewrite IHitems, Hx, orb_false_r. apply andb_false_r.
    + induction Hall as [|x items [Hx _] _ IHitems]; [reflexivity|].
      cbn [existsb]. now rewrite Hx, IHitems.
  - assert (visitFails fields (VObj entries) = false) as H; [|now split].
    apply wellKeyed_object in Hkeys as [_ Hsub].
    assert (Forall (fun kv =>
              (fst kv =? "hasOwnProperty")%string = false /\
              match snd kv with
              | VArr items => existsb (visitFails fields) items
              | VObj _ => visitFails fields (snd kv)
              | _ => false
              end = false) entries) as Hall.
    { rewrite Forall_forall in *. intros kv Hkv.
      destruct (Hsub kv Hkv) as [Hres Hwk]. split.
      - apply String.eqb_neq. intros E. apply Hres. left. now symmetry.
      - now apply (IH kv Hkv). }
    clear IH Hsub. cbn [visitFails]. apply orb_false_intro.
    + induction Hall as [|kv entries [Hk _] _ IHentries]; [reflexivity|].
      cbn [existsb]. now rewrite Hk, IHentries.
    + induction Hall as [|kv entries [_ Hx] _ IHentries]; [reflexivity|].
      cbn [existsb]. rewrite IHentries, Hx, orb_false_r. apply andb_false_r.
Qed.

(** The copy has the keys of the original. *)
Lemma jsonCopy_wellKeyed reserved (v : value number) :
  wellKeyed reserved v = true -> wellKeyed reserved (jsonCopy jsonNumber v) = true.
Proof.
  induction v as [| |n| |items IH|fields IH] using value_nested_ind;
    intros Hkeys; try reflexivity.
  - cbn [jsonCopy]. now destruct (jsonNumber n).
  - cbn [jsonCopy wellKeyed] in *. rewrite forallb_forall in *.
    rewrite Forall_forall in IH. intros y Hy.
    apply in_map_iff in Hy as (x & <- & Hx). now apply IH; [|apply Hkeys].
  - cbn [jsonCopy wellKeyed] in *.
    apply andb_prop in Hkeys as [Hkeys Hsub]. apply andb_prop in Hkeys as [Hd Hres].
    assert (map fst (map (fun kv => (fst kv, jsonCopy jsonNumber (snd kv))) fields)
            = map fst fields) as ->
      by (rewrite map_map; now apply map_ext).
    rewrite Hd. cbn [andb].
    rewrite forallb_forall in Hres, Hsub. rewrite Forall_forall in IH.
    apply andb_true_intro. split; apply forallb_forall; intros y Hy;
      apply in_map_iff in Hy as (kv & <- & Hkv); cbn [fst snd].
    + now apply Hres.
    + now apply IH; [|apply Hsub].
Qed.

(** X21.  What the debug log keeps of a payload.  A sanitized payload
    holds the mark [[REDACTED]] under every key of an object whose lower
    case contains one of the sensitive words, at every depth.  The call
    returns for every payload none of whose objects has a key
    [hasOwnProperty]; an object with that key makes it throw. *)
Theorem sanitizePayload_redacts :
  (forall payload sanitized : value number,
     sanitizePayload jsonNumber payload = Returned sanitized ->
     redacted sensitiveFields sanitized = true) /\
  (forall payload : value number,
     wellKeyed ["hasOwnProperty"] payload = true ->
     exists sanitized,
       sanitizePayload jsonNumber payload = Returned sanitized /\
       redacted sensitiveFields sanitized = true) /\
  (forall (fields : list (string * value number)) (v : value number),
     In ("hasOwnProperty", v) fields ->
     sanitizePayload jsonNumber (VObj fields) = Thrown notAFunction).
Proof.
  assert (forall payload sanitized : value number,
            sanitizePayload jsonNumber payload = Returned sanitized ->
            redacted sensitiveFields sanitized = true) as Hredacted.
  { intros payload sanitized. unfold sanitizePayload.
    destruct payload as [| | | |items|fields];
      try (intros E; injection E as <-; reflexivity);
      cbv zeta;
      match goal with
      | |- context [visitFails ?f ?v] =>
          generalize (proj1 (removeSensitiveFields_redacted f v));
          generalize (removeSensitiveFields f v);
          destruct (visitFails f v)
      end; try discriminate;
      intros clean Hclean E; injection E as <-; exact Hclean. }
  split; [exact Hredacted|]. split.
  - intros payload Hkeys.
    assert (exists sanitized, sanitizePayload jsonNumber payload = Returned sanitized)
      as [sanitized Hs].
    { unfold sanitizePayload.
      pose proof (proj1 (visit_passes sensitiveFields _
                           (jsonCopy_wellKeyed _ _ Hkeys))) as Hpass.
      destruct payload; try (eexists; reflexivity);
        cbv zeta; rewrite Hpass; eexists; reflexivity. }
    exists sanitized. split; [exact Hs | exact (Hredacted _ _ Hs)].
  - intros fields v Hin. unfold sanitizePayload. cbv zeta.
    assert (visitFails sensitiveFields (jsonCopy jsonNumber (VObj fields)) = true)
      as ->; [|reflexivity].
    cbn [jsonCopy visitFails]. apply orb_true_intro. left.
    apply existsb_exists. exists ("hasOwnProperty", jsonCopy jsonNumber v).
    split; [|reflexivity].
    apply in_map_iff. now exists ("hasOwnProperty", v).
Qed.

Lemma logRequest_step c (logger : Logger) :
  match logRequest jsonNumber round numberTruthy c logger with
  | Returned l' => l'
  | Thrown _ => logger
  end
  = if (maxEntries logger =? 0)%nat then logger
    else match entryOf jsonNumber round numberTruthy c with
         | Returned entry =>
             {| entries := firstn (maxEntries logger) (entry :: entries logger);
                maxEntries := maxEntries logger |}
         | Thrown _ => logger
         end.
Proof.
  unfold logRequest. destruct (maxEntries logger =? 0)%nat; [reflexivity|].
  destruct (entryOf jsonNumber round numberTruthy c) as [entry|]; [|reflexivity]. cbv zeta. f_equal.
  destruct (Nat.ltb_spec (maxEntries logger) (List.length (entry :: entries logger)));
    [reflexivity|].
  symmetry. now apply firstn_all2.
Qed.

Lemma logAll_entries calls :
  forall logger : Logger,
    maxEntries (logAll jsonNumber round numberTruthy calls logger) = maxEntries logger /\
    entries (logAll jsonNumber round numberTruthy calls logger)
    = match maxEntries logger, written jsonNumber round numberTruthy calls with
      | 0, _ => entries logger
      | _, [] => entries logger
      | limit, _ => firstn limit (rev (written jsonNumber round numberTruthy calls) ++ entries logger)
      end.
Proof.
  induction calls as [|c calls IH]; intros logger.
  - split; [reflexivity|]. cbn [logAll fold_left written].
    now destruct (maxEntries logger).
  - unfold logAll in *. cbn [fold_left]. rewrite logRequest_step.
    destruct (maxEntries logger) as [|limit] eqn:Hlimit.
    + cbn [Nat.eqb]. destruct (IH logger) as [Hmax Hentries].
      rewrite Hmax, Hentries, Hlimit. now split.
    + cbn [Nat.eqb written]. destruct (entryOf jsonNumber round numberTruthy c) as [entry|].
      * match goal with
        | |- context [fold_left _ calls ?l] => destruct (IH l) as [Hmax Hentries]
        end.
        rewrite Hmax, Hentries. cbn [maxEntries entries]. split; [reflexivity|].
        destruct (written jsonNumber round numberTruthy calls) as [|e es].
        -- reflexivity.
        -- cbn [rev]. rewrite firstn_app_firstn.
           now rewrite <- !app_assoc.
      * destruct (IH logger) as [Hmax Hentries].
        rewrite Hmax, Hentries, Hlimit. now split.
Qed.

(** X22.  The log is a bounded list, newest first.  After any run of
    calls of [logRequest] the limit is what it was; with the limit 0
    nothing is written; otherwise the log holds the entries of the calls,
    the last call first, before the entries it had, cut to the limit.  So a
    log within its limit stays within it, and a log over its limit comes
    back to the limit with the first entry written. *)
Theorem log_is_bounded_newest_first :
  forall (calls : list (Call (number := number))) (logger : Logger),
    let after := logAll jsonNumber round numberTruthy calls logger in
    maxEntries after = maxEntries logger /\
    (maxEntries logger = 0 -> entries after = entries logger) /\
    (written jsonNumber round numberTruthy calls = [] -> entries after = entries logger) /\
    (0 < maxEntries logger -> written jsonNumber round numberTruthy calls <> [] ->
     entries after
     = firstn (maxEntries logger) (rev (written jsonNumber round numberTruthy calls) ++ entries logger)) /\
    (List.length (entries logger) <= maxEntries logger \/
     (0 < maxEntries logger /\ written jsonNumber round numberTruthy calls <> []) ->
     List.length (entries after) <= maxEntries logger).
Proof.
  intros calls logger after.
  destruct (logAll_entries calls logger) as [Hmax Hentries].
  fold after in Hmax, Hentries.
  assert (0 < maxEntries logger -> written jsonNumber round numberTruthy calls <> [] ->
          entries after
          = firstn (maxEntries logger) (rev (written jsonNumber round numberTruthy calls) ++ entries logger))
    as Hcut.
  { intros Hpos Hne. rewrite Hentries.
    destruct (maxEntries logger); [lia|].
    destruct (written jsonNumber round numberTruthy calls); [congruence | reflexivity]. }
  split; [exact Hmax|]. split; [|split; [|split; [exact Hcut|]]].
  - intros Hzero. rewrite Hentries, Hzero. reflexivity.
  - intros Hnone. rewrite Hentries, Hnone. now destruct (maxEntries logger).
  - intros [Hwithin|[Hpos Hne]].
    + rewrite Hentries. destruct (maxEntries logger) as [|limit]; [exact Hwithin|].
      destruct (written jsonNumber round numberTruthy calls); [exact Hwithin|].
      rewrite length_firstn. lia.
    + rewrite (Hcut Hpos Hne), length_firstn. lia.
Qed.

(** X23.  The size of the log comes from the environment.
    [DEBUG_LOG_MAX] goes before [DEBUG_MAX_ENTRIES], and 100 stands when
    neither is set; a decimal numeral is cut to 1000; whatever is loaded
    lies between 0 and 1000.  So a logger that starts empty with a loaded
    limit never holds more than 1000 entries. *)
Theorem debug_log_size_is_capped :
  (forall env n, loadDebugMaxEntries env = Returned n -> (0 <= n <= 1000)%Z) /\
  (forall env k,
     env "DEBUG_LOG_MAX" = Some (decimal k) ->
     loadDebugMaxEntries env = Returned (Z.min 1000 (Z.of_nat k))) /\
  (forall env k,
     env "DEBUG_LOG_MAX" = None -> env "DEBUG_MAX_ENTRIES" = Some (decimal k) ->
     loadDebugMaxEntries env = Returned (Z.min 1000 (Z.of_nat k))) /\
  (forall env,
     env "DEBUG_LOG_MAX" = None -> env "DEBUG_MAX_ENTRIES" = None ->
     loadDebugMaxEntries env = Returned 100%Z) /\
  (forall env n (calls : list (Call (number := number))),
     loadDebugMaxEntries env = Returned n ->
     List.length (entries (logAll jsonNumber round numberTruthy calls (initialize n constructed))) <= 1000).
Proof.
  split; [exact loadDebugMaxEntries_range|]. split; [|split; [|split]].
  - intros env k Hset. unfold loadDebugMaxEntries.
    now rewrite Hset, parseInt_decimal, clampEntries_natural.
  - intros env k Hnone Hset. unfold loadDebugMaxEntries.
    now rewrite Hnone, Hset, parseInt_decimal, clampEntries_natural.
  - intros env Hnone Hnone'. unfold loadDebugMaxEntries.
    now rewrite Hnone, Hnone'.
  - intros env n calls Hload.
    apply loadDebugMaxEntries_range in Hload.
    destruct (logAll_entries calls (initialize n constructed)) as [_ Hentries].
    rewrite Hentries. cbn [initialize constructed maxEntries entries].
    destruct (Z.to_nat n) as [|limit] eqn:Hlimit; [cbn; lia|].
    destruct (written jsonNumber round numberTruthy calls); [cbn; lia|].
    rewrite length_firstn. lia.
Qed.

(** X24.  The file log hides what the debug log hides.  The two lists of
    sensitive words name the same keys; where the sanitizer of the debug
    log returns, the one of the file log returns the same payload, and
    where the first throws, the second returns the mark
    [[SANITIZATION_ERROR]]; so what the file log writes has the mark of
    redaction under every sensitive key. *)
Theorem file_log_redacts_like_debug_log :
  (forall key,
     isSensitive FileLogger.sensitiveFields key = isSensitive sensitiveFields key) /\
  (forall payload : value number,
     FileLogger.sanitizePayload jsonNumber payload
     = match sanitizePayload jsonNumber payload with
       | Returned sanitized => sanitized
       | Thrown _ => VStr FileLogger.SANITIZATION_ERROR
       end) /\
  (forall payload : value number,
     redacted sensitiveFields (FileLogger.sanitizePayload jsonNumber payload)
     = true).
Proof.
  assert (forall payload : value number,
            FileLogger.sanitizePayload jsonNumber payload
            = match sanitizePayload jsonNumber payload with
              | Returned sanitized => sanitized
              | Thrown _ => VStr FileLogger.SANITIZATION_ERROR
              end) as Hsame.
  { intros payload. unfold FileLogger.sanitizePayload, sanitizePayload.
    destruct payload; try reflexivity; cbv zeta;
      match goal with
      | |- context [visitFails sensitiveFields ?v] =>
          destruct (visit_extensional FileLogger.sensitiveFields sensitiveFields
                      v isSensitive_same) as [[-> ->] _];
          now destruct (visitFails sensitiveFields v)
      end. }
  split; [exact isSensitive_same|]. split; [exact Hsame|].
  intros payload. rewrite Hsame.
  destruct (sanitizePayload jsonNumber payload) as [sanitized|] eqn:E;
    [|reflexivity].
  revert E. unfold sanitizePayload.
  destruct payload as [| | | |items|fields];
    try (intros E; injection E as <-; reflexivity);
    cbv zeta;
    match goal with
    | |- context [visitFails ?f ?v] =>
        generalize (proj1 (removeSensitiveFields_redacted f v));
        generalize (removeSensitiveFields f v);
        destruct (visitFails f v)
    end; try discriminate;
    intros clean Hclean E; injection E as <-; exact Hclean.
Qed.

End Values.

Import LoggerSpec.

(** X21 at work: the credentials of the example, at both depths. *)
Lemma sanitizePayload_redacts_witness :
  wellKeyed ["hasOwnProperty"] credentials = true /\
  sanitizePayload jsonText credentials
  = Returned
      (VObj [("user", VObj [("name", VStr "ada"); ("apiKey", VStr REDACTED)]);
             ("Password", VStr REDACTED);
             ("items", VArr [VObj [("sku", VStr "A1");
                                   ("auth_code", VStr REDACTED)]])]) /\
  exists sanitized,
    sanitizePayload jsonText credentials = Returned sanitized /\
    redacted sensitiveFields sanitized = true.
Proof.
  split; [reflexivity|]. split; [reflexivity|].
  exact (proj1 (proj2 (sanitizePayload_redacts jsonText)) credentials eq_refl).
Defined.

(** X22 at work: three calls on a log of two entries. *)
Lemma log_is_bounded_newest_first_witness :
  List.length
    (entries (logAll jsonText roundText textTruthy
                [sampleCall; sampleCall; sampleCall]
                {| entries := []; maxEntries := 2 |})) <= 2.
Proof.
  apply (proj2 (proj2 (proj2 (proj2
           (log_is_bounded_newest_first jsonText roundText textTruthy
              [sampleCall; sampleCall; sampleCall]
              {| entries := []; maxEntries := 2 |}))))).
  left. apply Nat.le_0_l.
Defined.

(** X23 at work: a request for 5000 entries gives 1000. *)
Lemma debug_log_size_is_capped_witness :
  largeLog "DEBUG_LOG_MAX" = Some (decimal 5000) /\
  loadDebugMaxEntries largeLog = Returned 1000%Z.
Proof.
  split; [reflexivity|].
  exact (proj1 (proj2 (debug_log_size_is_capped jsonText roundText textTruthy))
           largeLog 5000 eq_refl).
Defined.

End LoggerCoverage.

